(** * PacksList front-end: the configuration cache loader and the city picker

    A shallow embedding of [src/config-manager.js] (class [ConfigManager])
    and [src/location-manager.js] (class [LocationManager]).

    Conventions of the embedding.
    - A JavaScript [Map] with string keys is a [gmap string _]; an object
      literal is the list of its own properties in insertion order.
    - [Date.now()] is an integer number of milliseconds, a [Z]; other
      numbers are the rationals their decimal literals denote.
    - [Math.random().toString(36)] is floating point; its result string is
      an input of the functions that call it.
    - An [async] method is cut at its [await]s into the segments the event
      loop runs atomically; the answer of the remote store to each request
      is an input of the segment that resumes after it.  A remote document
      that exists holds a mapping.
    - Registered callbacks and listeners are observers: they may throw
      (the code catches that) but do not call back into the manager.
    - [console.*] does not throw; console output is not recorded.  The
      browser may refuse a [localStorage.setItem] ([setItem] then throws):
      its answer is an input of the method that writes.
    - [this.sessionId] is assigned once, in the constructor, so the cache
      key a call computes on entry is the key it uses after its [await]s. *)

From Stdlib Require Import ZArith QArith String Ascii List Lia.
From stdpp Require Import base option list strings pretty gmap fin_maps.
Import ListNotations.

Local Open Scope string_scope.
Local Open Scope list_scope.
#[local] Set Warnings "-register-all".

(** ** JavaScript values *)

(** [VNative name] stands for a host object or function, such as the
    members of [Object.prototype]; nothing is known of it but its name. *)
Inductive JSValue : Type :=
| VUndefined
| VNull
| VBool (b : bool)
| VNum (q : Q)
| VStr (s : string)
| VArr (l : list JSValue)
| VObj (o : list (string * JSValue))
| VNative (name : string).

(** Own properties of an object literal, in insertion order. *)
Abbreviation JSObj := (list (string * JSValue)).

Inductive JSError : Type :=
| TypeError (msg : string)
| RemoteError (msg : string)
| DOMException (name : string).

(** Completion of a computation that may throw (or of a promise that may
    reject). *)
Inductive Res (A : Type) : Type :=
| Ok (a : A)
| Throw (e : JSError).
Arguments Ok {A} a.
Arguments Throw {A} e.

Definition bindR {A B} (r : Res A) (k : A -> Res B) : Res B :=
  match r with
  | Ok a => k a
  | Throw e => Throw e
  end.

Definition is_ok {A} (r : Res A) : bool :=
  match r with Ok _ => true | Throw _ => false end.

(** ToBoolean *)
Definition truthy (v : JSValue) : bool :=
  match v with
  | VUndefined | VNull => false
  | VBool b => b
  | VNum q => negb (Z.eqb (Qnum q) 0)
  | VStr s => negb (String.eqb s "")
  | VArr _ | VObj _ | VNative _ => true
  end.

(** [a || b] *)
Definition js_or (a b : JSValue) : JSValue := if truthy a then a else b.

Fixpoint assoc (k : string) (o : JSObj) : option JSValue :=
  match o with
  | [] => None
  | (k', v) :: o' => if String.eqb k' k then Some v else assoc k o'
  end.

(** Properties every object literal inherits from [Object.prototype]. *)
Definition objectPrototype (k : string) : option JSValue :=
  if existsb (String.eqb k)
       ["constructor"; "__proto__"; "hasOwnProperty"; "isPrototypeOf";
        "propertyIsEnumerable"; "toLocaleString"; "toString"; "valueOf";
        "__defineGetter__"; "__defineSetter__"; "__lookupGetter__";
        "__lookupSetter__"]
  then Some (VNative ("Object.prototype." +:+ k))
  else None.

(** [o[k]] on an object: own property, else inherited, else [undefined]. *)
Definition obj_get (o : JSObj) (k : string) : JSValue :=
  match assoc k o with
  | Some v => v
  | None => default VUndefined (objectPrototype k)
  end.

(** [v.k] for the property names the code reads ([items], [key],
    [isActive]); reading a property of [undefined] or [null] throws. *)
Definition getProp (v : JSValue) (k : string) : Res JSValue :=
  match v with
  | VUndefined | VNull =>
      Throw (TypeError ("Cannot read properties of undefined (reading '"
                          +:+ k +:+ "')"))
  | VObj o => Ok (obj_get o k)
  | _ => Ok VUndefined
  end.

(** [a === s] against a string. *)
Definition strict_eq_str (a : JSValue) (s : string) : bool :=
  match a with
  | VStr s' => String.eqb s' s
  | _ => false
  end.

(** [o[k] = v] on own properties: overwrite in place or append. *)
Fixpoint obj_set (k : string) (v : JSValue) (o : JSObj) : JSObj :=
  match o with
  | [] => [(k, v)]
  | (k', v') :: o' =>
      if String.eqb k' k then (k, v) :: o' else (k', v') :: obj_set k v o'
  end.

(** The property name of an array index. *)
Definition string_of_nat (n : nat) : string := pretty n.

Fixpoint chars (s : string) : list string :=
  match s with
  | EmptyString => []
  | String c s' => String c EmptyString :: chars s'
  end.

(** Own enumerable properties, as object spread [...v] copies them. *)
Definition ownEntries (v : JSValue) : JSObj :=
  match v with
  | VObj o => o
  | VArr l => imap (fun i x => (string_of_nat i, x)) l
  | VStr s => imap (fun i c => (string_of_nat i, VStr c)) (chars s)
  | _ => []
  end.

(** [{ ...a, ...b }] *)
Definition spread2 (a b : JSValue) : JSObj :=
  fold_left (fun acc kv => obj_set kv.1 kv.2 acc) (ownEntries b)
    (fold_left (fun acc kv => obj_set kv.1 kv.2 acc) (ownEntries a) []).

(** ** Strings: [substr] and [toString(36)] *)

(** [s.substr(start, len)] for [start >= 0]. *)
Definition substr (s : string) (start len : nat) : string :=
  String.substring start len s.

(** [s.substr(-n)]: the last [n] characters. *)
Definition substr_last (s : string) (n : nat) : string :=
  String.substring (String.length s - n) n s.

Definition digit36 (d : Z) : ascii :=
  ascii_of_nat (Z.to_nat (if (d <? 10)%Z then 48 + d else 87 + d)%Z).

Fixpoint toString36_digits (fuel : nat) (n : Z) (acc : string) : string :=
  match fuel with
  | O => acc
  | S fuel' =>
      let acc' := String (digit36 (n mod 36)) acc in
      if (n / 36 =? 0)%Z then acc' else toString36_digits fuel' (n / 36)%Z acc'
  end.

(** [n.toString(36)] for an integer [n]. *)
Definition toString36 (n : Z) : string :=
  if (n <? 0)%Z
  then String "-" (toString36_digits (S (Z.to_nat (Z.log2 (- n)))) (- n) "")
  else toString36_digits (S (Z.to_nat (Z.log2 n))) n "".

(** ** Session and public identifiers *)

(** [generateSessionId()]; [rnd] is [Math.random().toString(36)] and [now]
    is [Date.now()]. *)
Definition generateSessionId (rnd : string) (now : Z) : string :=
  "sess_" +:+ substr rnd 2 12 +:+ toString36 now.

(** The prefix table of [generatePublicId], [{...}[type] || 'item_'], on
    the type names the code passes. *)
Definition publicIdPrefix (type : string) : string :=
  if String.eqb type "pack" then "pack_"
  else if String.eqb type "city" then "city_"
  else if String.eqb type "user" then "user_"
  else if String.eqb type "vendor" then "vend_"
  else if String.eqb type "region" then "reg_"
  else "item_".

(** [generatePublicId(type)] *)
Definition generatePublicId (type : string) (rnd : string) (now : Z) : string :=
  publicIdPrefix type +:+ substr rnd 2 8 +:+ substr_last (toString36 now) 4.

(** The cache key template [`config_${type}_${this.sessionId}`]. *)
Definition cacheKey (type sessionId : string) : string :=
  "config_" +:+ type +:+ "_" +:+ sessionId.

(** ** The built-in default configuration *)

(** The [i]-th call of [generatePublicId] during one evaluation of the
    defaults table reads [Math.random().toString(36)] and [Date.now()]. *)
Definition Entropy : Type := nat -> string * Z.

Definition publicId (en : Entropy) (i : nat) (type : string) : JSValue :=
  VStr (generatePublicId type (en i).1 (en i).2).

Definition latlng (lat lng : Q) : JSValue :=
  VObj [("lat", VNum lat); ("lng", VNum lng)].

Definition strs (l : list string) : JSValue := VArr (map VStr l).

Definition defaults (en : Entropy) : JSObj :=
  [ ("cities", VObj [("items", VArr
      [ VObj [("id", publicId en 0 "city"); ("key", VStr "boston");
              ("name", VStr "Boston"); ("state", VStr "MA");
              ("coordinates", latlng 42.3601 (-71.0589));
              ("isActive", VBool true); ("priority", VNum 1);
              ("metroArea", VStr "greater-boston")];
        VObj [("id", publicId en 1 "city"); ("key", VStr "providence");
              ("name", VStr "Providence"); ("state", VStr "RI");
              ("coordinates", latlng 41.8240 (-71.4128));
              ("isActive", VBool true); ("priority", VNum 2);
              ("metroArea", VStr "providence-metro")];
        VObj [("id", publicId en 2 "city"); ("key", VStr "cambridge");
              ("name", VStr "Cambridge"); ("state", VStr "MA");
              ("coordinates", latlng 42.3736 (-71.1097));
              ("isActive", VBool true); ("priority", VNum 3);
              ("metroArea", VStr "greater-boston")] ])]);
    ("product-types", VObj [("items", VArr
      [ VObj [("id", publicId en 3 "pack"); ("key", VStr "indica-pack");
              ("name", VStr "Indica Pack"); ("category", VStr "cannabis");
              ("isActive", VBool true);
              ("searchTerms", strs ["indica"; "relaxing"; "nighttime"; "chill"]);
              ("icon", VStr "🌙")];
        VObj [("id", publicId en 4 "pack"); ("key", VStr "sativa-pack");
              ("name", VStr "Sativa Pack"); ("category", VStr "cannabis");
              ("isActive", VBool true);
              ("searchTerms", strs ["sativa"; "energizing"; "daytime"; "focus"]);
              ("icon", VStr "☀️")];
        VObj [("id", publicId en 5 "pack"); ("key", VStr "hybrid-pack");
              ("name", VStr "Hybrid Pack"); ("category", VStr "cannabis");
              ("isActive", VBool true);
              ("searchTerms", strs ["hybrid"; "balanced"; "mixed"; "versatile"]);
              ("icon", VStr "🌿")] ])]);
    ("vendor-categories", VObj [("items", VArr
      [ VObj [("id", publicId en 6 "vendor"); ("key", VStr "high-tolerance");
              ("name", VStr "High Tolerance"); ("color", VStr "#3498db");
              ("icon", VStr "H"); ("isActive", VBool true)];
        VObj [("id", publicId en 7 "vendor"); ("key", VStr "bozo-headstash");
              ("name", VStr "Bozo Headstash"); ("color", VStr "#8e44ad");
              ("icon", VStr "B"); ("isActive", VBool true)];
        VObj [("id", publicId en 8 "vendor"); ("key", VStr "deep-fried");
              ("name", VStr "Deep Fried"); ("color", VStr "#f39c12");
              ("icon", VStr "D"); ("isActive", VBool true)];
        VObj [("id", publicId en 9 "vendor"); ("key", VStr "gumbo");
              ("name", VStr "Gumbo"); ("color", VStr "#e74c3c");
              ("icon", VStr "G"); ("isActive", VBool true)];
        VObj [("id", publicId en 10 "vendor"); ("key", VStr "other");
              ("name", VStr "Other"); ("color", VStr "#95a5a6");
              ("icon", VStr "O"); ("isActive", VBool true)] ])]);
    ("metro-areas", VObj [("items", VArr
      [ VObj [("id", publicId en 11 "region"); ("key", VStr "greater-boston");
              ("name", VStr "Greater Boston");
              ("center", latlng 42.3601 (-71.0589)); ("radius", VNum 25);
              ("cities", strs ["boston"; "cambridge"; "somerville"]);
              ("deliveryRadius", VNum 15); ("isActive", VBool true)];
        VObj [("id", publicId en 12 "region"); ("key", VStr "providence-metro");
              ("name", VStr "Providence Metro");
              ("center", latlng 41.8240 (-71.4128)); ("radius", VNum 20);
              ("cities", strs ["providence"; "cranston"; "warwick"]);
              ("deliveryRadius", VNum 12); ("isActive", VBool true)] ])]);
    ("ui-strings", VObj
      [ ("searchPlaceholders", strs
          ["Search packs in {cityName}..."; "Find {productType} near you...";
           "Browse local packs..."; "What are you looking for?";
           "Discover packs in your area..."]);
        ("locationMessages", strs
          ["Detecting your location in {regionName}...";
           "Found {packCount} packs near you"; "Searching {cityName} area...";
           "Loading packs in your region..."]);
        ("personalizedPlaceholders", VObj
          [("returning_user", VStr "Welcome back! Search your favorites...");
           ("first_time", VStr "Discover packs in your area...");
           ("mobile", VStr "Tap to search nearby packs");
           ("desktop", VStr "Search packs, cities, types...");
           ("evening", VStr "Find evening packs near you...");
           ("morning", VStr "Browse morning selections...")]);
        ("errorMessages", VObj
          [("location_denied", VStr "Enable location for better results");
           ("no_results", VStr "No packs found in this area");
           ("connection_error", VStr "Connection issue - try again");
           ("loading_error", VStr "Unable to load content")]) ]);
    ("region-settings", VObj
      [ ("defaultRegion", VStr "northeast");
        ("fallbackLocation", latlng 41.8240 (-71.4128));
        ("maxSearchRadius", VNum 50);
        ("cacheTimeout", VNum 300000);
        ("privacySettings", VObj
          [("fuzzyLocationRadius", VNum 0.01);
           ("hideExactCoordinates", VBool true);
           ("sessionTimeout", VNum 1800000)]) ]) ].

(** [getDefaultConfig(type)]: [defaults[type] || {}] *)
Definition getDefaultConfig (type : string) (en : Entropy) : JSValue :=
  js_or (obj_get (defaults en) type) (VObj []).

(** ** A small monad for method bodies *)

Section Prog.
Context {S E : Type}.

(** A method body over the object state [S]: it reads and writes
    [this], emits effects of type [E] in program order, and completes
    normally or by throwing; writes made before a throw persist. *)
Definition Prog (A : Type) : Type := S -> Res A * S * list E.

Definition ret {A} (a : A) : Prog A := fun s => (Ok a, s, []).

Definition bindM {A B} (m : Prog A) (k : A -> Prog B) : Prog B :=
  fun s =>
    match m s with
    | (Ok a, s1, t1) =>
        match k a s1 with (r, s2, t2) => (r, s2, t1 ++ t2) end
    | (Throw e, s1, t1) => (Throw e, s1, t1)
    end.

(** Resuming after [await p]: the value of [p], or its rejection
    rethrown. *)
Definition await {A} (r : Res A) : Prog A := fun s => (r, s, []).

Definition this : Prog S := fun s => (Ok s, s, []).

Definition emit (e : E) : Prog unit := fun s => (Ok tt, s, [e]).

(** [try { body } catch (error) { handler(error) }] *)
Definition tryM {A} (body : Prog A) (handler : JSError -> Prog A) : Prog A :=
  fun s =>
    match body s with
    | (Ok a, s1, t1) => (Ok a, s1, t1)
    | (Throw e, s1, t1) =>
        match handler e s1 with (r, s2, t2) => (r, s2, t1 ++ t2) end
    end.

(** [l.forEach(f)], the index passed along. *)
Fixpoint forEachM {A} (f : nat -> A -> Prog unit) (i : nat) (l : list A)
  : Prog unit :=
  match l with
  | [] => ret tt
  | x :: l' => bindM (f i x) (fun _ => forEachM f (Datatypes.S i) l')
  end.

Definition forget {A} (m : Prog A) : S -> S * list E :=
  fun s => match m s with (_, s', t) => (s', t) end.
End Prog.
Arguments Prog : clear implicits.

Notation "'let*' x ':=' m 'in' k" := (bindM m (fun x => k))
  (at level 10, x name, m at level 100, k at level 200).
Notation "m '>>' k" := (bindM m (fun _ => k))
  (at level 100, k at level 200, right associativity).

(** ** The configuration manager: state and effects *)

(** A cache entry [{ data, timestamp }]. *)
Record CacheEntry : Type := mkEntry { data : JSValue; timestamp : Z }.

(** A registered callback [(event, data) => ...]; it may throw. *)
Definition Callback : Type := string -> JSValue -> Res unit.

Record ConfigManager : Type := mkCM {
  configs : gmap string JSValue;
  cache : gmap string CacheEntry;
  isInitialized : bool;
  callbacks : list Callback;
  cacheTimeout : Z;
  sessionId : string
}.

(** What a segment does to the outside, in program order. *)
Inductive Effect : Type :=
| RemoteGet (doc : string)
    (* db.collection("config").doc(doc).get() issued *)
| RemoteSet (doc : string) (d : JSValue)
    (* db.collection("config").doc(doc).set(d) issued *)
| RemoteUpdate (doc : string) (d : JSValue)
    (* db.collection("config").doc(doc).update(d) issued *)
| Called (i : nat) (event : string) (payload : JSValue)
    (* the i-th registered callback invoked *)
| Stored (type : string) (v : JSValue).
    (* this.configs.set(type, v) executed *)

Abbreviation M := (Prog ConfigManager Effect).

(** Field updates of [this]. *)
Definition with_configs (c : gmap string JSValue) (cm : ConfigManager)
  : ConfigManager :=
  mkCM c (cache cm) (isInitialized cm) (callbacks cm) (cacheTimeout cm)
       (sessionId cm).

Definition with_cache (c : gmap string CacheEntry) (cm : ConfigManager)
  : ConfigManager :=
  mkCM (configs cm) c (isInitialized cm) (callbacks cm) (cacheTimeout cm)
       (sessionId cm).

Definition with_isInitialized (b : bool) (cm : ConfigManager) : ConfigManager :=
  mkCM (configs cm) (cache cm) b (callbacks cm) (cacheTimeout cm)
       (sessionId cm).

Definition with_callbacks (l : list Callback) (cm : ConfigManager)
  : ConfigManager :=
  mkCM (configs cm) (cache cm) (isInitialized cm) l (cacheTimeout cm)
       (sessionId cm).

(** [this.configs.set(type, v)] *)
Definition configs_set (type : string) (v : JSValue) : M unit :=
  fun cm =>
    (Ok tt, with_configs (<[type := v]> (configs cm)) cm, [Stored type v]).

(** [this.cache.set(key, e)] *)
Definition cache_set (key : string) (e : CacheEntry) : M unit :=
  fun cm => (Ok tt, with_cache (<[key := e]> (cache cm)) cm, []).

(** [this.cache.delete(key)] *)
Definition cache_delete (key : string) : M unit :=
  fun cm => (Ok tt, with_cache (delete key (cache cm)) cm, []).

(** [this.isInitialized = b] *)
Definition set_isInitialized (b : bool) : M unit :=
  fun cm => (Ok tt, with_isInitialized b cm, []).

(** [new ConfigManager()]; the arguments are what [generateSessionId] reads. *)
Definition newConfigManager (rnd : string) (now : Z) : ConfigManager :=
  mkCM ∅ ∅ false [] (5 * 60 * 1000) (generateSessionId rnd now).

(** [getConfig(type)]: [this.configs.get(type) || {}] *)
Definition getConfig (cm : ConfigManager) (type : string) : JSValue :=
  js_or (default VUndefined (configs cm !! type)) (VObj []).

(** [arr.find(item => item.key === key)] *)
Fixpoint find_by_key (key : string) (items : list JSValue) : Res JSValue :=
  match items with
  | [] => Ok VUndefined
  | item :: rest =>
      bindR (getProp item "key") (fun k =>
        if strict_eq_str k key then Ok item else find_by_key key rest)
  end.

(** [getConfigItem(type, key)] *)
Definition getConfigItem (cm : ConfigManager) (type key : string) : Res JSValue :=
  let config := getConfig cm type in
  bindR (getProp config "items") (fun items =>
    if truthy items then
      match items with
      | VArr l => find_by_key key l
      | _ => Throw (TypeError "config.items.find is not a function")
      end
    else Ok VNull).

(** [arr.filter(item => item.isActive)] *)
Fixpoint filter_active (items : list JSValue) : Res (list JSValue) :=
  match items with
  | [] => Ok []
  | item :: rest =>
      bindR (getProp item "isActive") (fun a =>
        bindR (filter_active rest) (fun r =>
          Ok (if truthy a then item :: r else r)))
  end.

(** [getActiveItems(type)] *)
Definition getActiveItems (cm : ConfigManager) (type : string) : Res JSValue :=
  let config := getConfig cm type in
  bindR (getProp config "items") (fun items =>
    if truthy items then
      match items with
      | VArr l => bindR (filter_active l) (fun r => Ok (VArr r))
      | _ => Throw (TypeError "config.items.filter is not a function")
      end
    else Ok (VArr [])).

(** [clearCache()] *)
Definition clearCache : M unit :=
  fun cm => (Ok tt, with_cache ∅ cm, []).

(** [onConfigUpdate(callback)] *)
Definition onConfigUpdate (callback : Callback) : M unit :=
  fun cm => (Ok tt, with_callbacks (callbacks cm ++ [callback]) cm, []).

(** [notifyCallbacks(event, data)]: every callback is called inside its own
    [try]/[catch]. *)
Definition notifyCallbacks (event : string) (payload : JSValue) : M unit :=
  let* cm := this in
  forEachM (fun i (callback : Callback) =>
              tryM (emit (Called i event payload) >> await (callback event payload))
                   (fun _ => ret tt))
           0 (callbacks cm).

(** ** [loadConfigType], segment by segment *)

(** A document snapshot: [None] when [snapshot.exists] is false, else
    [snapshot.data()]. *)
Definition Snapshot : Type := option JSObj.

(** Lines 146-155: cache the data, publish it, notify, return it. *)
Definition loadConfigType_store (type : string) (d : JSValue) (now : Z)
  : M JSValue :=
  let* cm := this in
  cache_set (cacheKey type (sessionId cm)) (mkEntry d now) >>
  configs_set type d >>
  notifyCallbacks "configLoaded" (VObj [("type", VStr type); ("data", d)]) >>
  ret d.

(** Lines 156-163: the [catch] block. *)
Definition loadConfigType_catch (type : string) (en : Entropy) (_ : JSError)
  : M JSValue :=
  let fallback := getDefaultConfig type en in
  configs_set type fallback >>
  ret fallback.

(** Up to the first [await]: returns [Some data] on a cache hit, and
    issues the remote read otherwise.  [now] is [Date.now()]. *)
Definition loadConfigType_begin (type : string) (now : Z)
  : M (option JSValue) :=
  let* cm := this in
  match cache cm !! cacheKey type (sessionId cm) with
  | Some cached =>
      if (now - timestamp cached <? cacheTimeout cm)%Z
      then configs_set type (data cached) >> ret (Some (data cached))
      else emit (RemoteGet type) >> ret None
  | None => emit (RemoteGet type) >> ret None
  end.

(** From the answer [resp] of the remote read to the next [await] or the
    end: [inl v] is the value returned, [inr d] means that
    [createDefaultConfig(type, d)] was started and is awaited. *)
Definition loadConfigType_onSnapshot (type : string) (resp : Res Snapshot)
    (en : Entropy) (now : Z) : M (JSValue + JSValue) :=
  tryM
    (let* snapshot := await resp in
     match snapshot with
     | Some d =>
         let* v := loadConfigType_store type (VObj d) now in ret (inl v)
     | None =>
         let d := getDefaultConfig type en in
         emit (RemoteSet type d) >> ret (inr d)
     end)
    (fun error =>
       let* v := loadConfigType_catch type en error in ret (inl v)).

(** [createDefaultConfig] after its [await]: a rejection is caught there. *)
Definition createDefaultConfig_resume (resp : Res unit) : M unit :=
  tryM (await resp) (fun _ => ret tt).

(** From the end of [createDefaultConfig] to the end. *)
Definition loadConfigType_onCreated (type : string) (d : JSValue)
    (resp : Res unit) (en : Entropy) (now : Z) : M JSValue :=
  tryM
    (createDefaultConfig_resume resp >>
     loadConfigType_store type d now)
    (loadConfigType_catch type en).

(** What the outside answers during one call of [loadConfigType]. *)
Record LoadEnv : Type := mkLoadEnv {
  now_check : Z;            (* Date.now() at the cache check *)
  fetch : Res Snapshot;     (* outcome of the remote read *)
  entropy : Entropy;        (* randomness read by getDefaultConfig *)
  create : Res unit;        (* outcome of the remote write of the default *)
  now_store : Z             (* Date.now() when the data is cached *)
}.

(** [loadConfigType(type)] run from call to return with nothing in
    between its segments. *)
Definition loadConfigType (type : string) (env : LoadEnv) : M JSValue :=
  let* hit := loadConfigType_begin type (now_check env) in
  match hit with
  | Some v => ret v
  | None =>
      let* r := loadConfigType_onSnapshot type (fetch env) (entropy env)
                  (now_store env) in
      match r with
      | inl v => ret v
      | inr d =>
          loadConfigType_onCreated type d (create env)
            (fun i => entropy env (13 + i)) (now_store env)
      end
  end.

(** ** [updateConfig] *)

Definition updateConfig_begin (type : string) (d : JSValue) : M unit :=
  emit (RemoteUpdate type d).

(** After the [await] of the remote update. *)
Definition updateConfig_resume (type : string) (d : JSValue) (resp : Res unit)
  : M bool :=
  tryM
    (await resp >>
     let* cm := this in
     configs_set type (VObj (spread2 (getConfig cm type) d)) >>
     cache_delete (cacheKey type (sessionId cm)) >>
     notifyCallbacks "configUpdated" (VObj [("type", VStr type); ("data", d)]) >>
     ret true)
    (fun _ => ret false).

(** [updateConfig(type, data)] run from call to return. *)
Definition updateConfig (type : string) (d : JSValue) (resp : Res unit)
  : M bool :=
  updateConfig_begin type d >> updateConfig_resume type d resp.

(** ** [loadCriticalConfigs], [loadFallbackConfigs] *)

Definition critical_defaults : JSObj :=
  [ ("defaultPlaceholder", VStr "Search packs, cities...");
    ("loadingMessage", VStr "Loading your area...");
    ("errorMessage", VStr "Unable to load your area");
    ("defaultRegion", VStr "northeast") ].

(** [Object.assign(target, source)] *)
Definition object_assign (target source : JSObj) : JSObj :=
  fold_left (fun acc kv => obj_set kv.1 kv.2 acc) source target.

Definition loadCriticalConfigs_begin : M unit :=
  emit (RemoteGet "ui-critical").

Definition loadCriticalConfigs_resume (resp : Res Snapshot) : M JSValue :=
  let* critical :=
    tryM
      (let* snapshot := await resp in
       match snapshot with
       | Some d => ret (object_assign critical_defaults d)
       | None => ret critical_defaults
       end)
      (fun _ => ret critical_defaults) in
  configs_set "critical" (VObj critical) >>
  ret (VObj critical).

(** [Object.keys(v)] *)
Definition object_keys (v : JSValue) : list string := map fst (ownEntries v).

(** [loadFallbackConfigs()]; [ens 0] feeds [getDefaultConfig('')] and
    [ens (S i)] the call for the [i]-th key. *)
Definition loadFallbackConfigs (ens : nat -> Entropy) : M unit :=
  forEachM (fun i type => configs_set type (getDefaultConfig type (ens (S i))))
           0 (object_keys (getDefaultConfig "" (ens 0))) >>
  set_isInitialized true >>
  notifyCallbacks "fallbackLoaded" VNull.

(** ** [loadAllConfigs] and [initialize]: promises in flight *)

Definition configTypes : list string :=
  ["cities"; "product-types"; "vendor-categories"; "metro-areas";
   "ui-strings"; "region-settings"].

(** The promise returned by one [loadConfigType(type)] call: where the
    call is suspended, or how it settled. *)
Inductive Task : Type :=
| AwaitSnapshot (type : string)
| AwaitCreated (type : string) (d : JSValue)
| Settled (r : Res JSValue).

(** Calling the [async] method: its first segment runs at once, and a
    throw would reject the promise instead of reaching the caller. *)
Definition loadConfigType_call (type : string) (now : Z) : M Task :=
  fun cm =>
    match loadConfigType_begin type now cm with
    | (Ok (Some v), cm', t) => (Ok (Settled (Ok v)), cm', t)
    | (Ok None, cm', t) => (Ok (AwaitSnapshot type), cm', t)
    | (Throw e, cm', t) => (Ok (Settled (Throw e)), cm', t)
    end.

(** The event loop resumes a suspended call with the answers in [env]. *)
Definition task_resume (task : Task) (env : LoadEnv) : M Task :=
  fun cm =>
    match task with
    | AwaitSnapshot type =>
        match loadConfigType_onSnapshot type (fetch env) (entropy env)
                (now_store env) cm with
        | (Ok (inl v), cm', t) => (Ok (Settled (Ok v)), cm', t)
        | (Ok (inr d), cm', t) => (Ok (AwaitCreated type d), cm', t)
        | (Throw e, cm', t) => (Ok (Settled (Throw e)), cm', t)
        end
    | AwaitCreated type d =>
        match loadConfigType_onCreated type d (create env) (entropy env)
                (now_store env) cm with
        | (Ok v, cm', t) => (Ok (Settled (Ok v)), cm', t)
        | (Throw e, cm', t) => (Ok (Settled (Throw e)), cm', t)
        end
    | Settled r => (Ok (Settled r), cm, [])
    end.

(** [configTypes.map(type => this.loadConfigType(type))]; [clock i] is
    what [Date.now()] reads in the [i]-th call. *)
Fixpoint loadAll_calls (clock : nat -> Z) (i : nat) (types : list string)
  : M (list Task) :=
  match types with
  | [] => ret []
  | type :: rest =>
      let* p := loadConfigType_call type (clock i) in
      let* ps := loadAll_calls clock (S i) rest in
      ret (p :: ps)
  end.

Definition loadAllConfigs_begin (clock : nat -> Z) : M (list Task) :=
  loadAll_calls clock 0 configTypes.

(** One turn of the event loop: promise number [ev.1] is resumed. *)
Definition pool_step (pool : list Task) (ev : nat * LoadEnv) : M (list Task) :=
  match pool !! ev.1 with
  | Some task => let* task' := task_resume task ev.2 in
                 ret (<[ev.1 := task']> pool)
  | None => ret pool
  end.

Fixpoint pool_run (pool : list Task) (sched : list (nat * LoadEnv))
  : M (list Task) :=
  match sched with
  | [] => ret pool
  | ev :: sched' => let* pool' := pool_step pool ev in pool_run pool' sched'
  end.

(** The outcome of a settled promise, as [Promise.allSettled] reports it. *)
Inductive SettledResult : Type :=
| Fulfilled (value : JSValue)
| Rejected (reason : JSError).

(** [Promise.allSettled(promises)]: [None] while some promise is pending;
    otherwise it fulfils, whatever the promises did. *)
Fixpoint allSettled (pool : list Task) : option (list SettledResult) :=
  match pool with
  | [] => Some []
  | Settled (Ok v) :: pool' => cons (Fulfilled v) <$> allSettled pool'
  | Settled (Throw e) :: pool' => cons (Rejected e) <$> allSettled pool'
  | _ :: pool' => None
  end.

(** [loadAllConfigs()] under the schedule [sched] of remote answers:
    [Some (Ok tt)] when its promise has fulfilled, [None] while it is
    still pending. *)
Definition loadAllConfigs (clock : nat -> Z) (sched : list (nat * LoadEnv))
  : M (option unit) :=
  let* promises := loadAllConfigs_begin clock in
  let* pool := pool_run promises sched in
  match allSettled pool with
  | Some _ => ret (Some tt)
  | None => ret None
  end.

Definition initialize_begin : M unit := loadCriticalConfigs_begin.

(** [initialize()] after [await this.loadCriticalConfigs()]; the loads of
    [loadAllConfigs()] are started and left in flight. *)
Definition initialize_resume (resp : Res Snapshot) (clock : nat -> Z)
    (ens : nat -> Entropy) : M (bool * list Task) :=
  tryM
    (loadCriticalConfigs_resume resp >>
     let* pool := loadAllConfigs_begin clock in
     set_isInitialized true >>
     notifyCallbacks "initialized" VNull >>
     ret (true, pool))
    (fun _ => loadFallbackConfigs ens >> ret (false, [])).

(** ** Histories of a manager *)

(** The atomic turns in which the state of a manager can change. *)
Inductive Op : Type :=
| OpLoadBegin (type : string) (now : Z)
| OpLoadOnSnapshot (type : string) (resp : Res Snapshot) (en : Entropy) (now : Z)
| OpLoadOnCreated (type : string) (en0 : Entropy) (resp : Res unit)
    (en : Entropy) (now : Z)
| OpUpdateBegin (type : string) (d : JSValue)
| OpUpdateResume (type : string) (d : JSValue) (resp : Res unit)
| OpCriticalBegin
| OpCriticalResume (resp : Res Snapshot)
| OpLoadAllBegin (clock : nat -> Z)
| OpInitializeResume (resp : Res Snapshot) (clock : nat -> Z)
    (ens : nat -> Entropy)
| OpFallback (ens : nat -> Entropy)
| OpClearCache
| OpOnConfigUpdate (callback : Callback).

Definition run_op (op : Op) : ConfigManager -> ConfigManager * list Effect :=
  match op with
  | OpLoadBegin type now => forget (loadConfigType_begin type now)
  | OpLoadOnSnapshot type resp en now =>
      forget (loadConfigType_onSnapshot type resp en now)
  | OpLoadOnCreated type en0 resp en now =>
      forget (loadConfigType_onCreated type (getDefaultConfig type en0) resp
                en now)
  | OpUpdateBegin type d => forget (updateConfig_begin type d)
  | OpUpdateResume type d resp => forget (updateConfig_resume type d resp)
  | OpCriticalBegin => forget loadCriticalConfigs_begin
  | OpCriticalResume resp => forget (loadCriticalConfigs_resume resp)
  | OpLoadAllBegin clock => forget (loadAllConfigs_begin clock)
  | OpInitializeResume resp clock ens =>
      forget (initialize_resume resp clock ens)
  | OpFallback ens => forget (loadFallbackConfigs ens)
  | OpClearCache => forget clearCache
  | OpOnConfigUpdate callback => forget (onConfigUpdate callback)
  end.

Fixpoint run_ops (ops : list Op) (cm : ConfigManager)
  : ConfigManager * list Effect :=
  match ops with
  | [] => (cm, [])
  | op :: ops' =>
      match run_op op cm with
      | (cm1, t1) =>
          match run_ops ops' cm1 with (cm2, t2) => (cm2, t1 ++ t2) end
      end
  end.

(** The value of the last [this.configs.set(type, _)] in a trace. *)
Fixpoint last_stored (type : string) (t : list Effect) : option JSValue :=
  match t with
  | [] => None
  | e :: t' =>
      match last_stored type t' with
      | Some v => Some v
      | None =>
          match e with
          | Stored type' v => if String.eqb type' type then Some v else None
          | _ => None
          end
      end
  end.

(** The remote reads issued in a trace, in order. *)
Definition remote_gets (t : list Effect) : list string :=
  omap (fun e => match e with RemoteGet doc => Some doc | _ => None end) t.

(** ** The location manager *)

Record City : Type := mkCity {
  name : string;
  state : string;
  key : string;
  lat : Q;
  lng : Q
}.

(** A registered listener [(city) => ...]; it may throw. *)
Definition Listener : Type := City -> Res unit.

(** The manager together with the browser storage it persists to;
    [currentCity] is [None] for [null] or [undefined]. *)
Record LocationManager : Type := mkLM {
  currentCity : option City;
  cities : list City;
  listeners : list Listener;
  localStorage : gmap string string
}.

Inductive LocEffect : Type :=
| Notified (i : nat) (city : City).
    (* the i-th registered listener invoked with city *)

Abbreviation L := (Prog LocationManager LocEffect).

Definition cityList : list City :=
  [ mkCity "Boston" "MA" "boston" 42.3601 (-71.0589);
    mkCity "Springfield" "MA" "springfield" 42.1015 (-72.5898);
    mkCity "Worcester" "MA" "worcester" 42.2626 (-71.8023);
    mkCity "South Coast" "MA" "south-coast" 41.6362 (-70.9342);
    mkCity "North Shore" "MA" "north-shore" 42.6648 (-71.1581);
    mkCity "Providence" "RI" "providence" 41.8240 (-71.4128);
    mkCity "Newport" "RI" "newport" 41.4901 (-71.3128);
    mkCity "Woonsocket" "RI" "woonsocket" 42.0029 (-71.5153);
    mkCity "Hartford" "CT" "hartford" 41.7658 (-72.6734);
    mkCity "New Haven" "CT" "new-haven" 41.3083 (-72.9279);
    mkCity "Bridgeport" "CT" "bridgeport" 41.1865 (-73.2052);
    mkCity "Stamford" "CT" "stamford" 41.0534 (-73.5387) ].

Definition selectedCityKey : string := "packslist-selected-city".

(** [getCityByKey(key)]: [this.cities.find(city => city.key === key)] *)
Definition getCityByKey (lm : LocationManager) (k : string) : option City :=
  List.find (fun city => String.eqb (key city) k) (cities lm).

Definition set_currentCity (c : option City) : L unit :=
  fun lm =>
    (Ok tt, mkLM c (cities lm) (listeners lm) (localStorage lm), []).

(** [localStorage.setItem(k, v)]; [write] is what the browser does with
    the request: it stores the pair, or it refuses (quota exceeded,
    storage disabled) and [setItem] throws, the storage left as it was. *)
Definition localStorage_setItem (k v : string) (write : Res unit) : L unit :=
  fun lm =>
    match write with
    | Ok _ =>
        (Ok tt,
         mkLM (currentCity lm) (cities lm) (listeners lm)
              (<[k := v]> (localStorage lm)),
         [])
    | Throw e => (Throw e, lm, [])
    end.

(** [notifyListeners(city)]: every listener is called inside its own
    [try]/[catch]. *)
Definition notifyListeners (city : City) : L unit :=
  let* lm := this in
  forEachM (fun i (callback : Listener) =>
              tryM (emit (Notified i city) >> await (callback city))
                   (fun _ => ret tt))
           0 (listeners lm).

(** [setCurrentCity(cityKey)]; [write] is the browser's answer to the
    [localStorage.setItem] of line 75, should the call get there. *)
Definition setCurrentCity (cityKey : string) (write : Res unit) : L bool :=
  let* lm := this in
  match getCityByKey lm cityKey with
  | None => ret false
  | Some city =>
      set_currentCity (Some city) >>
      localStorage_setItem selectedCityKey cityKey write >>
      notifyListeners city >>
      ret true
  end.

(** [init()] *)
Definition init : L unit :=
  let* lm := this in
  (match localStorage lm !! selectedCityKey with
   | Some savedCity =>
       if negb (String.eqb savedCity "") then
         match getCityByKey lm savedCity with
         | Some cityData => set_currentCity (Some cityData)
         | None => ret tt
         end
       else ret tt
   | None => ret tt
   end) >>
  let* lm := this in
  match currentCity lm with
  | None => set_currentCity (getCityByKey lm "boston")
  | Some _ => ret tt
  end.

(** [new LocationManager()] in a browser whose storage is [storage]. *)
Definition newLocationManager (storage : gmap string string) : LocationManager :=
  (forget init (mkLM None cityList [] storage)).1.

(** [onCityChange(callback)] *)
Definition onCityChange (callback : Listener) : L unit :=
  fun lm =>
    (Ok tt,
     mkLM (currentCity lm) (cities lm) (listeners lm ++ [callback])
          (localStorage lm),
     []).

(** [getCurrentCity()] *)
Definition getCurrentCity (lm : LocationManager) : option City := currentCity lm.

(** [getCurrentCityDisplay()] *)
Definition getCurrentCityDisplay (lm : LocationManager) : string :=
  match currentCity lm with
  | None => "Select City"
  | Some c => name c +:+ ", " +:+ state c
  end.

(** ** Predicates used to state the properties *)

Fixpoint has_char (c : ascii) (s : string) : bool :=
  match s with
  | EmptyString => false
  | String c' s' => Ascii.eqb c' c || has_char c s'
  end.

(** A character [Math.random().toString(36)] can hold: a digit, a lower
    case letter, or the point. *)
Definition is_random_char (c : ascii) : bool :=
  let n := nat_of_ascii c in
  (Nat.leb 48 n && Nat.leb n 57) || (Nat.leb 97 n && Nat.leb n 122)
  || Nat.eqb n 46.

Fixpoint random_text (s : string) : bool :=
  match s with
  | EmptyString => true
  | String c s' => is_random_char c && random_text s'
  end.

(** The value of a base-36 numeral, to check [toString36] against. *)
Definition digit_value (c : ascii) : Z :=
  let k := Z.of_nat (nat_of_ascii c) in
  if (k <? 58)%Z then (k - 48)%Z else (k - 87)%Z.

Fixpoint value36 (s : string) : Z :=
  match s with
  | EmptyString => 0
  | String c s' =>
      (digit_value c * 36 ^ Z.of_nat (String.length s') + value36 s')%Z
  end.

(** What follows ['sess_'] in a generated session identifier. *)
Definition session_body (rnd : string) (now : Z) : string :=
  substr rnd 2 12 +:+ toString36 now.

(** Whether [loadConfigType(type)] at time [now] finds a usable entry:
    [cached && now - cached.timestamp < this.cacheTimeout]. *)
Definition cache_fresh (cm : ConfigManager) (type : string) (now : Z) : bool :=
  match cache cm !! cacheKey type (sessionId cm) with
  | Some cached => (now - timestamp cached <? cacheTimeout cm)%Z
  | None => false
  end.

(** The states a manager constructed by [new ConfigManager()] can be in. *)
Definition reachable (cm : ConfigManager) : Prop :=
  exists rnd now ops, cm = (run_ops ops (newConfigManager rnd now)).1.

(** The callback invocations of one [notifyCallbacks(event, payload)]. *)
Definition calls (event : string) (payload : JSValue) (cm : ConfigManager)
  : list Effect :=
  map (fun i => Called i event payload) (seq 0 (length (callbacks cm))).

(** The listener invocations of one [notifyListeners(city)]. *)
Definition notifications (city : City) (lm : LocationManager) : list LocEffect :=
  map (fun i => Notified i city) (seq 0 (length (listeners lm))).

(** Own keys are pairwise distinct, as in every JavaScript object. *)
Definition obj_wf (o : JSObj) : Prop := NoDup (map fst o).

(** The representation invariant of a manager: every cache key is the
    key of some type under this manager's session, and no stored value
    is falsy. *)
Record cm_inv (cm : ConfigManager) : Prop := mkInv {
  inv_keys : forall k e, cache cm !! k = Some e ->
               exists type, k = cacheKey type (sessionId cm);
  inv_cache_truthy : forall k e, cache cm !! k = Some e ->
               truthy (data e) = true;
  inv_configs_truthy : forall type v, configs cm !! type = Some v ->
               truthy v = true
}.

(** One segment took [cm] to [cm'] with trace [t]: the invariant holds
    again, session and timeout are untouched, and [configs] holds per type
    the last value the trace stored, else what it held before. *)
Definition ok_step (cm cm' : ConfigManager) (t : list Effect) : Prop :=
  cm_inv cm' /\ sessionId cm' = sessionId cm /\
  cacheTimeout cm' = cacheTimeout cm /\
  forall type, configs cm' !! type
               = match last_stored type t with
                 | Some v => Some v
                 | None => configs cm !! type
                 end.

(** [m] is safe from every state that satisfies the invariant and [P]. *)
Definition safe {A} (P : ConfigManager -> Prop) (m : M A) : Prop :=
  forall cm, cm_inv cm -> P cm -> ok_step cm (m cm).1.2 (m cm).2.

Definition no_store (e : Effect) : bool :=
  match e with Stored _ _ => false | _ => true end.

(** The state after lines 146-152 cached and published [v] at time [now]. *)
Definition stored_state (type : string) (v : JSValue) (now : Z)
    (cm : ConfigManager) : ConfigManager :=
  with_configs (<[type := v]> (configs cm))
    (with_cache (<[cacheKey type (sessionId cm) := mkEntry v now]> (cache cm))
       cm).

(** The payload [{ type, data }] of a notification. *)
Definition payload (type : string) (d : JSValue) : JSValue :=
  VObj [("type", VStr type); ("data", d)].

(** The cache entries filed under [type] for this manager's session. *)
Definition entries_for (cm : ConfigManager) (type : string)
  : list (string * CacheEntry) :=
  List.filter (fun ke => String.eqb ke.1 (cacheKey type (sessionId cm)))
              (map_to_list (cache cm)).

(** How many answers a promise still waits for. *)
Definition rank (t : Task) : nat :=
  match t with
  | AwaitSnapshot _ => 2
  | AwaitCreated _ _ => 1
  | Settled _ => 0
  end.

Definition not_rejected (t : Task) : Prop :=
  match t with
  | Settled (Throw _) => False
  | _ => True
  end.

(** The state in which a call of [loadConfigType(type)] leaves its
    promise: suspended on the remote read, or fulfilled from the cache. *)
Definition called_for (type : string) (t : Task) : Prop :=
  t = AwaitSnapshot type \/ exists v, t = Settled (Ok v).

(** How many turns of the schedule resume promise number [i]. *)
Definition answers (i : nat) (sched : list (nat * LoadEnv)) : nat :=
  length (List.filter (fun ev => Nat.eqb ev.1 i) sched).

Definition is_fulfilled (r : SettledResult) : Prop :=
  match r with
  | Fulfilled _ => True
  | Rejected _ => False
  end.

(** A promise that has not settled. *)
Definition pending (t : Task) : bool :=
  match t with
  | Settled _ => false
  | _ => true
  end.

(** The entry [Promise.allSettled] reports for a settled promise: its
    value when it fulfilled, its reason when it rejected. *)
Definition settled_as (t : Task) (r : SettledResult) : Prop :=
  match t, r with
  | Settled (Ok v), Fulfilled v' => v = v'
  | Settled (Throw e), Rejected e' => e = e'
  | _, _ => False
  end.

(** ** Sample inputs *)

Definition sample_manager : ConfigManager :=
  newConfigManager "0.4fzyo82mvyr" 1762041600000.

Definition sample_doc : JSObj :=
  [("items", VArr [VObj [("key", VStr "boston"); ("isActive", VBool true)]])].

Definition sample_entropy : Entropy :=
  fun i => ("0.k3j9x0aqz1", (1762041600000 + Z.of_nat i)%Z).

(** The remote store answers [r]; the clock reads [now] at the cache check
    and 120 ms more when the data is stored. *)
Definition sample_env (now : Z) (r : Res Snapshot) : LoadEnv :=
  mkLoadEnv now r sample_entropy (Ok tt) (now + 120).

Definition sample_listener_ok : Listener := fun _ => Ok tt.

Definition sample_listener_bad : Listener :=
  fun _ => Throw (TypeError "listener failed").

(** A freshly constructed location manager with two listeners, one of
    which throws. *)
Definition sample_location : LocationManager :=
  (forget (onCityChange sample_listener_bad >>
           onCityChange sample_listener_ok)
          (newLocationManager ∅)).1.

(** The six documents answer in a scrambled order: some exist, some are
    missing, one read fails. *)
Definition sample_schedule : list (nat * LoadEnv) :=
  [ (4, sample_env 10 (Throw (RemoteError "unavailable")));
    (0, sample_env 20 (Ok None));
    (5, sample_env 30 (Ok (Some sample_doc)));
    (2, sample_env 40 (Ok None));
    (0, sample_env 50 (Ok None));
    (1, sample_env 60 (Ok (Some sample_doc)));
    (3, sample_env 70 (Ok None));
    (2, sample_env 80 (Ok None));
    (3, sample_env 90 (Ok None));
    (1, sample_env 100 (Ok None));
    (5, sample_env 110 (Ok None));
    (4, sample_env 120 (Ok None)) ].

(** ** The rest of the configuration manager *)

(** [a === b] and [a !== b] against a boolean. *)
Definition strict_eq_bool (a : JSValue) (b : bool) : bool :=
  match a with
  | VBool b' => Bool.eqb b' b
  | _ => false
  end.

(** [try { return body } catch (error) { return h(error) }] around an
    expression. *)
Definition catch_return {A} (body : Res A) (h : JSError -> A) : A :=
  match body with
  | Ok a => a
  | Throw e => h e
  end.

(** [shouldShowVendorInfo(context)] *)
Definition shouldShowVendorInfo (cm : ConfigManager) (context : string) : bool :=
  catch_return
    (let vendorDisplayConfig := getConfig cm "vendor-display" in
     if negb (truthy vendorDisplayConfig)
        || Nat.eqb (length (object_keys vendorDisplayConfig)) 0
     then Ok true
     else if String.eqb context "name" then
       bindR (getProp vendorDisplayConfig "showVendorNames") (fun v =>
         Ok (negb (strict_eq_bool v false)))
     else if String.eqb context "icon" then
       bindR (getProp vendorDisplayConfig "showVendorIcons") (fun v =>
         Ok (negb (strict_eq_bool v false)))
     else if String.eqb context "avatar" then
       bindR (getProp vendorDisplayConfig "showVendorAvatars") (fun v =>
         Ok (negb (strict_eq_bool v false)))
     else if String.eqb context "modal" then
       bindR (getProp vendorDisplayConfig "hideVendorInModal") (fun v =>
         Ok (negb (strict_eq_bool v true)))
     else
       bindR (getProp vendorDisplayConfig "showVendorNames") (fun v =>
         Ok (negb (strict_eq_bool v false))))
    (fun _ => true).

(** The flag a context reads, and the value of it that hides the vendor. *)
Definition vendor_flag (context : string) : string * bool :=
  if String.eqb context "icon" then ("showVendorIcons", false)
  else if String.eqb context "avatar" then ("showVendorAvatars", false)
  else if String.eqb context "modal" then ("hideVendorInModal", true)
  else ("showVendorNames", false).

(** [initialize()] run from call to return: the remote read of the
    critical configuration is answered by [resp]; the six loads it
    starts are returned still in flight. *)
Definition initialize (resp : Res Snapshot) (clock : nat -> Z)
    (ens : nat -> Entropy) : M (bool * list Task) :=
  initialize_begin >> initialize_resume resp clock ens.

(** [loadCriticalConfigs()] run from call to return. *)
Definition loadCriticalConfigs (resp : Res Snapshot) : M JSValue :=
  loadCriticalConfigs_begin >> loadCriticalConfigs_resume resp.

(** Whether [item.isActive] is truthy (for an item that is not [null] or
    [undefined]). *)
Definition is_active (item : JSValue) : bool :=
  match getProp item "isActive" with
  | Ok v => truthy v
  | Throw _ => false
  end.

Definition is_nullish (v : JSValue) : bool :=
  match v with
  | VUndefined | VNull => true
  | _ => false
  end.

(** ** The rest of the location manager *)

(** [getCities()]: a copy of the list. *)
Definition getCities (lm : LocationManager) : list City := cities lm.

(** [getCurrentCoordinates()]: [{ lat, lng }] of the current city, or
    [None] for [null]. *)
Definition getCurrentCoordinates (lm : LocationManager) : option (Q * Q) :=
  match currentCity lm with
  | None => None
  | Some c => Some (lat c, lng c)
  end.

(** The object [grouped] of [getCitiesGroupedByState]: its own
    properties, in insertion order (the order of JavaScript for names
    that are not array indices). *)
Abbreviation Groups := (list (string * list City)).

Fixpoint group_get (st : string) (grouped : Groups) : option (list City) :=
  match grouped with
  | [] => None
  | (st', l) :: g => if String.eqb st' st then Some l else group_get st g
  end.

Fixpoint group_set (st : string) (l : list City) (grouped : Groups) : Groups :=
  match grouped with
  | [] => [(st, l)]
  | (st', l') :: g =>
      if String.eqb st' st then (st, l) :: g else (st', l') :: group_set st l g
  end.

(** The body of the [forEach]: [if (!grouped[city.state])
    grouped[city.state] = []; grouped[city.state].push(city)].  A state
    named like a member of [Object.prototype] finds that member, which
    has no [push]. *)
Definition group_push (grouped : Groups) (city : City) : Res Groups :=
  match group_get (state city) grouped with
  | Some l => Ok (group_set (state city) (l ++ [city]) grouped)
  | None =>
      match objectPrototype (state city) with
      | Some _ => Throw (TypeError "grouped[city.state].push is not a function")
      | None => Ok (group_set (state city) [city] grouped)
      end
  end.

Fixpoint group_cities (cs : list City) (grouped : Groups) : Res Groups :=
  match cs with
  | [] => Ok grouped
  | city :: cs' => bindR (group_push grouped city) (group_cities cs')
  end.

(** [getCitiesGroupedByState()] *)
Definition getCitiesGroupedByState (lm : LocationManager) : Res Groups :=
  group_cities (cities lm) [].

(** The cities of a list that lie in a state. *)
Definition cities_of_state (st : string) (cs : list City) : list City :=
  List.filter (fun c => String.eqb (state c) st) cs.

(** Histories of a location manager: calls of [setCurrentCity] and
    [onCityChange]. *)
Inductive LocOp : Type :=
| LocSetCity (cityKey : string) (write : Res unit)
| LocOnCityChange (callback : Listener).

Definition run_loc_op (op : LocOp) (lm : LocationManager) : LocationManager :=
  match op with
  | LocSetCity cityKey write => (forget (setCurrentCity cityKey write) lm).1
  | LocOnCityChange callback => (forget (onCityChange callback) lm).1
  end.

Definition run_loc_ops (ops : list LocOp) (lm : LocationManager)
  : LocationManager :=
  fold_left (fun s op => run_loc_op op s) ops lm.

(** The city the constructor selects for a given browser storage. *)
Definition boston : City := mkCity "Boston" "MA" "boston" 42.3601 (-71.0589).

Record loc_inv (lm : LocationManager) : Prop := mkLocInv {
  loc_cities : cities lm = cityList;
  loc_current : exists c, currentCity lm = Some c /\ c ∈ cityList
}.

(** The browser storage agrees with the selection: a saved key that some
    city carries is the key of the current city. *)
Definition loc_persisted (lm : LocationManager) : Prop :=
  forall k c,
    localStorage lm !! selectedCityKey = Some k ->
    getCityByKey lm k = Some c -> currentCity lm = Some c.

(** The browser accepted the write of this call, if it made one. *)
Definition write_accepted (op : LocOp) : Prop :=
  match op with
  | LocSetCity _ (Throw _) => False
  | _ => True
  end.

(** ** The authentication manager (class [AuthManager]) *)

(** From [src/unnamed/part_001].  The answers of the Firestore requests
    are inputs of the methods that issue them, as for the configuration
    manager; a method is run to its end, with no other event between its
    [await]s.  Changes made to the document (modals, messages, buttons,
    the user indicator) are recorded as effects, in program order.  Of
    the Firebase user only [uid], [email], [displayName] and [photoURL]
    are represented. *)

Module Auth.

(** The Firebase user: [email], [displayName] and [photoURL] are strings
    or [null]. *)
Record User : Type := mkUser {
  uid : string;
  email : option string;
  displayName : option string;
  photoURL : option string
}.

Definition opt_value (o : option string) : JSValue :=
  match o with
  | Some s => VStr s
  | None => VNull
  end.

(** What a method does to the outside, in program order. *)
Inductive AuthEffect : Type :=
| UsersGet (doc : string)
    (* this.db.collection('users').doc(doc).get() issued *)
| UsersSet (doc : string) (d : JSObj)
    (* this.db.collection('users').doc(doc).set(d) issued *)
| UsersUpdate (doc : string) (d : JSObj)
    (* this.db.collection('users').doc(doc).update(d) issued *)
| ShowModal (modalId : string)
    (* this.showModal(modalId) called *)
| ShowMessage (message type : string)
    (* this.showAuthMessage(message, type) called *)
| AuthNotified (i : nat) (event : string) (data : JSValue)
    (* authListeners[i](event, data) called *)
| ButtonsShown (signedIn admin : bool)
    (* the '.auth-required', '.guest-only' and '.admin-only' elements shown
       or hidden for [this.user] and [this.isAdmin] *)
| IndicatorSet (shown : option (JSValue * bool)).
    (* the text of '#user-indicator' set: 'Guest' for [None], else the
       display name followed by the admin badge when the flag is set *)

(** [auth] and [db] tell whether [this.auth] and [this.db] are set;
    [userProfile] is [None] for [null]. *)
Record AuthManager : Type := mkAM {
  user : option User;
  userProfile : option JSObj;
  isAdmin : bool;
  authListeners : list Callback;
  onboardingData : JSObj;
  isInitialized : bool;
  auth : bool;
  db : bool
}.

Abbreviation A := (Prog AuthManager AuthEffect).

Definition set_isAdmin (b : bool) : A unit :=
  fun am =>
    (Ok tt,
     mkAM (user am) (userProfile am) b (authListeners am) (onboardingData am)
          (isInitialized am) (auth am) (db am),
     []).

Definition set_userProfile (p : option JSObj) : A unit :=
  fun am =>
    (Ok tt,
     mkAM (user am) p (isAdmin am) (authListeners am) (onboardingData am)
          (isInitialized am) (auth am) (db am),
     []).

(** The state in which the constructor leaves the manager before
    [initializeWhenReady()] runs. *)
Definition newAuthManager : AuthManager :=
  mkAM None None false [] [] false false false.

(** *** [initializeWhenReady] *)

(** What one run of [checkFirebase] finds: Firebase not loaded yet, one
    of the three calls in the [try] block throwing, or all succeeding. *)
Inductive Probe : Type :=
| NotReady
| AuthThrows          (* firebase.auth() throws *)
| FirestoreThrows     (* firebase.firestore() throws *)
| ListenThrows        (* this.auth.onAuthStateChanged(...) throws *)
| Ready.

Definition maxAttempts : nat := 50.

Definition with_handles (a d i : bool) (am : AuthManager) : AuthManager :=
  mkAM (user am) (userProfile am) (isAdmin am) (authListeners am)
       (onboardingData am) (i || isInitialized am) (a || auth am)
       (d || db am).

(** [checkFirebase], rescheduled through [setTimeout(checkFirebase, 100)];
    [probe k] is what the [k]-th run finds.  Returns the manager and the
    number of runs made. *)
Fixpoint checkFirebase (fuel attempts : nat) (probe : nat -> Probe)
    (am : AuthManager) : AuthManager * nat :=
  match fuel with
  | O => (am, attempts)
  | S fuel' =>
      let attempts := S attempts in
      match probe attempts with
      | Ready => (with_handles true true true am, attempts)
      | NotReady =>
          if Nat.ltb attempts maxAttempts
          then checkFirebase fuel' attempts probe am
          else (am, attempts)
      | AuthThrows =>
          if Nat.ltb attempts maxAttempts
          then checkFirebase fuel' attempts probe am
          else (am, attempts)
      | FirestoreThrows =>
          let am' := with_handles true false false am in
          if Nat.ltb attempts maxAttempts
          then checkFirebase fuel' attempts probe am'
          else (am', attempts)
      | ListenThrows =>
          let am' := with_handles true true false am in
          if Nat.ltb attempts maxAttempts
          then checkFirebase fuel' attempts probe am'
          else (am', attempts)
      end
  end.

(** [initializeWhenReady()] *)
Definition initializeWhenReady (probe : nat -> Probe) (am : AuthManager)
  : AuthManager * nat :=
  checkFirebase maxAttempts 0 probe am.

(** *** Permissions *)

(** [s.includes(sub)] on strings. *)
Definition str_includes (s sub : string) : bool :=
  match String.index 0 sub s with
  | Some _ => true
  | None => false
  end.

(** [v.includes(x)] for a string or [null] [x]: membership in an array,
    containment in a string, and a [TypeError] for the other values a
    document can hold. *)
Definition includes (v : JSValue) (x : option string) : Res bool :=
  match v with
  | VArr l =>
      Ok (existsb (fun e => match x with
                            | Some s => strict_eq_str e s
                            | None => match e with VNull => true | _ => false end
                            end) l)
  | VStr s => Ok (str_includes s (default "null" x))
  | _ => Throw (TypeError "includes is not a function")
  end.

(** [canPerformAction(action)] *)
Definition canPerformAction (am : AuthManager) (action : string) : Res bool :=
  match userProfile am with
  | None => Ok false
  | Some profile =>
      let permissions := js_or (obj_get profile "permissions") (VArr []) in
      bindR (includes permissions (Some action)) (fun listed =>
        Ok (listed || isAdmin am))
  end.

Definition showSignInModal : A unit := emit (ShowModal "sign-in-modal").

Definition showAuthError (message : string) : A unit :=
  emit (ShowMessage message "error").

(** [requireAuth(action)]; [None] is the default [null]. *)
Definition requireAuth (action : option string) : A bool :=
  let* am := this in
  match user am with
  | None => showSignInModal >> ret false
  | Some _ =>
      match action with
      | Some a =>
          if negb (String.eqb a "") then
            let* allowed := await (canPerformAction am a) in
            if negb allowed then
              showAuthError "You do not have permission to perform this action."
              >> ret false
            else ret true
          else ret true
      | None => ret true
      end
  end.

(** [requireAdmin()] *)
Definition requireAdmin : A bool :=
  let* am := this in
  match user am with
  | None => showSignInModal >> ret false
  | Some _ =>
      match userProfile am with
      | None => ret false
      | Some _ =>
          if isAdmin am then ret true
          else showAuthError "Admin access required." >> ret false
      end
  end.

(** *** Roles *)

Definition defaultAdminEmails : JSValue :=
  VArr [VStr "admin@packslist.com"; VStr "sxpxru@gmail.com"].

(** [checkAdminStatus()]; [configManager] is [window.configManager], when
    there is one. *)
Definition checkAdminStatus (configManager : option ConfigManager) : A bool :=
  let* am := this in
  match user am, userProfile am with
  | Some u, Some profile =>
      let adminConfig :=
        match configManager with
        | Some cm => getConfig cm "auth-settings"
        | None => VUndefined
        end in
      let* configured :=
        await (if is_nullish adminConfig then Ok VUndefined
               else getProp adminConfig "adminEmails") in
      let adminEmails := js_or configured defaultAdminEmails in
      let* listed := await (includes adminEmails (email u)) in
      let b := listed
               || strict_eq_str (obj_get profile "role") "admin"
               || strict_eq_str (obj_get profile "role") "super_admin" in
      set_isAdmin b >> ret b
  | _, _ => set_isAdmin false >> ret false
  end.

Definition opt_eqb (o : option string) (s : string) : bool :=
  match o with
  | Some s' => String.eqb s' s
  | None => false
  end.

Definition isSuperAdmin (u : User) : bool := opt_eqb (email u) "sxpxru@gmail.com".

Definition isAdminEmail (u : User) : bool :=
  opt_eqb (email u) "sxpxru@gmail.com" || opt_eqb (email u) "admin@packslist.com".

(** [isSuperAdmin ? 'super_admin' : (isAdminEmail ? 'admin' : 'user')] *)
Definition role_for (u : User) : string :=
  if isSuperAdmin u then "super_admin"
  else if isAdminEmail u then "admin" else "user".

Definition permissions_for (u : User) : list string :=
  if isSuperAdmin u then
    ["browse"; "post"; "moderate"; "manage_users"; "view_analytics";
     "manage_settings"; "manage_admins"; "delete_data"]
  else if isAdminEmail u then
    ["browse"; "post"; "moderate"; "manage_users"; "view_analytics"]
  else ["browse"; "post"].

(** [firebase.firestore.FieldValue.serverTimestamp()] *)
Definition serverTimestamp : JSValue := VNative "FieldValue.serverTimestamp".

(** The object literal [profile] of [createUserProfile]. *)
Definition initial_profile (u : User) : JSObj :=
  [ ("uid", VStr (uid u));
    ("email", opt_value (email u));
    ("displayName", js_or (opt_value (displayName u)) (VStr ""));
    ("photoURL", js_or (opt_value (photoURL u)) (VStr ""));
    ("role", VStr (role_for u));
    ("permissions", strs (permissions_for u));
    ("createdAt", serverTimestamp);
    ("lastLogin", serverTimestamp);
    ("preferences", VObj [("locationSharing", VBool false);
                          ("emailNotifications", VBool true);
                          ("pushNotifications", VBool false)]);
    ("onboardingCompleted", VBool false);
    ("accountStatus", VStr "active") ].

(** [this.db.collection('users').doc(uid)] followed by a request: a
    [TypeError] when [this.db] is not set. *)
Definition users_request (e : AuthEffect) : A unit :=
  let* am := this in
  if db am then emit e
  else await (Throw (TypeError "Cannot read properties of undefined (reading 'collection')")).

(** [createUserProfile()]; [resp] is the outcome of the remote write. *)
Definition createUserProfile (resp : Res unit) : A (option JSObj) :=
  let* am := this in
  match user am with
  | None => ret None
  | Some u =>
      let profile := initial_profile u in
      tryM
        (users_request (UsersSet (uid u) profile) >>
         await resp >>
         ret (Some profile))
        (fun _ => ret None)
  end.

(** [s.split('@')[0]] *)
Fixpoint before_at (s : string) : string :=
  match s with
  | EmptyString => EmptyString
  | String c s' =>
      if Ascii.eqb c "@" then EmptyString else String c (before_at s')
  end.

(** The object [updateData] of [loadUserProfile], built property by
    property for a profile that lacks [createdAt] or [lastLogin]. *)
Definition missing_fields (u : User) (profile : JSObj) : JSObj :=
  let d0 := [("lastLogin", serverTimestamp)] in
  let d1 := if negb (truthy (obj_get profile "createdAt"))
            then obj_set "createdAt" serverTimestamp d0 else d0 in
  let d2 := if negb (truthy (obj_get profile "email"))
               && truthy (opt_value (email u))
            then obj_set "email" (opt_value (email u)) d1 else d1 in
  let d3 := if negb (truthy (obj_get profile "displayName"))
               && truthy (js_or (opt_value (displayName u))
                                (opt_value (email u)))
            then obj_set "displayName"
                   (js_or (opt_value (displayName u))
                          (VStr (before_at (default "" (email u))))) d2
            else d2 in
  if negb (truthy (obj_get profile "role"))
  then obj_set "role" (VStr (role_for u)) d3 else d3.

(** [this.user.uid] after an [await]: a [TypeError] if the user is gone. *)
Definition current_uid : A string :=
  let* am := this in
  match user am with
  | Some u => ret (uid u)
  | None => await (Throw (TypeError "Cannot read properties of null (reading 'uid')"))
  end.

Definition current_user : A User :=
  let* am := this in
  match user am with
  | Some u => ret u
  | None => await (Throw (TypeError "Cannot read properties of null (reading 'email')"))
  end.

(** [loadUserProfile()]; [resp_get] answers the read of the profile
    document and [resp_write] the write that follows it (the update of an
    existing profile, or the creation of a missing one). *)
Definition loadUserProfile (resp_get : Res Snapshot) (resp_write : Res unit)
  : A (option JSObj) :=
  let* am := this in
  match user am with
  | None => ret None
  | Some u0 =>
      tryM
        (users_request (UsersGet (uid u0)) >>
         let* profileDoc := await resp_get in
         match profileDoc with
         | Some d =>
             set_userProfile (Some d) >>
             let needsUpdate := negb (truthy (obj_get d "createdAt"))
                                || negb (truthy (obj_get d "lastLogin")) in
             (if needsUpdate then
                let* u := current_user in
                let updateData := missing_fields u d in
                let* id := current_uid in
                users_request (UsersUpdate id updateData) >>
                await resp_write >>
                let* am1 := this in
                set_userProfile
                  (Some (spread2 (match userProfile am1 with
                                  | Some p => VObj p
                                  | None => VNull
                                  end) (VObj updateData)))
              else
                let* id := current_uid in
                users_request (UsersUpdate id [("lastLogin", serverTimestamp)]) >>
                await resp_write) >>
             let* am2 := this in ret (userProfile am2)
         | None =>
             let* created := createUserProfile resp_write in
             set_userProfile created >>
             let* am2 := this in ret (userProfile am2)
         end)
        (fun _ => ret None)
  end.

(** *** Authentication state changes *)

Definition set_user (u : option User) : A unit :=
  fun am =>
    (Ok tt,
     mkAM u (userProfile am) (isAdmin am) (authListeners am) (onboardingData am)
          (isInitialized am) (auth am) (db am),
     []).

(** [notifyAuthListeners(event, data)]: every listener is called inside
    its own [try]/[catch]. *)
Definition notifyAuthListeners (event : string) (data : JSValue) : A unit :=
  let* am := this in
  forEachM (fun i (callback : Callback) =>
              tryM (emit (AuthNotified i event data) >> await (callback event data))
                   (fun _ => ret tt))
           0 (authListeners am).

(** The properties of [this.user] that this class reads. *)
Definition user_value (u : User) : JSValue :=
  VObj [ ("uid", VStr (uid u)); ("email", opt_value (email u));
         ("displayName", opt_value (displayName u));
         ("photoURL", opt_value (photoURL u)) ].

(** [updateHeaderUserInfo()]; [indicator] tells whether the document has
    an element with id 'user-indicator'. *)
Definition updateHeaderUserInfo (indicator : bool) : A unit :=
  if indicator then
    let* am := this in
    match user am with
    | Some u =>
        let stored := match userProfile am with
                      | Some p => obj_get p "displayName"
                      | None => VUndefined
                      end in
        let* displayName :=
          if truthy stored then ret stored
          else match email u with
               | Some e => ret (VStr (before_at e))
               | None =>
                   await (Throw (TypeError
                     "Cannot read properties of null (reading 'split')"))
               end in
        emit (IndicatorSet (Some (displayName, isAdmin am)))
    | None => emit (IndicatorSet None)
    end
  else ret tt.

(** [updateUIForAuthState()] *)
Definition updateUIForAuthState (indicator : bool) : A unit :=
  let* am := this in
  emit (ButtonsShown (bool_decide (is_Some (user am))) (isAdmin am)) >>
  updateHeaderUserInfo indicator.

(** [handleAuthStateChange(user)], run to its end; [resp_get] and
    [resp_write] answer the requests of [loadUserProfile()]. *)
Definition handleAuthStateChange (u : option User)
    (resp_get : Res Snapshot) (resp_write : Res unit)
    (configManager : option ConfigManager) (indicator : bool) : A unit :=
  set_user u >>
  (match u with
   | Some _ =>
       loadUserProfile resp_get resp_write >>
       checkAdminStatus configManager >>
       let* am := this in
       notifyAuthListeners "authenticated"
         (VObj [ ("user", match user am with
                          | Some x => user_value x
                          | None => VNull
                          end);
                 ("profile", match userProfile am with
                             | Some p => VObj p
                             | None => VNull
                             end) ])
   | None =>
       set_userProfile None >>
       set_isAdmin false >>
       notifyAuthListeners "unauthenticated" VNull
   end) >>
  updateUIForAuthState indicator.

(** *** Error messages *)

Definition errorMessages : JSObj :=
  [ ("auth/email-already-in-use",
     VStr "An account with this email already exists.");
    ("auth/weak-password", VStr "Password should be at least 6 characters.");
    ("auth/invalid-email", VStr "Please enter a valid email address.");
    ("auth/user-not-found", VStr "No account found with this email.");
    ("auth/wrong-password", VStr "Incorrect password.");
    ("auth/too-many-requests",
     VStr "Too many failed attempts. Please try again later.");
    ("auth/user-disabled", VStr "This account has been disabled.");
    ("auth/operation-not-allowed", VStr "This operation is not allowed.");
    ("auth/network-request-failed",
     VStr "Network error. Please check your connection.");
    ("auth/invalid-credential", VStr "Invalid email or password.");
    ("auth/missing-email", VStr "Please enter an email address.");
    ("auth/missing-password", VStr "Please enter a password.");
    ("auth/invalid-login-credentials", VStr "Invalid email or password.") ].

(** [getErrorMessage(error)] for an [error] whose [code] is the string
    [code] ([None] when it has none) and whose [message] renders as
    [message] in the template. *)
Definition getErrorMessage (code : option string) (message : string) : JSValue :=
  let friendlyMessage := obj_get errorMessages (default "undefined" code) in
  if negb (truthy friendlyMessage)
  then VStr ("Authentication error: " +:+ message)
  else friendlyMessage.

End Auth.

(** ** The header manager: waiting for the location manager *)

(** [waitForLocationManager], rescheduled through
    [setTimeout(waitForLocationManager, 100)]; [ready k] tells whether
    [window.locationManager] is set at the run made with [attempts = k].
    Returns the value of [attempts] at which
    [window.headerManager.initialize()] is called. *)
Fixpoint waitForLocationManager (fuel attempts : nat) (ready : nat -> bool)
  : option nat :=
  match fuel with
  | O => None
  | S fuel' =>
      if ready attempts || Nat.leb 50 attempts then Some attempts
      else waitForLocationManager fuel' (S attempts) ready
  end.

(** ** Predicates for the authentication manager *)

Definition is_ready (p : Auth.Probe) : bool :=
  match p with
  | Auth.Ready => true
  | _ => false
  end.

(** The [permissions] of a profile, as [canPerformAction] reads them, are
    an array or a string (or absent). *)
Definition permissions_ok (profile : JSObj) : Prop :=
  match js_or (obj_get profile "permissions") (VArr []) with
  | VArr _ | VStr _ => True
  | _ => False
  end.

(** Whether an array lists [x], by [===]. *)
Definition lists (l : list JSValue) (x : option string) : bool :=
  existsb (fun e => match x with
                    | Some s => strict_eq_str e s
                    | None => match e with VNull => true | _ => false end
                    end) l.

Definition has_admin_role (profile : JSObj) : bool :=
  strict_eq_str (obj_get profile "role") "admin"
  || strict_eq_str (obj_get profile "role") "super_admin".

Definition sample_user : Auth.User :=
  Auth.mkUser "u1" (Some "admin@packslist.com") None None.

Definition sample_auth : Auth.AuthManager :=
  Auth.mkAM (Some sample_user) (Some (Auth.initial_profile sample_user))
            true [] [] true true true.

(** [adminConfig?.adminEmails] for the truthy value [getConfig] returns. *)
Definition obj_or_undefined (adminConfig : JSValue) : JSValue :=
  match adminConfig with
  | VObj o => obj_get o "adminEmails"
  | _ => VUndefined
  end.

(** A profile document written before [createdAt] was recorded. *)
Definition legacy_profile : JSObj :=
  [ ("uid", VStr "u1"); ("email", VStr "admin@packslist.com");
    ("role", VStr "user") ].

(** [isAdmin] agrees with the user and the profile in memory, by the
    built-in list of admin addresses. *)
Definition admin_consistent (am : Auth.AuthManager) : Prop :=
  Auth.isAdmin am
  = match Auth.user am, Auth.userProfile am with
    | Some u, Some p => Auth.isAdminEmail u || has_admin_role p
    | _, _ => false
    end.

(** The listener invocations of one [notifyAuthListeners(event, data)]. *)
Definition auth_notifications (event : string) (data : JSValue)
    (am : Auth.AuthManager) : list Auth.AuthEffect :=
  map (fun i => Auth.AuthNotified i event data)
      (seq 0 (length (Auth.authListeners am))).

Definition no_auth_settings (configManager : option ConfigManager) : Prop :=
  match configManager with
  | Some cm => configs cm !! "auth-settings" = None
  | None => True
  end.

Definition visitor : Auth.User :=
  Auth.mkUser "u2" (Some "visitor@example.com") None None.

(** * Properties *)

(** ** The model on concrete inputs *)

Example toString36_now : toString36 1762041600000 = "mhgy2o00".
Proof. vm_compute. reflexivity. Qed.

Example generateSessionId_ex :
  generateSessionId "0.4fzyo82mvyr" 1762041600000 = "sess_4fzyo82mvyrmhgy2o00".
Proof. vm_compute. reflexivity. Qed.

Example newLocationManager_default :
  getCurrentCityDisplay (newLocationManager ∅) = "Boston, MA".
Proof. vm_compute. reflexivity. Qed.

Example newLocationManager_saved :
  getCurrentCityDisplay
    (newLocationManager {[ selectedCityKey := "new-haven" ]})
  = "New Haven, CT".
Proof. vm_compute. reflexivity. Qed.

Example getDefaultConfig_unknown_type :
  getDefaultConfig "vendor-display" sample_entropy = VObj [].
Proof. reflexivity. Qed.

Example getDefaultConfig_region_settings :
  obj_get (ownEntries (getDefaultConfig "region-settings" sample_entropy))
          "maxSearchRadius"
  = VNum 50.
Proof. reflexivity. Qed.

Example getConfigItem_matched_key :
  getConfigItem
    (loadConfigType "cities"
       (sample_env 1762041600500 (Throw (RemoteError "unavailable")))
       sample_manager).1.2
    "cities" "boston"
  = Ok (VObj [("id", VStr "city_k3j9x0aq2o00"); ("key", VStr "boston");
              ("name", VStr "Boston"); ("state", VStr "MA");
              ("coordinates", latlng 42.3601 (-71.0589));
              ("isActive", VBool true); ("priority", VNum 1);
              ("metroArea", VStr "greater-boston")]).
Proof. vm_compute. reflexivity. Qed.

(** ** Strings and identifiers *)

Create Rewrite HintDb str.

Lemma append_nil_l (b : string) : "" +:+ b = b.
Proof. reflexivity. Qed.

Lemma append_cons (x : ascii) (a b : string) :
  String x a +:+ b = String x (a +:+ b).
Proof. reflexivity. Qed.

#[local] Hint Rewrite append_nil_l append_cons : str.

Lemma append_assoc_s (a b c : string) : (a +:+ b) +:+ c = a +:+ (b +:+ c).
Proof.
  induction a as [|x a IH]; autorewrite with str;
    [reflexivity | now rewrite IH].
Qed.

Lemma length_append_s (a b : string) :
  String.length (a +:+ b) = String.length a + String.length b.
Proof.
  induction a as [|x a IH]; autorewrite with str; simpl;
    [reflexivity | now rewrite IH].
Qed.

Lemma append_cancel_r (a1 a2 b : string) : a1 +:+ b = a2 +:+ b -> a1 = a2.
Proof.
  revert a2. induction a1 as [|x a1 IH]; intros [|y a2] H;
    autorewrite with str in H.
  - reflexivity.
  - apply (f_equal String.length) in H. simpl in H.
    rewrite length_append_s in H. lia.
  - apply (f_equal String.length) in H. simpl in H.
    rewrite length_append_s in H. lia.
  - injection H as -> H. now rewrite (IH _ H).
Qed.

Lemma has_char_append c (a b : string) :
  has_char c (a +:+ b) = has_char c a || has_char c b.
Proof.
  induction a as [|x a IH]; autorewrite with str; simpl; [reflexivity|].
  rewrite IH. now rewrite orb_assoc.
Qed.

Lemma has_char_substring c (s : string) :
  has_char c s = false -> forall n m, has_char c (String.substring n m s) = false.
Proof.
  induction s as [|x s IH]; intros H n m.
  - destruct n, m; reflexivity.
  - simpl in H. apply orb_false_iff in H as [Hx Hs].
    destruct n as [|n]; destruct m as [|m]; simpl; auto.
    rewrite Hx. simpl. now apply IH.
Qed.

(** The text after the last separator determines the split. *)
Lemma split_last_sep c (a1 a2 b1 b2 : string) :
  has_char c b1 = false -> has_char c b2 = false ->
  a1 +:+ String c b1 = a2 +:+ String c b2 -> a1 = a2 /\ b1 = b2.
Proof.
  intros H1 H2. revert a2.
  induction a1 as [|x a1 IH]; intros [|y a2] H; autorewrite with str in H.
  - injection H as ->. auto.
  - injection H as -> ->. rewrite has_char_append in H1. simpl in H1.
    rewrite Ascii.eqb_refl in H1. simpl in H1.
    rewrite orb_true_r in H1. discriminate.
  - injection H as -> <-. rewrite has_char_append in H2. simpl in H2.
    rewrite Ascii.eqb_refl in H2. simpl in H2.
    rewrite orb_true_r in H2. discriminate.
  - injection H as -> H. destruct (IH _ H) as [-> ->]. auto.
Qed.

Lemma random_text_no_underscore (s : string) :
  random_text s = true -> has_char "_" s = false.
Proof.
  induction s as [|x s IH]; simpl; [reflexivity|].
  intros [Hx Hs]%andb_true_iff. rewrite (IH Hs), orb_false_r.
  destruct (Ascii.eqb_spec x "_") as [->|]; [|reflexivity].
  vm_compute in Hx. discriminate.
Qed.

Lemma digit36_not_underscore (d : Z) :
  (0 <= d < 36)%Z -> Ascii.eqb (digit36 d) "_" = false.
Proof.
  intros Hd. destruct (Ascii.eqb_spec (digit36 d) "_") as [E|]; [|reflexivity].
  exfalso. apply (f_equal nat_of_ascii) in E. unfold digit36 in E.
  rewrite nat_ascii_embedding in E.
  - change (nat_of_ascii "_") with 95 in E.
    destruct (d <? 10)%Z eqn:Hlt;
      [apply Z.ltb_lt in Hlt | apply Z.ltb_ge in Hlt]; lia.
  - destruct (d <? 10)%Z; lia.
Qed.

Lemma toString36_digits_no_underscore fuel (n : Z) (acc : string) :
  has_char "_" acc = false ->
  has_char "_" (toString36_digits fuel n acc) = false.
Proof.
  revert n acc. induction fuel as [|fuel IH]; intros n acc Hacc; simpl.
  - exact Hacc.
  - assert (Hd : has_char "_" (String (digit36 (n mod 36)) acc) = false).
    { simpl. rewrite digit36_not_underscore, Hacc; [reflexivity|].
      apply Z.mod_pos_bound. lia. }
    destruct (n / 36 =? 0)%Z; [exact Hd | now apply IH].
Qed.

Lemma toString36_no_underscore (n : Z) : has_char "_" (toString36 n) = false.
Proof.
  unfold toString36. destruct (n <? 0)%Z.
  - change (has_char "_" (String "-" ?s)) with (has_char "_" s).
    now apply toString36_digits_no_underscore.
  - now apply toString36_digits_no_underscore.
Qed.

(** [toString36] never runs out of fuel: the numeral it prints has the
    value of its argument. *)
Lemma digit_value_digit36 (d : Z) :
  (0 <= d < 36)%Z -> digit_value (digit36 d) = d.
Proof.
  intros Hd. unfold digit_value, digit36.
  rewrite nat_ascii_embedding by (destruct (d <? 10)%Z; lia).
  rewrite Z2Nat.id by (destruct (d <? 10)%Z; lia).
  destruct (d <? 10)%Z eqn:E;
    [apply Z.ltb_lt in E | apply Z.ltb_ge in E].
  - destruct (48 + d <? 58)%Z eqn:E2;
      [apply Z.ltb_lt in E2 | apply Z.ltb_ge in E2]; lia.
  - destruct (87 + d <? 58)%Z eqn:E2;
      [apply Z.ltb_lt in E2 | apply Z.ltb_ge in E2]; lia.
Qed.

Lemma toString36_digits_S fuel (n : Z) (acc : string) :
  toString36_digits (S fuel) n acc
  = if (n / 36 =? 0)%Z then String (digit36 (n mod 36)) acc
    else toString36_digits fuel (n / 36)%Z (String (digit36 (n mod 36)) acc).
Proof. reflexivity. Qed.

Lemma value36_digits fuel (n : Z) (acc : string) :
  (0 <= n < 2 ^ Z.of_nat (S fuel))%Z ->
  value36 (toString36_digits (S fuel) n acc)
  = (n * 36 ^ Z.of_nat (String.length acc) + value36 acc)%Z.
Proof.
  revert n acc. induction fuel as [|fuel IH]; intros n acc Hn.
  - assert (n / 36 = 0)%Z as Hq.
    { apply Z.div_small. change (2 ^ Z.of_nat 1)%Z with 2%Z in Hn. lia. }
    rewrite toString36_digits_S, Hq. cbn [Z.eqb value36].
    rewrite digit_value_digit36 by (apply Z.mod_pos_bound; lia).
    rewrite Z.mod_small; [reflexivity|].
    change (2 ^ Z.of_nat 1)%Z with 2%Z in Hn. lia.
  - rewrite toString36_digits_S.
    pose proof (Z.div_mod n 36 ltac:(lia)) as Hdm.
    pose proof (Z.mod_pos_bound n 36 ltac:(lia)) as Hm.
    destruct (n / 36 =? 0)%Z eqn:Hq.
    + apply Z.eqb_eq in Hq. cbn [value36].
      rewrite digit_value_digit36 by exact Hm.
      replace (n mod 36)%Z with n by lia. reflexivity.
    + apply Z.eqb_neq in Hq.
      rewrite IH.
      * cbn [value36 String.length].
        rewrite digit_value_digit36 by exact Hm.
        rewrite Nat2Z.inj_succ, Z.pow_succ_r by lia.
        set (p := (36 ^ Z.of_nat (String.length acc))%Z).
        set (v := value36 acc).
        rewrite Hdm at 3. ring.
      * split; [apply Z.div_pos; lia|].
        apply Z.div_lt_upper_bound; [lia|].
        rewrite (Nat2Z.inj_succ (S fuel)), Z.pow_succ_r in Hn by lia.
        lia.
Qed.

Lemma value36_toString36 (n : Z) : (0 <= n)%Z -> value36 (toString36 n) = n.
Proof.
  intros Hn. unfold toString36.
  destruct (n <? 0)%Z eqn:E; [apply Z.ltb_lt in E; lia|].
  rewrite value36_digits.
  - cbn [String.length value36 Z.of_nat]. lia.
  - split; [exact Hn|].
    rewrite Nat2Z.inj_succ, Z2Nat.id by apply Z.log2_nonneg.
    destruct (Z.eq_dec n 0%Z) as [->|Hne]; [reflexivity|].
    apply Z.log2_spec. lia.
Qed.

Lemma generateSessionId_shape rnd now :
  generateSessionId rnd now = "sess_" +:+ session_body rnd now.
Proof. reflexivity. Qed.

Lemma session_body_no_underscore rnd now :
  random_text rnd = true -> has_char "_" (session_body rnd now) = false.
Proof.
  intros H. unfold session_body, substr. rewrite has_char_append.
  rewrite has_char_substring by now apply random_text_no_underscore.
  now rewrite toString36_no_underscore.
Qed.

Lemma cacheKey_split (type body : string) :
  cacheKey type ("sess_" +:+ body)
  = ("config_" +:+ type +:+ "_sess") +:+ String "_" body.
Proof.
  unfold cacheKey. rewrite !append_assoc_s. reflexivity.
Qed.

(** For a fixed session the key determines the type. *)
Lemma cacheKey_inj_type (sid t1 t2 : string) :
  cacheKey t1 sid = cacheKey t2 sid -> t1 = t2.
Proof.
  unfold cacheKey. autorewrite with str. intros H. injection H as H.
  now apply append_cancel_r in H.
Qed.

(** Keys of generated sessions determine the session. *)
Lemma cacheKey_inj_session rnd1 now1 rnd2 now2 t1 t2 :
  random_text rnd1 = true -> random_text rnd2 = true ->
  cacheKey t1 (generateSessionId rnd1 now1)
  = cacheKey t2 (generateSessionId rnd2 now2) ->
  generateSessionId rnd1 now1 = generateSessionId rnd2 now2.
Proof.
  intros H1 H2 H. rewrite !generateSessionId_shape in *.
  rewrite !cacheKey_split in H.
  apply split_last_sep in H as [_ ->];
    auto using session_body_no_underscore.
Qed.

(** ** The monad: notification loops *)

Lemma forEach_try_run {S E A} (mk : nat -> E) (f : A -> Res unit)
    (l : list A) (i : nat) (s : S) :
  forEachM (fun j x => tryM (emit (mk j) >> await (f x)) (fun _ => ret tt))
           i l s
  = (Ok tt, s, map mk (seq i (length l))).
Proof.
  revert i. induction l as [|x l IH]; intros i; [reflexivity|].
  cbn [forEachM length seq map]. unfold bindM at 1.
  unfold tryM at 1, bindM at 1, emit, await, ret.
  destruct (f x) as [[]|e]; cbn; rewrite IH; reflexivity.
Qed.

Lemma notifyCallbacks_run event payload cm :
  notifyCallbacks event payload cm = (Ok tt, cm, calls event payload cm).
Proof.
  unfold notifyCallbacks, bindM at 1, this.
  rewrite (forEach_try_run (fun i => Called i event payload)
             (fun cb : Callback => cb event payload)).
  reflexivity.
Qed.

Lemma notifyListeners_run city lm :
  notifyListeners city lm = (Ok tt, lm, notifications city lm).
Proof.
  unfold notifyListeners, bindM at 1, this.
  rewrite (forEach_try_run (fun i => Notified i city)
             (fun cb : Listener => cb city)).
  reflexivity.
Qed.

(** ** Traces *)

Lemma last_stored_app type (t1 t2 : list Effect) :
  last_stored type (t1 ++ t2)
  = match last_stored type t2 with
    | Some v => Some v
    | None => last_stored type t1
    end.
Proof.
  induction t1 as [|e t1 IH]; simpl.
  - now destruct (last_stored type t2).
  - rewrite IH. destruct (last_stored type t2); [reflexivity|].
    reflexivity.
Qed.

Lemma last_stored_no_store type (t : list Effect) :
  forallb no_store t = true -> last_stored type t = None.
Proof.
  induction t as [|e t IH]; simpl; [reflexivity|].
  intros [He Ht]%andb_true_iff. rewrite (IH Ht).
  destruct e; simpl in *; congruence.
Qed.

Lemma calls_no_store event payload cm :
  forallb no_store (calls event payload cm) = true.
Proof.
  unfold calls. induction (seq 0 (length (callbacks cm))); simpl; auto.
Qed.

Lemma remote_gets_app (t1 t2 : list Effect) :
  remote_gets (t1 ++ t2) = remote_gets t1 ++ remote_gets t2.
Proof. unfold remote_gets. apply omap_app. Qed.

Lemma remote_gets_calls event payload cm :
  remote_gets (calls event payload cm) = [].
Proof.
  unfold calls, remote_gets.
  induction (seq 0 (length (callbacks cm))); simpl; auto.
Qed.

(** ** Truthiness of what gets stored *)

Lemma truthy_js_or_obj (v : JSValue) (o : JSObj) : truthy (js_or v (VObj o)) = true.
Proof. unfold js_or. destruct (truthy v) eqn:E; [exact E | reflexivity]. Qed.

Lemma getDefaultConfig_truthy type en : truthy (getDefaultConfig type en) = true.
Proof. apply truthy_js_or_obj. Qed.

Lemma js_or_truthy (v w : JSValue) : truthy v = true -> js_or v w = v.
Proof. unfold js_or. now intros ->. Qed.

(** ** Safety of the segments *)

Lemma ok_step_refl cm t :
  cm_inv cm -> forallb no_store t = true -> ok_step cm cm t.
Proof.
  intros Hinv Ht. repeat split; try apply Hinv.
  intros type. now rewrite last_stored_no_store.
Qed.

Lemma ok_step_trans cm cm1 cm2 t1 t2 :
  ok_step cm cm1 t1 -> ok_step cm1 cm2 t2 -> ok_step cm cm2 (t1 ++ t2).
Proof.
  intros (I1 & S1 & T1 & C1) (I2 & S2 & T2 & C2).
  repeat split; try apply I2; try congruence.
  intros type. rewrite last_stored_app, C2.
  destruct (last_stored type t2); [reflexivity | apply C1].
Qed.

Lemma safe_weaken {A} (P P' : ConfigManager -> Prop) (m : M A) :
  (forall cm, P cm -> P' cm) -> safe P' m -> safe P m.
Proof. intros HP Hm cm Hinv Hcm. apply Hm; auto. Qed.

Lemma safe_ret {A} P (a : A) : safe P (ret a).
Proof. intros cm Hinv _. now apply ok_step_refl. Qed.

Lemma safe_await {A} P (r : Res A) : safe P (await r).
Proof. intros cm Hinv _. now apply ok_step_refl. Qed.

Lemma safe_emit P e : no_store e = true -> safe P (emit e).
Proof. intros He cm Hinv _. apply ok_step_refl; simpl; auto. now rewrite He. Qed.

Lemma safe_bind {A B} P (m : M A) (k : A -> M B) :
  safe P m -> (forall a, safe (fun _ => True) (k a)) -> safe P (bindM m k).
Proof.
  intros Hm Hk cm Hinv Hcm. specialize (Hm cm Hinv Hcm).
  unfold bindM. destruct (m cm) as [[[a|e] cm1] t1]; simpl in *; [|exact Hm].
  specialize (Hk a cm1 (proj1 Hm) I).
  destruct (k a cm1) as [[r cm2] t2]; simpl in *.
  eapply ok_step_trans; eauto.
Qed.

(** Steps that leave the state alone keep the precondition. *)
Lemma safe_this_bind {A} P (k : ConfigManager -> M A) :
  (forall a, cm_inv a -> P a -> safe (eq a) (k a)) -> safe P (bindM this k).
Proof.
  intros Hk cm Hinv Hcm. specialize (Hk cm Hinv Hcm cm Hinv eq_refl).
  unfold bindM, this. destruct (k cm cm) as [[r cm2] t2]; simpl in *.
  exact Hk.
Qed.

Lemma safe_await_bind {A B} P (r : Res A) (k : A -> M B) :
  (forall a, r = Ok a -> safe P (k a)) -> safe P (bindM (await r) k).
Proof.
  intros Hk cm Hinv Hcm. unfold bindM, await.
  destruct r as [a|e]; simpl; [|now apply ok_step_refl].
  specialize (Hk a eq_refl cm Hinv Hcm).
  destruct (k a cm) as [[r cm2] t2]; simpl in *. exact Hk.
Qed.

Lemma safe_emit_bind {A} P e (k : M A) :
  no_store e = true -> safe P k -> safe P (emit e >> k).
Proof.
  intros He Hk cm Hinv Hcm. unfold bindM, emit. specialize (Hk cm Hinv Hcm).
  destruct (k cm) as [[r cm2] t2]; simpl in *.
  apply (ok_step_trans cm cm cm2 [e] t2); [|exact Hk].
  apply ok_step_refl; simpl; auto. now rewrite He.
Qed.

Lemma safe_try {A} P (body : M A) (handler : JSError -> M A) :
  safe P body -> (forall e, safe (fun _ => True) (handler e)) ->
  safe P (tryM body handler).
Proof.
  intros Hb Hh cm Hinv Hcm. specialize (Hb cm Hinv Hcm).
  unfold tryM. destruct (body cm) as [[[a|e] cm1] t1]; simpl in *; [exact Hb|].
  specialize (Hh e cm1 (proj1 Hb) I).
  destruct (handler e cm1) as [[r cm2] t2]; simpl in *.
  eapply ok_step_trans; eauto.
Qed.

Lemma safe_forEach {A} P (f : nat -> A -> M unit) (l : list A) (i : nat) :
  (forall j x, safe (fun _ => True) (f j x)) -> safe P (forEachM f i l).
Proof.
  intros Hf. apply (safe_weaken _ (fun _ => True)); [auto|].
  revert i. induction l as [|x l IH]; intros i; simpl.
  - apply safe_ret.
  - apply safe_bind; [apply Hf | intros _; apply IH].
Qed.

Lemma safe_configs_set P type v : truthy v = true -> safe P (configs_set type v).
Proof.
  intros Hv cm Hinv _. unfold configs_set; simpl.
  repeat split; simpl; try apply Hinv.
  - intros t w. destruct (decide (type = t)) as [->|Hne].
    + rewrite lookup_insert_eq. now intros [= <-].
    + rewrite lookup_insert_ne by done. apply Hinv.
  - intros t. destruct (String.eqb_spec type t) as [->|Hne].
    + apply lookup_insert_eq.
    + now apply lookup_insert_ne.
Qed.

Lemma safe_cache_set (P : ConfigManager -> Prop) key e :
  (forall cm, P cm -> exists type, key = cacheKey type (sessionId cm)) ->
  truthy (data e) = true -> safe P (cache_set key e).
Proof.
  intros Hk He cm Hinv Hcm. unfold cache_set; simpl.
  repeat split; simpl; try apply Hinv.
  - intros k e'. destruct (decide (key = k)) as [<-|Hne].
    + intros _. now apply Hk.
    + rewrite lookup_insert_ne by done. apply Hinv.
  - intros k e'. destruct (decide (key = k)) as [<-|Hne].
    + rewrite lookup_insert_eq. now intros [= <-].
    + rewrite lookup_insert_ne by done. apply Hinv.
Qed.

Lemma safe_cache_delete P key : safe P (cache_delete key).
Proof.
  intros cm Hinv _. unfold cache_delete; simpl.
  repeat split; simpl; try apply Hinv.
  - intros k e [_ H]%lookup_delete_Some. revert H. apply Hinv.
  - intros k e [_ H]%lookup_delete_Some. revert H. apply Hinv.
Qed.

Lemma safe_clearCache P : safe P clearCache.
Proof.
  intros cm Hinv _. unfold clearCache; simpl.
  repeat split; simpl; try apply Hinv; intros k e; now rewrite lookup_empty.
Qed.

Lemma safe_set_isInitialized P b : safe P (set_isInitialized b).
Proof.
  intros cm Hinv _. unfold set_isInitialized; simpl.
  repeat split; simpl; apply Hinv.
Qed.

Lemma safe_onConfigUpdate P callback : safe P (onConfigUpdate callback).
Proof.
  intros cm Hinv _. unfold onConfigUpdate; simpl.
  repeat split; simpl; apply Hinv.
Qed.

Lemma safe_notifyCallbacks P event payload :
  safe P (notifyCallbacks event payload).
Proof.
  intros cm Hinv _. rewrite notifyCallbacks_run; simpl.
  apply ok_step_refl; [exact Hinv | apply calls_no_store].
Qed.

Ltac safe_step :=
  lazymatch goal with
  | |- safe _ (ret _) => apply safe_ret
  | |- safe _ (await _) => apply safe_await
  | |- safe _ (notifyCallbacks _ _) => apply safe_notifyCallbacks
  | |- safe _ (cache_delete _) => apply safe_cache_delete
  | |- safe _ clearCache => apply safe_clearCache
  | |- safe _ (set_isInitialized _) => apply safe_set_isInitialized
  | |- safe _ (onConfigUpdate _) => apply safe_onConfigUpdate
  | |- safe _ (emit _) => apply safe_emit; reflexivity
  | |- safe _ (configs_set _ _) =>
      apply safe_configs_set;
      first [ reflexivity | apply getDefaultConfig_truthy | assumption ]
  | |- safe _ (tryM _ _) => apply safe_try; [| intros ?]
  | |- safe _ (bindM (await _) _) => apply safe_await_bind; intros ? ?
  | |- safe _ (bindM _ _) => apply safe_bind; [| intros ?]
  end.

Ltac safe_auto := repeat safe_step.

Lemma safe_store P type d now :
  truthy d = true -> safe P (loadConfigType_store type d now).
Proof.
  intros Hd. unfold loadConfigType_store.
  apply safe_this_bind; intros a Ha _.
  apply safe_bind; [| intros _; safe_auto].
  apply safe_cache_set; [intros cm <-; eauto | exact Hd].
Qed.

Lemma safe_catch P type en e : safe P (loadConfigType_catch type en e).
Proof. unfold loadConfigType_catch. safe_auto. Qed.

Lemma safe_begin P type now : safe P (loadConfigType_begin type now).
Proof.
  unfold loadConfigType_begin. apply safe_this_bind; intros a Ha _.
  destruct (cache a !! cacheKey type (sessionId a)) as [cached|] eqn:Hc;
    [destruct (now - timestamp cached <? cacheTimeout a)%Z|]; safe_auto.
  apply safe_configs_set. eapply inv_cache_truthy; eauto.
Qed.

Lemma safe_onSnapshot P type resp en now :
  safe P (loadConfigType_onSnapshot type resp en now).
Proof.
  unfold loadConfigType_onSnapshot. apply safe_try.
  - apply safe_await_bind; intros [d|] _; safe_auto.
    now apply safe_store.
  - intros e. apply safe_bind; [apply safe_catch | intros v; safe_auto].
Qed.

Lemma safe_onCreated P type d resp en now :
  truthy d = true -> safe P (loadConfigType_onCreated type d resp en now).
Proof.
  intros Hd. unfold loadConfigType_onCreated, createDefaultConfig_resume.
  apply safe_try; [| intros e; apply safe_catch].
  apply safe_bind; [safe_auto | intros _; now apply safe_store].
Qed.

Lemma safe_updateConfig_resume P type d resp :
  safe P (updateConfig_resume type d resp).
Proof.
  unfold updateConfig_resume. apply safe_try; [| intros e; safe_auto].
  apply safe_await_bind; intros _ _.
  apply safe_this_bind; intros a Ha _. safe_auto.
Qed.

Lemma safe_loadCriticalConfigs_resume P resp :
  safe P (loadCriticalConfigs_resume resp).
Proof.
  unfold loadCriticalConfigs_resume. apply safe_bind; [| intros c; safe_auto].
  apply safe_try; [| intros e; safe_auto].
  apply safe_await_bind; intros [d|] _; safe_auto.
Qed.

Lemma safe_loadFallbackConfigs P ens : safe P (loadFallbackConfigs ens).
Proof.
  unfold loadFallbackConfigs. apply safe_bind; [| intros _; safe_auto].
  apply safe_forEach. intros j x. safe_auto.
Qed.

Lemma safe_call P type now : safe P (loadConfigType_call type now).
Proof.
  intros cm Hinv Hcm. pose proof (safe_begin P type now cm Hinv Hcm) as H.
  unfold loadConfigType_call.
  destruct (loadConfigType_begin type now cm) as [[[[v|]|e] cm1] t1]; exact H.
Qed.

Lemma safe_loadAll_calls P clock i types : safe P (loadAll_calls clock i types).
Proof.
  apply (safe_weaken _ (fun _ => True)); [auto|].
  revert i. induction types as [|type rest IH]; intros i; simpl.
  - apply safe_ret.
  - apply safe_bind; [apply safe_call | intros p].
    apply safe_bind; [apply IH | intros ps; apply safe_ret].
Qed.

Lemma safe_initialize_resume P resp clock ens :
  safe P (initialize_resume resp clock ens).
Proof.
  unfold initialize_resume. apply safe_try.
  - apply safe_bind; [apply safe_loadCriticalConfigs_resume | intros _].
    apply safe_bind; [apply safe_loadAll_calls | intros pool]. safe_auto.
  - intros e. apply safe_bind; [apply safe_loadFallbackConfigs | intros _].
    safe_auto.
Qed.

Lemma forget_safe {A} (m : M A) cm :
  safe (fun _ => True) m -> cm_inv cm ->
  ok_step cm (forget m cm).1 (forget m cm).2.
Proof.
  intros Hm Hinv. specialize (Hm cm Hinv I). unfold forget.
  destruct (m cm) as [[r cm1] t1]. exact Hm.
Qed.

Lemma run_op_ok op cm :
  cm_inv cm -> ok_step cm (run_op op cm).1 (run_op op cm).2.
Proof.
  intros Hinv. destruct op; unfold run_op; apply forget_safe; try exact Hinv.
  - apply safe_begin.
  - apply safe_onSnapshot.
  - apply safe_onCreated, getDefaultConfig_truthy.
  - apply safe_emit; reflexivity.
  - apply safe_updateConfig_resume.
  - apply safe_emit; reflexivity.
  - apply safe_loadCriticalConfigs_resume.
  - apply safe_loadAll_calls.
  - apply safe_initialize_resume.
  - apply safe_loadFallbackConfigs.
  - apply safe_clearCache.
  - apply safe_onConfigUpdate.
Qed.

Lemma run_ops_ok ops cm :
  cm_inv cm -> ok_step cm (run_ops ops cm).1 (run_ops ops cm).2.
Proof.
  revert cm. induction ops as [|op ops IH]; intros cm Hinv; simpl.
  - now apply ok_step_refl.
  - pose proof (run_op_ok op cm Hinv) as H1.
    destruct (run_op op cm) as [cm1 t1]; simpl in H1.
    pose proof (IH cm1 (proj1 H1)) as H2.
    destruct (run_ops ops cm1) as [cm2 t2]; simpl in *.
    eapply ok_step_trans; eauto.
Qed.

Lemma newConfigManager_inv rnd now : cm_inv (newConfigManager rnd now).
Proof. split; simpl; intros ? ?; now rewrite lookup_empty. Qed.

Lemma reachable_inv cm : reachable cm -> cm_inv cm.
Proof.
  intros (rnd & now & ops & ->).
  apply (run_ops_ok ops _ (newConfigManager_inv rnd now)).
Qed.

Lemma run_ops_snoc ops op cm :
  (run_ops (ops ++ [op]) cm).1 = (run_op op (run_ops ops cm).1).1.
Proof.
  revert cm. induction ops as [|o ops IH]; intros cm; simpl.
  - now destruct (run_op op cm).
  - destruct (run_op o cm) as [cm1 t1]. specialize (IH cm1).
    destruct (run_ops (ops ++ [op]) cm1), (run_ops ops cm1). exact IH.
Qed.

Lemma reachable_run_op op cm : reachable cm -> reachable (run_op op cm).1.
Proof.
  intros (rnd & now & ops & ->). exists rnd, now, (ops ++ [op]).
  now rewrite run_ops_snoc.
Qed.

(** ** What one [loadConfigType] call computes *)

#[local] Arguments loadConfigType_store : simpl never.
#[local] Arguments notifyCallbacks : simpl never.

Lemma loadConfigType_begin_run type now cm :
  loadConfigType_begin type now cm
  = match cache cm !! cacheKey type (sessionId cm) with
    | Some cached =>
        if (now - timestamp cached <? cacheTimeout cm)%Z
        then (Ok (Some (data cached)),
              with_configs (<[type := data cached]> (configs cm)) cm,
              [Stored type (data cached)])
        else (Ok None, cm, [RemoteGet type])
    | None => (Ok None, cm, [RemoteGet type])
    end.
Proof.
  unfold loadConfigType_begin, bindM at 1, this.
  destruct (cache cm !! cacheKey type (sessionId cm)) as [cached|];
    [destruct (now - timestamp cached <? cacheTimeout cm)%Z|]; reflexivity.
Qed.

Lemma loadConfigType_store_run type d now cm :
  loadConfigType_store type d now cm
  = (Ok d, stored_state type d now cm,
     Stored type d :: calls "configLoaded" (payload type d) cm).
Proof.
  unfold loadConfigType_store, bindM, this, cache_set, configs_set, ret.
  rewrite notifyCallbacks_run. cbn. rewrite ?app_nil_r. reflexivity.
Qed.

Lemma loadConfigType_begin_stale type now cm :
  cache_fresh cm type now = false ->
  loadConfigType_begin type now cm = (Ok None, cm, [RemoteGet type]).
Proof.
  unfold cache_fresh. rewrite loadConfigType_begin_run.
  destruct (cache cm !! cacheKey type (sessionId cm)) as [cached|];
    [|reflexivity].
  now intros ->.
Qed.

Lemma loadConfigType_run_hit type env cm cached :
  cache cm !! cacheKey type (sessionId cm) = Some cached ->
  (now_check env - timestamp cached < cacheTimeout cm)%Z ->
  loadConfigType type env cm
  = (Ok (data cached),
     with_configs (<[type := data cached]> (configs cm)) cm,
     [Stored type (data cached)]).
Proof.
  intros Hc Hlt. unfold loadConfigType, bindM at 1.
  rewrite loadConfigType_begin_run, Hc.
  apply Z.ltb_lt in Hlt. rewrite Hlt. reflexivity.
Qed.

Lemma loadConfigType_run_doc type env cm d :
  cache_fresh cm type (now_check env) = false ->
  fetch env = Ok (Some d) ->
  loadConfigType type env cm
  = (Ok (VObj d), stored_state type (VObj d) (now_store env) cm,
     RemoteGet type :: Stored type (VObj d)
       :: calls "configLoaded" (payload type (VObj d)) cm).
Proof.
  intros Hs Hf. unfold loadConfigType, bindM at 1.
  rewrite (loadConfigType_begin_stale _ _ _ Hs).
  unfold loadConfigType_onSnapshot, bindM at 1, tryM, bindM at 1, await.
  rewrite Hf. unfold bindM at 1. rewrite loadConfigType_store_run.
  cbn. rewrite ?app_nil_r. reflexivity.
Qed.

Lemma loadConfigType_run_missing type env cm :
  cache_fresh cm type (now_check env) = false ->
  fetch env = Ok None ->
  let d := getDefaultConfig type (entropy env) in
  loadConfigType type env cm
  = (Ok d, stored_state type d (now_store env) cm,
     RemoteGet type :: RemoteSet type d :: Stored type d
       :: calls "configLoaded" (payload type d) cm).
Proof.
  intros Hs Hf d. unfold loadConfigType, bindM at 1.
  rewrite (loadConfigType_begin_stale _ _ _ Hs).
  unfold loadConfigType_onSnapshot, bindM at 1, tryM, bindM at 1, await.
  rewrite Hf. cbn.
  unfold loadConfigType_onCreated, createDefaultConfig_resume, tryM,
    bindM at 1, tryM, await.
  fold d.
  destruct (create env) as [[]|e]; cbn; rewrite loadConfigType_store_run;
    cbn; rewrite ?app_nil_r; reflexivity.
Qed.

Lemma loadConfigType_run_fail type env cm e :
  cache_fresh cm type (now_check env) = false ->
  fetch env = Throw e ->
  let d := getDefaultConfig type (entropy env) in
  loadConfigType type env cm
  = (Ok d, with_configs (<[type := d]> (configs cm)) cm,
     [RemoteGet type; Stored type d]).
Proof.
  intros Hs Hf d. unfold loadConfigType, bindM at 1.
  rewrite (loadConfigType_begin_stale _ _ _ Hs).
  unfold loadConfigType_onSnapshot, bindM at 1, tryM, bindM at 1, await.
  rewrite Hf. reflexivity.
Qed.

Lemma getConfig_stored cm type v :
  configs cm !! type = Some v -> truthy v = true -> getConfig cm type = v.
Proof. unfold getConfig. intros -> Hv. now apply js_or_truthy. Qed.

Lemma getConfig_none cm type :
  configs cm !! type = None -> getConfig cm type = VObj [].
Proof. unfold getConfig. now intros ->. Qed.

Lemma remote_gets_stale type env cm :
  cache_fresh cm type (now_check env) = false ->
  remote_gets (loadConfigType type env cm).2 = [type].
Proof.
  intros Hs. destruct (fetch env) as [[d|]|e] eqn:Hf.
  - rewrite (loadConfigType_run_doc _ _ _ _ Hs Hf). cbn.
    now rewrite remote_gets_calls.
  - rewrite (loadConfigType_run_missing _ _ _ Hs Hf). cbn.
    now rewrite remote_gets_calls.
  - rewrite (loadConfigType_run_fail _ _ _ _ Hs Hf). reflexivity.
Qed.

(** A second load against an entry [cached] for [type]. *)
Lemma loadConfigType_again type cm cached :
  cache cm !! cacheKey type (sessionId cm) = Some cached ->
  truthy (data cached) = true ->
  forall env2,
    ((now_check env2 - timestamp cached < cacheTimeout cm)%Z ->
     exists cm2,
       loadConfigType type env2 cm
       = (Ok (data cached), cm2, [Stored type (data cached)])
       /\ getConfig cm2 type = data cached)
    /\ ((cacheTimeout cm <= now_check env2 - timestamp cached)%Z ->
        remote_gets (loadConfigType type env2 cm).2 = [type]
        /\ forall d2, fetch env2 = Ok (Some d2) ->
             (loadConfigType type env2 cm).1.1 = Ok (VObj d2)).
Proof.
  intros Hc Ht env2. split.
  - intros Hlt. eexists. split; [now apply loadConfigType_run_hit|].
    apply getConfig_stored; [apply lookup_insert_eq | exact Ht].
  - intros Hge.
    assert (Hs : cache_fresh cm type (now_check env2) = false).
    { unfold cache_fresh. rewrite Hc. apply Z.ltb_ge. exact Hge. }
    split; [now apply remote_gets_stale|].
    intros d2 Hf. now rewrite (loadConfigType_run_doc _ _ _ _ Hs Hf).
Qed.

Lemma onSnapshot_doc_run type d en now cm :
  loadConfigType_onSnapshot type (Ok (Some d)) en now cm
  = (Ok (inl (VObj d)), stored_state type (VObj d) now cm,
     Stored type (VObj d) :: calls "configLoaded" (payload type (VObj d)) cm).
Proof.
  unfold loadConfigType_onSnapshot, tryM, bindM at 1, await.
  unfold bindM at 1. rewrite loadConfigType_store_run.
  cbn. rewrite ?app_nil_r. reflexivity.
Qed.

Lemma onSnapshot_missing_run type en now cm :
  loadConfigType_onSnapshot type (Ok None) en now cm
  = (Ok (inr (getDefaultConfig type en)), cm,
     [RemoteSet type (getDefaultConfig type en)]).
Proof. reflexivity. Qed.

Lemma onSnapshot_fail_run type e en now cm :
  loadConfigType_onSnapshot type (Throw e) en now cm
  = (Ok (inl (getDefaultConfig type en)),
     with_configs (<[type := getDefaultConfig type en]> (configs cm)) cm,
     [Stored type (getDefaultConfig type en)]).
Proof. reflexivity. Qed.

Lemma onCreated_run type d resp en now cm :
  loadConfigType_onCreated type d resp en now cm
  = (Ok d, stored_state type d now cm,
     Stored type d :: calls "configLoaded" (payload type d) cm).
Proof.
  unfold loadConfigType_onCreated, createDefaultConfig_resume, tryM,
    bindM at 1, tryM, await.
  destruct resp as [[]|e]; cbn; rewrite loadConfigType_store_run;
    cbn; rewrite ?app_nil_r; reflexivity.
Qed.

(** Whatever ran between the segments of a call, the segment that returns
    a value has just published it: [getConfig(type)] is that value. *)
Lemma returning_segment_publishes cm type :
  cm_inv cm ->
  (forall now v cm' t,
     loadConfigType_begin type now cm = (Ok (Some v), cm', t) ->
     getConfig cm' type = v)
  /\ (forall resp en now v cm' t,
        loadConfigType_onSnapshot type resp en now cm = (Ok (inl v), cm', t) ->
        getConfig cm' type = v)
  /\ (forall d resp en now v cm' t,
        truthy d = true ->
        loadConfigType_onCreated type d resp en now cm = (Ok v, cm', t) ->
        getConfig cm' type = v).
Proof.
  intros Hinv. split; [|split].
  - intros now v cm' t. rewrite loadConfigType_begin_run.
    destruct (cache cm !! cacheKey type (sessionId cm)) as [c|] eqn:Hc;
      [|discriminate].
    destruct (now - timestamp c <? cacheTimeout cm)%Z; [|discriminate].
    intros [= <- <- _].
    apply getConfig_stored; [apply lookup_insert_eq|].
    eapply inv_cache_truthy; eauto.
  - intros [[d|]|e] en now v cm' t.
    + rewrite onSnapshot_doc_run. intros [= <- <- _].
      apply getConfig_stored; [apply lookup_insert_eq | reflexivity].
    + rewrite onSnapshot_missing_run. discriminate.
    + rewrite onSnapshot_fail_run. intros [= <- <- _].
      apply getConfig_stored;
        [apply lookup_insert_eq | apply getDefaultConfig_truthy].
  - intros d resp en now v cm' t Hd. rewrite onCreated_run.
    intros [= <- <- _].
    apply getConfig_stored; [apply lookup_insert_eq | exact Hd].
Qed.

(** ** The claims *)

(** C1. After a successful [loadConfigType(type)] (a cache hit, or a remote
    read that answered), [getConfig(type)] is the value returned; the
    cache holds that value for [type]; when it was read remotely it is
    the document's data if the document exists, stamped with the time of
    storing; a later [loadConfigType(type)] issued while
    [now - cached.timestamp < cacheTimeout] returns that value without a
    remote read, and one issued once the timeout has elapsed reads the
    remote store again and returns what it then finds. *)
Theorem loadConfigType_get_until_timeout cm type env :
  reachable cm ->
  cache_fresh cm type (now_check env) = true \/ is_ok (fetch env) = true ->
  exists v cm1 t1 cached,
    loadConfigType type env cm = (Ok v, cm1, t1)
    /\ getConfig cm1 type = v
    /\ cache cm1 !! cacheKey type (sessionId cm1) = Some cached
    /\ data cached = v
    /\ (cache_fresh cm type (now_check env) = false ->
        timestamp cached = now_store env /\ remote_gets t1 = [type]
        /\ forall d, fetch env = Ok (Some d) -> v = VObj d)
    /\ forall env2,
         ((now_check env2 - timestamp cached < cacheTimeout cm1)%Z ->
          exists cm2,
            loadConfigType type env2 cm1 = (Ok v, cm2, [Stored type v])
            /\ getConfig cm2 type = v)
         /\ ((cacheTimeout cm1 <= now_check env2 - timestamp cached)%Z ->
             remote_gets (loadConfigType type env2 cm1).2 = [type]
             /\ forall d2, fetch env2 = Ok (Some d2) ->
                  (loadConfigType type env2 cm1).1.1 = Ok (VObj d2)).
Proof.
  intros Hinv%reachable_inv Hok.
  destruct (cache_fresh cm type (now_check env)) eqn:Hfresh.
  - (* served from the cache *)
    unfold cache_fresh in Hfresh.
    destruct (cache cm !! cacheKey type (sessionId cm)) as [c|] eqn:Hc;
      [|discriminate].
    apply Z.ltb_lt in Hfresh.
    pose proof (inv_cache_truthy _ Hinv _ _ Hc) as Ht.
    exists (data c), (with_configs (<[type := data c]> (configs cm)) cm),
      [Stored type (data c)], c.
    split; [now apply loadConfigType_run_hit|].
    split; [apply getConfig_stored; [apply lookup_insert_eq | exact Ht]|].
    split; [exact Hc|]. split; [reflexivity|]. split; [discriminate|].
    now apply loadConfigType_again.
  - destruct Hok as [Hok|Hok]; [discriminate|].
    destruct (fetch env) as [[d|]|e] eqn:Hf; [| |discriminate].
    + (* the document exists *)
      exists (VObj d), (stored_state type (VObj d) (now_store env) cm),
        (RemoteGet type :: Stored type (VObj d)
           :: calls "configLoaded" (payload type (VObj d)) cm),
        (mkEntry (VObj d) (now_store env)).
      split; [now apply loadConfigType_run_doc|].
      split; [apply getConfig_stored; [apply lookup_insert_eq | reflexivity]|].
      split; [apply lookup_insert_eq|]. split; [reflexivity|].
      split.
      { intros _. split; [reflexivity|]. split.
        - cbn. now rewrite remote_gets_calls.
        - now intros d' [= ->]. }
      apply (loadConfigType_again type
               (stored_state type (VObj d) (now_store env) cm)
               (mkEntry (VObj d) (now_store env)));
        [apply lookup_insert_eq | reflexivity].
    + (* the document is missing: the default is created and served *)
      set (v := getDefaultConfig type (entropy env)).
      exists v, (stored_state type v (now_store env) cm),
        (RemoteGet type :: RemoteSet type v :: Stored type v
           :: calls "configLoaded" (payload type v) cm),
        (mkEntry v (now_store env)).
      split; [now apply loadConfigType_run_missing|].
      split; [apply getConfig_stored;
              [apply lookup_insert_eq | apply getDefaultConfig_truthy]|].
      split; [apply lookup_insert_eq|]. split; [reflexivity|].
      split.
      { intros _. split; [reflexivity|]. split.
        - cbn. now rewrite remote_gets_calls.
        - intros d' [=]. }
      apply (loadConfigType_again type (stored_state type v (now_store env) cm)
               (mkEntry v (now_store env)));
        [apply lookup_insert_eq | apply getDefaultConfig_truthy].
Qed.

Lemma loadConfigType_get_until_timeout_witness :
  let cm := sample_manager in
  let env := sample_env 1762041600500 (Ok (Some sample_doc)) in
  reachable cm
  /\ (cache_fresh cm "cities" (now_check env) = true
      \/ is_ok (fetch env) = true)
  /\ exists v cm1 t1 cached,
       loadConfigType "cities" env cm = (Ok v, cm1, t1)
       /\ getConfig cm1 "cities" = v
       /\ cache cm1 !! cacheKey "cities" (sessionId cm1) = Some cached
       /\ data cached = v
       /\ (cache_fresh cm "cities" (now_check env) = false ->
           timestamp cached = now_store env
           /\ remote_gets t1 = ["cities"]
           /\ forall d, fetch env = Ok (Some d) -> v = VObj d)
       /\ forall env2,
            ((now_check env2 - timestamp cached < cacheTimeout cm1)%Z ->
             exists cm2,
               loadConfigType "cities" env2 cm1
               = (Ok v, cm2, [Stored "cities" v])
               /\ getConfig cm2 "cities" = v)
            /\ ((cacheTimeout cm1 <= now_check env2 - timestamp cached)%Z ->
                remote_gets (loadConfigType "cities" env2 cm1).2 = ["cities"]
                /\ forall d2, fetch env2 = Ok (Some d2) ->
                     (loadConfigType "cities" env2 cm1).1.1 = Ok (VObj d2)).
Proof.
  intros cm env.
  assert (H1 : reachable cm).
  { exists "0.4fzyo82mvyr", 1762041600000%Z, []. reflexivity. }
  assert (H2 : cache_fresh cm "cities" (now_check env) = true
               \/ is_ok (fetch env) = true).
  { right. reflexivity. }
  split; [exact H1|]. split; [exact H2|].
  exact (loadConfigType_get_until_timeout cm "cities" env H1 H2).
Defined.

(** C2. [loadConfigType(type)] never propagates an error: it returns a
    value for every state, type and behaviour of the remote store; and
    when the remote read is attempted and fails it returns the built-in
    default [getDefaultConfig(type)], after which [getConfig(type)]
    returns that same default. *)
Theorem loadConfigType_never_throws cm type env :
  (exists v, (loadConfigType type env cm).1.1 = Ok v)
  /\ forall e,
       cache_fresh cm type (now_check env) = false ->
       fetch env = Throw e ->
       exists cm1,
         loadConfigType type env cm
         = (Ok (getDefaultConfig type (entropy env)), cm1,
            [RemoteGet type;
             Stored type (getDefaultConfig type (entropy env))])
         /\ getConfig cm1 type = getDefaultConfig type (entropy env).
Proof.
  split.
  - destruct (cache_fresh cm type (now_check env)) eqn:Hs.
    + unfold cache_fresh in Hs.
      destruct (cache cm !! cacheKey type (sessionId cm)) as [c|] eqn:Hc;
        [|discriminate].
      apply Z.ltb_lt in Hs.
      rewrite (loadConfigType_run_hit _ _ _ _ Hc Hs). eauto.
    + destruct (fetch env) as [[d|]|e] eqn:Hf.
      * rewrite (loadConfigType_run_doc _ _ _ _ Hs Hf). eauto.
      * rewrite (loadConfigType_run_missing _ _ _ Hs Hf). eauto.
      * rewrite (loadConfigType_run_fail _ _ _ _ Hs Hf). eauto.
  - intros e Hs Hf. eexists. split.
    + exact (loadConfigType_run_fail _ _ _ _ Hs Hf).
    + apply getConfig_stored;
        [apply lookup_insert_eq | apply getDefaultConfig_truthy].
Qed.

Lemma loadConfigType_never_throws_witness :
  let cm := sample_manager in
  let env := sample_env 1762041600500 (Throw (RemoteError "unavailable")) in
  cache_fresh cm "ui-strings" (now_check env) = false
  /\ fetch env = Throw (RemoteError "unavailable")
  /\ exists cm1,
       loadConfigType "ui-strings" env cm
       = (Ok (getDefaultConfig "ui-strings" (entropy env)), cm1,
          [RemoteGet "ui-strings";
           Stored "ui-strings" (getDefaultConfig "ui-strings" (entropy env))])
       /\ getConfig cm1 "ui-strings"
          = getDefaultConfig "ui-strings" (entropy env).
Proof.
  intros cm env.
  assert (H1 : cache_fresh cm "ui-strings" (now_check env) = false)
    by reflexivity.
  assert (H2 : fetch env = Throw (RemoteError "unavailable")) by reflexivity.
  split; [exact H1|]. split; [exact H2|].
  exact (proj2 (loadConfigType_never_throws cm "ui-strings" env) _ H1 H2).
Defined.

(** C8. When the remote document of [type] does not exist,
    [loadConfigType(type)] returns the built-in default for that type
    without raising, whether or not writing the default back succeeds;
    it asks the remote store to create the document, and the default is
    what [getConfig(type)] then returns. *)
Theorem loadConfigType_missing_document cm type env :
  cache_fresh cm type (now_check env) = false ->
  fetch env = Ok None ->
  exists cm1 t1,
    loadConfigType type env cm
    = (Ok (getDefaultConfig type (entropy env)), cm1, t1)
    /\ In (RemoteSet type (getDefaultConfig type (entropy env))) t1
    /\ getConfig cm1 type = getDefaultConfig type (entropy env).
Proof.
  intros Hs Hf. eexists _, _. split.
  - exact (loadConfigType_run_missing _ _ _ Hs Hf).
  - split; [right; left; reflexivity|].
    apply getConfig_stored;
      [apply lookup_insert_eq | apply getDefaultConfig_truthy].
Qed.

Lemma loadConfigType_missing_document_witness :
  let cm := sample_manager in
  let env := mkLoadEnv 1762041600500 (Ok None) sample_entropy
               (Throw (RemoteError "permission-denied")) 1762041600620 in
  cache_fresh cm "region-settings" (now_check env) = false
  /\ fetch env = Ok None
  /\ exists cm1 t1,
       loadConfigType "region-settings" env cm
       = (Ok (getDefaultConfig "region-settings" (entropy env)), cm1, t1)
       /\ In (RemoteSet "region-settings"
                (getDefaultConfig "region-settings" (entropy env))) t1
       /\ getConfig cm1 "region-settings"
          = getDefaultConfig "region-settings" (entropy env).
Proof.
  intros cm env.
  assert (H1 : cache_fresh cm "region-settings" (now_check env) = false)
    by reflexivity.
  assert (H2 : fetch env = Ok None) by reflexivity.
  split; [exact H1|]. split; [exact H2|].
  exact (loadConfigType_missing_document cm "region-settings" env H1 H2).
Defined.

(** C3. [getConfig(type)] is a total function of the state (it cannot
    throw or wait): after any history of a manager it is the value of the
    last [this.configs.set(type, _)] that a load or update performed, and
    the empty mapping when there was none. *)
Theorem getConfig_last_stored rnd now ops type :
  getConfig (run_ops ops (newConfigManager rnd now)).1 type
  = default (VObj []) (last_stored type (run_ops ops (newConfigManager rnd now)).2).
Proof.
  destruct (run_ops_ok ops _ (newConfigManager_inv rnd now))
    as (Hinv & _ & _ & Hc).
  specialize (Hc type).
  destruct (last_stored type (run_ops ops (newConfigManager rnd now)).2)
    as [v|]; simpl.
  - apply getConfig_stored; [exact Hc|].
    eapply inv_configs_truthy; eauto.
  - apply getConfig_none. rewrite Hc. apply lookup_empty.
Qed.

(** ** Cache entries *)

Lemma filter_key_absent {V} (l : list (string * V)) (k : string) :
  k ∉ l.*1 -> List.filter (fun ke => String.eqb ke.1 k) l = [].
Proof.
  induction l as [|[k' v] l IH]; simpl; [reflexivity|].
  intros Hk. apply not_elem_of_cons in Hk as [Hne Hk].
  destruct (String.eqb_spec k' k) as [->|_]; [congruence | now apply IH].
Qed.

Lemma filter_key_at_most_one {V} (l : list (string * V)) (k : string) :
  NoDup (l.*1) -> length (List.filter (fun ke => String.eqb ke.1 k) l) <= 1.
Proof.
  induction l as [|[k' v] l IH]; simpl; [lia|].
  intros [Hk Hl]%NoDup_cons.
  destruct (String.eqb_spec k' k) as [->|_]; [|now apply IH].
  rewrite filter_key_absent by exact Hk. simpl. lia.
Qed.

(** C4. In every state a manager can reach, through any of its
    operations: each cache key is the key of exactly one type under
    this manager's session; the cache holds at most one entry per type;
    [loadConfigType] answers from the cache only when an entry exists
    with [now - entry.timestamp < cacheTimeout]; and when the remote read
    succeeds, the data (the document's, or the default once it has been
    written back) is cached with the clock reading of that moment. *)
Theorem cache_invariant cm :
  reachable cm ->
  (forall k e, cache cm !! k = Some e ->
     exists type, k = cacheKey type (sessionId cm)
       /\ forall type', k = cacheKey type' (sessionId cm) -> type' = type)
  /\ (forall type, length (entries_for cm type) <= 1)
  /\ (forall type now v,
        (loadConfigType_begin type now cm).1.1 = Ok (Some v) ->
        exists e, cache cm !! cacheKey type (sessionId cm) = Some e
          /\ (now - timestamp e < cacheTimeout cm)%Z /\ v = data e)
  /\ (forall type d en now,
        cache (loadConfigType_onSnapshot type (Ok (Some d)) en now cm).1.2
          !! cacheKey type (sessionId cm)
        = Some (mkEntry (VObj d) now))
  /\ (forall type en0 resp en now,
        cache (loadConfigType_onCreated type (getDefaultConfig type en0)
                 resp en now cm).1.2
          !! cacheKey type (sessionId cm)
        = Some (mkEntry (getDefaultConfig type en0) now))
  /\ (forall op, reachable (run_op op cm).1).
Proof.
  intros Hr. pose proof (reachable_inv cm Hr) as Hinv.
  split; [|split; [|split; [|split; [|split]]]].
  - intros k e Hk. destruct (inv_keys _ Hinv _ _ Hk) as [type ->].
    exists type. split; [reflexivity|].
    intros type' H. symmetry. now apply cacheKey_inj_type in H.
  - intros type. unfold entries_for. apply filter_key_at_most_one.
    apply NoDup_fst_map_to_list.
  - intros type now v. rewrite loadConfigType_begin_run.
    destruct (cache cm !! cacheKey type (sessionId cm)) as [c|];
      [|discriminate].
    destruct (now - timestamp c <? cacheTimeout cm)%Z eqn:Hlt;
      [|discriminate].
    intros [= <-]. exists c. apply Z.ltb_lt in Hlt. auto.
  - intros type d en now. rewrite onSnapshot_doc_run. apply lookup_insert_eq.
  - intros type en0 resp en now. rewrite onCreated_run. apply lookup_insert_eq.
  - intros op. now apply reachable_run_op.
Qed.

Lemma cache_invariant_witness :
  reachable sample_manager
  /\ (forall type d en now,
        cache (loadConfigType_onSnapshot type (Ok (Some d)) en now
                 sample_manager).1.2
          !! cacheKey type (sessionId sample_manager)
        = Some (mkEntry (VObj d) now)).
Proof.
  assert (H : reachable sample_manager).
  { exists "0.4fzyo82mvyr", 1762041600000%Z, []. reflexivity. }
  split; [exact H|].
  exact (proj1 (proj2 (proj2 (proj2 (cache_invariant sample_manager H))))).
Defined.

(** ** Sessions *)

Lemma run_ops_sessionId ops rnd now :
  sessionId (run_ops ops (newConfigManager rnd now)).1
  = generateSessionId rnd now.
Proof.
  destruct (run_ops_ok ops _ (newConfigManager_inv rnd now)) as (_ & H & _).
  exact H.
Qed.

(** C6. Cache keys embed the session identifier: for two managers whose
    generated session identifiers differ, no key of one (for any type)
    equals a key of the other (for any type), and after any histories the
    key sets of their caches are disjoint, each made only of keys under
    its own session. *)
Theorem sessions_have_disjoint_keys rnd1 now1 rnd2 now2 :
  random_text rnd1 = true -> random_text rnd2 = true ->
  generateSessionId rnd1 now1 <> generateSessionId rnd2 now2 ->
  (forall type1 type2,
     cacheKey type1 (generateSessionId rnd1 now1)
     <> cacheKey type2 (generateSessionId rnd2 now2))
  /\ forall ops1 ops2,
       let cm1 := (run_ops ops1 (newConfigManager rnd1 now1)).1 in
       let cm2 := (run_ops ops2 (newConfigManager rnd2 now2)).1 in
       dom (cache cm1) ## dom (cache cm2)
       /\ (forall k, k ∈ dom (cache cm1) ->
             exists type, k = cacheKey type (generateSessionId rnd1 now1))
       /\ (forall k, k ∈ dom (cache cm2) ->
             exists type, k = cacheKey type (generateSessionId rnd2 now2)).
Proof.
  intros H1 H2 Hne.
  assert (Hkeys : forall type1 type2,
             cacheKey type1 (generateSessionId rnd1 now1)
             <> cacheKey type2 (generateSessionId rnd2 now2)).
  { intros t1 t2 H. apply Hne. eapply cacheKey_inj_session; eauto. }
  split; [exact Hkeys|].
  intros ops1 ops2 cm1 cm2.
  assert (K1 : forall k, k ∈ dom (cache cm1) ->
             exists type, k = cacheKey type (generateSessionId rnd1 now1)).
  { intros k [e He]%elem_of_dom.
    pose proof (run_ops_ok ops1 _ (newConfigManager_inv rnd1 now1))
      as (Hinv & _).
    destruct (inv_keys _ Hinv _ _ He) as [type ->]. exists type.
    unfold cm1. now rewrite run_ops_sessionId. }
  assert (K2 : forall k, k ∈ dom (cache cm2) ->
             exists type, k = cacheKey type (generateSessionId rnd2 now2)).
  { intros k [e He]%elem_of_dom.
    pose proof (run_ops_ok ops2 _ (newConfigManager_inv rnd2 now2))
      as (Hinv & _).
    destruct (inv_keys _ Hinv _ _ He) as [type ->]. exists type.
    unfold cm2. now rewrite run_ops_sessionId. }
  split; [|split; assumption].
  intros k Hk1 Hk2. destruct (K1 k Hk1) as [t1 E1], (K2 k Hk2) as [t2 E2].
  apply (Hkeys t1 t2). congruence.
Qed.

Lemma sessions_have_disjoint_keys_witness :
  random_text "0.4fzyo82mvyr" = true
  /\ random_text "0.9x1c2k7wq0a" = true
  /\ generateSessionId "0.4fzyo82mvyr" 1762041600000
     <> generateSessionId "0.9x1c2k7wq0a" 1762041600000
  /\ forall type1 type2,
       cacheKey type1 (generateSessionId "0.4fzyo82mvyr" 1762041600000)
       <> cacheKey type2 (generateSessionId "0.9x1c2k7wq0a" 1762041600000).
Proof.
  assert (H1 : random_text "0.4fzyo82mvyr" = true) by reflexivity.
  assert (H2 : random_text "0.9x1c2k7wq0a" = true) by reflexivity.
  assert (H3 : generateSessionId "0.4fzyo82mvyr" 1762041600000
               <> generateSessionId "0.9x1c2k7wq0a" 1762041600000).
  { vm_compute. discriminate. }
  split; [exact H1|]. split; [exact H2|]. split; [exact H3|].
  exact (proj1 (sessions_have_disjoint_keys _ _ _ _ H1 H2 H3)).
Defined.

(** ** The location manager *)

Lemma getCityByKey_none lm k :
  (forall city, city ∈ cities lm -> key city <> k) -> getCityByKey lm k = None.
Proof.
  intros H. unfold getCityByKey.
  induction (cities lm) as [|c l IH]; simpl; [reflexivity|].
  destruct (String.eqb_spec (key c) k) as [E|_].
  - exfalso. apply (H c); [left | exact E].
  - apply IH. intros city Hc. apply H. now right.
Qed.

Lemma getCityByKey_some lm k :
  (exists city, city ∈ cities lm /\ key city = k) ->
  exists city, getCityByKey lm k = Some city
               /\ city ∈ cities lm /\ key city = k.
Proof.
  intros (c0 & Hin & Hk). unfold getCityByKey.
  induction (cities lm) as [|c l IH]; [now apply elem_of_nil in Hin|].
  simpl. destruct (String.eqb_spec (key c) k) as [E|Hne].
  - exists c. repeat split; [left | exact E].
  - apply elem_of_cons in Hin as [->|Hin]; [congruence|].
    destruct (IH Hin) as (c' & -> & Hc' & Hk').
    exists c'. repeat split; [now right | exact Hk'].
Qed.

Lemma setCurrentCity_run lm cityKey write :
  setCurrentCity cityKey write lm
  = match getCityByKey lm cityKey with
    | None => (Ok false, lm, [])
    | Some city =>
        match write with
        | Ok _ =>
            (Ok true,
             mkLM (Some city) (cities lm) (listeners lm)
                  (<[selectedCityKey := cityKey]> (localStorage lm)),
             notifications city lm)
        | Throw e =>
            (Throw e,
             mkLM (Some city) (cities lm) (listeners lm) (localStorage lm),
             [])
        end
    end.
Proof.
  unfold setCurrentCity, bindM at 1, this.
  destruct (getCityByKey lm cityKey) as [city|]; [|reflexivity].
  destruct write as [[]|e]; [|reflexivity].
  unfold bindM, set_currentCity, localStorage_setItem, ret.
  rewrite notifyListeners_run. cbn. rewrite ?app_nil_r. reflexivity.
Qed.

(** C9. [setCurrentCity(cityKey)]: for a key that no city of the list
    carries it returns [false], leaves the manager (current city,
    listeners) and the browser storage as they were and calls no
    listener, whatever the storage would do.  For a key some city of the
    list carries: when the browser storage accepts the write it returns
    [true], the current city becomes a city of the list with that key,
    the key is persisted under ['packslist-selected-city'], and every
    registered listener is called once, in order, with that city; when
    the storage refuses the write, the exception of [setItem] leaves the
    call with the current city already set to that city, nothing
    persisted and no listener called. *)
Theorem setCurrentCity_atomic lm cityKey write :
  ((forall city, city ∈ cities lm -> key city <> cityKey) ->
   setCurrentCity cityKey write lm = (Ok false, lm, []))
  /\ ((exists city, city ∈ cities lm /\ key city = cityKey) ->
      exists city,
        city ∈ cities lm /\ key city = cityKey
        /\ getCityByKey lm cityKey = Some city
        /\ (is_ok write = true ->
            setCurrentCity cityKey write lm
            = (Ok true,
               mkLM (Some city) (cities lm) (listeners lm)
                    (<[selectedCityKey := cityKey]> (localStorage lm)),
               map (fun i => Notified i city)
                   (seq 0 (length (listeners lm)))))
        /\ (forall e, write = Throw e ->
            setCurrentCity cityKey write lm
            = (Throw e,
               mkLM (Some city) (cities lm) (listeners lm) (localStorage lm),
               []))).
Proof.
  split.
  - intros H. rewrite setCurrentCity_run.
    now rewrite (getCityByKey_none lm cityKey H).
  - intros H. destruct (getCityByKey_some lm cityKey H) as (c & Hc & Hin & Hk).
    exists c. split; [exact Hin|]. split; [exact Hk|]. split; [exact Hc|].
    rewrite setCurrentCity_run, Hc. split.
    + destruct write as [[]|e]; [reflexivity | discriminate].
    + intros e ->. reflexivity.
Qed.

Lemma setCurrentCity_atomic_witness :
  (exists city, city ∈ cities sample_location /\ key city = "providence")
  /\ is_ok (Ok tt) = true
  /\ exists city,
       city ∈ cities sample_location /\ key city = "providence"
       /\ getCityByKey sample_location "providence" = Some city
       /\ setCurrentCity "providence" (Ok tt) sample_location
          = (Ok true,
             mkLM (Some city) (cities sample_location)
                  (listeners sample_location)
                  (<[selectedCityKey := "providence"]>
                     (localStorage sample_location)),
             map (fun i => Notified i city)
                 (seq 0 (length (listeners sample_location)))).
Proof.
  assert (H : exists city,
             city ∈ cities sample_location /\ key city = "providence").
  { exists (mkCity "Providence" "RI" "providence" 41.8240 (-71.4128)).
    split; [|reflexivity].
    apply list_elem_of_In. vm_compute. tauto. }
  assert (Hw : is_ok (Ok tt) = true) by reflexivity.
  split; [exact H|]. split; [exact Hw|].
  destruct (proj2 (setCurrentCity_atomic sample_location "providence" (Ok tt))
              H) as (city & Hin & Hk & Hc & Hok & _).
  exists city. split; [exact Hin|]. split; [exact Hk|]. split; [exact Hc|].
  exact (Hok Hw).
Defined.

(** [setCurrentCity] is not atomic where the browser refuses the write:
    'providence' is in the list, yet the call does not return [true]; it
    throws, the current city has changed from Boston to Providence,
    nothing is persisted and neither of the two registered listeners is
    called. *)
Lemma setCurrentCity_refused_write :
  (exists city, city ∈ cities sample_location /\ key city = "providence")
  /\ currentCity sample_location = Some boston
  /\ length (listeners sample_location) = 2
  /\ setCurrentCity "providence" (Throw (DOMException "QuotaExceededError"))
       sample_location
     = (Throw (DOMException "QuotaExceededError"),
        mkLM (Some (mkCity "Providence" "RI" "providence" 41.8240 (-71.4128)))
             (cities sample_location) (listeners sample_location)
             (localStorage sample_location),
        [])
  /\ (setCurrentCity "providence" (Throw (DOMException "QuotaExceededError"))
        sample_location).1.1 <> Ok true
  /\ localStorage sample_location !! selectedCityKey = None.
Proof.
  split.
  { exists (mkCity "Providence" "RI" "providence" 41.8240 (-71.4128)).
    split; [|reflexivity].
    apply list_elem_of_In. vm_compute. tauto. }
  split; [reflexivity|]. split; [reflexivity|]. split; [reflexivity|].
  split; [discriminate | reflexivity].
Qed.

Example setCurrentCity_unknown_key :
  setCurrentCity "atlantis" (Ok tt) sample_location
  = (Ok false, sample_location, []).
Proof. reflexivity. Qed.

Example setCurrentCity_notifies_both :
  (setCurrentCity "hartford" (Ok tt) sample_location).2
  = [Notified 0 (mkCity "Hartford" "CT" "hartford" 41.7658 (-72.6734));
     Notified 1 (mkCity "Hartford" "CT" "hartford" 41.7658 (-72.6734))].
Proof. reflexivity. Qed.

(** ** Object spread *)

Lemma assoc_obj_set k k' v (o : JSObj) :
  assoc k (obj_set k' v o) = if String.eqb k' k then Some v else assoc k o.
Proof.
  induction o as [|[k1 v1] o IH]; simpl.
  - destruct (String.eqb k' k); reflexivity.
  - destruct (String.eqb_spec k1 k') as [->|Hne]; simpl.
    + destruct (String.eqb k' k); reflexivity.
    + rewrite IH. destruct (String.eqb_spec k1 k) as [->|]; [|reflexivity].
      destruct (String.eqb_spec k' k) as [->|]; [congruence | reflexivity].
Qed.

Lemma assoc_absent k (o : JSObj) : k ∉ o.*1 -> assoc k o = None.
Proof.
  induction o as [|[k1 v1] o IH]; simpl; [reflexivity|].
  intros [Hne Ho]%not_elem_of_cons.
  destruct (String.eqb_spec k1 k) as [->|]; [congruence | now apply IH].
Qed.

Lemma assoc_fold_set k (l acc : JSObj) :
  obj_wf l ->
  assoc k (fold_left (fun a kv => obj_set kv.1 kv.2 a) l acc)
  = match assoc k l with
    | Some v => Some v
    | None => assoc k acc
    end.
Proof.
  unfold obj_wf. revert acc. induction l as [|[k1 v1] l IH]; intros acc Hwf.
  - reflexivity.
  - simpl in Hwf. apply NoDup_cons in Hwf as [Hk1 Hl].
    cbn [fold_left assoc fst snd]. rewrite (IH _ Hl), assoc_obj_set.
    destruct (String.eqb_spec k1 k) as [->|_]; [|reflexivity].
    now rewrite (assoc_absent _ _ Hk1).
Qed.

Lemma assoc_spread2 k (a b : JSValue) :
  obj_wf (ownEntries a) -> obj_wf (ownEntries b) ->
  assoc k (spread2 a b)
  = match assoc k (ownEntries b) with
    | Some v => Some v
    | None => assoc k (ownEntries a)
    end.
Proof.
  intros Ha Hb. unfold spread2. rewrite (assoc_fold_set _ _ _ Hb).
  destruct (assoc k (ownEntries b)); [reflexivity|].
  rewrite (assoc_fold_set _ _ _ Ha). now destruct (assoc k (ownEntries a)).
Qed.

(** ** [updateConfig] *)

Lemma updateConfig_run_fail type d e cm :
  updateConfig type d (Throw e) cm = (Ok false, cm, [RemoteUpdate type d]).
Proof. reflexivity. Qed.

Lemma updateConfig_run_ok type d cm :
  updateConfig type d (Ok tt) cm
  = (Ok true,
     with_cache (delete (cacheKey type (sessionId cm)) (cache cm))
       (with_configs
          (<[type := VObj (spread2 (getConfig cm type) d)]> (configs cm)) cm),
     RemoteUpdate type d
       :: Stored type (VObj (spread2 (getConfig cm type) d))
       :: calls "configUpdated" (payload type d) cm).
Proof.
  unfold updateConfig, updateConfig_begin, updateConfig_resume, bindM at 1,
    emit, tryM, bindM at 1, await, bindM at 1, this, bindM, configs_set,
    cache_delete, ret.
  rewrite notifyCallbacks_run. cbn. rewrite ?app_nil_r. reflexivity.
Qed.



(** ** Promises in flight *)

Lemma task_resume_run t env cm :
  exists t' cm' tr,
    task_resume t env cm = (Ok t', cm', tr)
    /\ rank t' <= pred (rank t)
    /\ (not_rejected t -> not_rejected t').
Proof.
  destruct t as [type|type d|r]; unfold task_resume.
  - destruct (fetch env) as [[d|]|e].
    + rewrite onSnapshot_doc_run. eexists _, _, _. split; [reflexivity|].
      simpl. auto with lia.
    + rewrite onSnapshot_missing_run. eexists _, _, _. split; [reflexivity|].
      simpl. auto with lia.
    + rewrite onSnapshot_fail_run. eexists _, _, _. split; [reflexivity|].
      simpl. auto with lia.
  - rewrite onCreated_run. eexists _, _, _. split; [reflexivity|].
    simpl. auto with lia.
  - eexists _, _, _. split; [reflexivity|]. simpl. auto with lia.
Qed.

Lemma pool_step_run pool ev cm :
  Forall not_rejected pool ->
  exists pool' cm' tr,
    pool_step pool ev cm = (Ok pool', cm', tr)
    /\ Forall not_rejected pool'
    /\ forall i t, pool !! i = Some t ->
         exists t', pool' !! i = Some t'
           /\ rank t' <= rank t - (if Nat.eqb ev.1 i then 1 else 0).
Proof.
  intros Hp. unfold pool_step.
  destruct (pool !! ev.1) as [task|] eqn:Hl.
  - destruct (task_resume_run task ev.2 cm) as (t' & cm' & tr & E & Hr & Hn).
    unfold bindM. rewrite E. cbn. rewrite app_nil_r.
    eexists _, _, _. split; [reflexivity|]. split.
    + apply Forall_insert; [exact Hp|]. apply Hn.
      eapply Forall_lookup_1; eauto.
    + intros i t Hi. destruct (Nat.eqb_spec ev.1 i) as [<-|Hne].
      * exists t'. split.
        -- apply list_lookup_insert_eq. eapply lookup_lt_Some; eauto.
        -- assert (t = task) as -> by congruence. lia.
      * exists t. split; [|lia]. now rewrite list_lookup_insert_ne.
  - eexists _, _, _. split; [reflexivity|]. split; [exact Hp|].
    intros i t Hi. exists t. split; [exact Hi|].
    destruct (Nat.eqb_spec ev.1 i) as [<-|_]; [congruence | lia].
Qed.

Lemma pool_run_run sched pool cm :
  Forall not_rejected pool ->
  exists pool' cm' tr,
    pool_run pool sched cm = (Ok pool', cm', tr)
    /\ Forall not_rejected pool'
    /\ forall i t, pool !! i = Some t ->
         exists t', pool' !! i = Some t' /\ rank t' <= rank t - answers i sched.
Proof.
  revert pool cm. induction sched as [|ev sched IH]; intros pool cm Hp.
  - eexists _, _, _. split; [reflexivity|]. split; [exact Hp|].
    intros i t Hi. exists t. split; [exact Hi | unfold answers; simpl; lia].
  - destruct (pool_step_run pool ev cm Hp) as (p1 & cm1 & t1 & E1 & Hp1 & R1).
    destruct (IH p1 cm1 Hp1) as (p2 & cm2 & t2 & E2 & Hp2 & R2).
    cbn [pool_run]. unfold bindM. rewrite E1, E2.
    eexists _, _, _. split; [reflexivity|]. split; [exact Hp2|].
    intros i t Hi. destruct (R1 i t Hi) as (t' & Hi' & Hr').
    destruct (R2 i t' Hi') as (t'' & Hi'' & Hr'').
    exists t''. split; [exact Hi''|].
    unfold answers in *. cbn [List.filter].
    destruct (Nat.eqb ev.1 i); cbn [length]; lia.
Qed.

Lemma allSettled_done pool :
  Forall not_rejected pool ->
  (forall i t, pool !! i = Some t -> rank t = 0) ->
  exists results, allSettled pool = Some results
                  /\ Forall is_fulfilled results.
Proof.
  induction pool as [|t pool IH]; intros Hp Hr.
  - exists []. split; [reflexivity | constructor].
  - apply Forall_cons in Hp as [Ht Hp].
    destruct IH as (rs & E & Hrs); [exact Hp | |].
    { intros i t' Hi. apply (Hr (S i)). exact Hi. }
    pose proof (Hr 0 t eq_refl) as H0.
    destruct t as [|?|[v|e]]; simpl in *; try discriminate; [|contradiction].
    rewrite E. exists (Fulfilled v :: rs). split; [reflexivity|].
    constructor; [exact I | exact Hrs].
Qed.

Lemma loadConfigType_call_run type now cm :
  exists t cm' tr,
    loadConfigType_call type now cm = (Ok t, cm', tr)
    /\ called_for type t
    /\ (cache cm = ∅ ->
        t = AwaitSnapshot type /\ cm' = cm /\ tr = [RemoteGet type]).
Proof.
  unfold loadConfigType_call. rewrite loadConfigType_begin_run.
  destruct (cache cm !! cacheKey type (sessionId cm)) as [c|] eqn:Hc;
    [destruct (now - timestamp c <? cacheTimeout cm)%Z|].
  - eexists _, _, _. split; [reflexivity|].
    split; [right; eexists; reflexivity|].
    intros Hempty. rewrite Hempty, lookup_empty in Hc. discriminate.
  - eexists _, _, _. split; [reflexivity|]. split; [left; reflexivity|].
    intros _. auto.
  - eexists _, _, _. split; [reflexivity|]. split; [left; reflexivity|].
    intros _. auto.
Qed.

Lemma loadAll_calls_run types clock i cm :
  exists pool cm' tr,
    loadAll_calls clock i types cm = (Ok pool, cm', tr)
    /\ Forall2 called_for types pool
    /\ (cache cm = ∅ ->
        pool = map AwaitSnapshot types /\ cm' = cm
        /\ tr = map RemoteGet types).
Proof.
  revert i cm. induction types as [|type rest IH]; intros i cm.
  - eexists _, _, _. split; [reflexivity|]. split; [constructor | auto].
  - destruct (loadConfigType_call_run type (clock i) cm)
      as (t & cm1 & t1 & E1 & Hc1 & Hcold1).
    destruct (IH (S i) cm1) as (ps & cm2 & t2 & E2 & Hc2 & Hcold2).
    cbn [loadAll_calls]. unfold bindM. rewrite E1, E2. cbn.
    rewrite app_nil_r.
    eexists _, _, _. split; [reflexivity|]. split; [now constructor|].
    intros Hempty. destruct (Hcold1 Hempty) as (-> & -> & ->).
    destruct (Hcold2 Hempty) as (-> & -> & ->). auto.
Qed.

Lemma called_for_not_rejected types pool :
  Forall2 called_for types pool -> Forall not_rejected pool.
Proof.
  induction 1 as [|type t types pool [->|[v ->]] _ IH]; constructor; simpl; auto.
Qed.

Lemma called_for_rank types pool i t :
  Forall2 called_for types pool -> pool !! i = Some t ->
  i < length types /\ rank t <= 2.
Proof.
  intros H Hi. split.
  - rewrite (Forall2_length _ _ _ H). eapply lookup_lt_Some; eauto.
  - destruct (Forall2_lookup_r _ _ _ _ _ H Hi) as (type & _ & [->|[v ->]]);
      simpl; lia.
Qed.

Lemma pool_step_length pool ev cm pool' cm' tr :
  pool_step pool ev cm = (Ok pool', cm', tr) -> length pool' = length pool.
Proof.
  unfold pool_step. destruct (pool !! ev.1) as [task|].
  - unfold bindM.
    destruct (task_resume task ev.2 cm) as [[[tk|e] c2] t2]; [|discriminate].
    intros [= <- _ _]. apply length_insert.
  - now intros [= <- _ _].
Qed.

Lemma pool_step_other pool ev cm pool' cm' tr i :
  pool_step pool ev cm = (Ok pool', cm', tr) -> ev.1 <> i ->
  pool' !! i = pool !! i.
Proof.
  unfold pool_step. destruct (pool !! ev.1) as [task|].
  - unfold bindM.
    destruct (task_resume task ev.2 cm) as [[[tk|e] c2] t2]; [|discriminate].
    intros [= <- _ _] Hne. now apply list_lookup_insert_ne.
  - now intros [= <- _ _].
Qed.

Lemma pool_run_length sched pool cm pool' cm' tr :
  pool_run pool sched cm = (Ok pool', cm', tr) -> length pool' = length pool.
Proof.
  revert pool cm pool' cm' tr.
  induction sched as [|ev sched IH]; intros p0 c0 p1 c1 tr E.
  - now injection E as <- _ _.
  - cbn [pool_run] in E. unfold bindM in E.
    destruct (pool_step p0 ev c0) as [[[p'|e] c'] t'] eqn:Es; [|discriminate].
    destruct (pool_run p' sched c') as [[r c''] t''] eqn:Er.
    injection E as -> -> _.
    rewrite (IH _ _ _ _ _ Er). exact (pool_step_length _ _ _ _ _ _ Es).
Qed.

(** A promise that no turn of the schedule resumes is where it was. *)
Lemma pool_run_unanswered sched pool cm pool' cm' tr i :
  pool_run pool sched cm = (Ok pool', cm', tr) -> answers i sched = 0 ->
  pool' !! i = pool !! i.
Proof.
  revert pool cm pool' cm' tr.
  induction sched as [|ev sched IH]; intros p0 c0 p1 c1 tr E Ha.
  - now injection E as <- _ _.
  - cbn [pool_run] in E. unfold bindM in E.
    destruct (pool_step p0 ev c0) as [[[p'|e] c'] t'] eqn:Es; [|discriminate].
    destruct (pool_run p' sched c') as [[r c''] t''] eqn:Er.
    injection E as -> -> _.
    unfold answers in Ha. cbn [List.filter] in Ha.
    destruct (Nat.eqb_spec ev.1 i) as [_|Hne]; [discriminate|].
    rewrite (IH _ _ _ _ _ Er Ha). exact (pool_step_other _ _ _ _ _ _ _ Es Hne).
Qed.

(** [Promise.allSettled] is pending exactly while one of the promises
    is, and then reports every promise, rejected ones included. *)
Lemma allSettled_pending pool :
  existsb pending pool = true -> allSettled pool = None.
Proof.
  induction pool as [|t pool IH]; [discriminate|].
  destruct t as [type|type d|[v|e]]; cbn [existsb pending orb allSettled];
    try reflexivity; intros H; now rewrite (IH H).
Qed.

Lemma allSettled_results pool results :
  allSettled pool = Some results -> Forall2 settled_as pool results.
Proof.
  revert results. induction pool as [|t pool IH]; intros results.
  - intros [= <-]. constructor.
  - destruct t as [type|type d|[v|e]]; cbn [allSettled]; try discriminate;
      destruct (allSettled pool) as [rs|]; try discriminate;
      intros [= <-]; (constructor; [reflexivity | now apply IH]).
Qed.

Lemma allSettled_settled pool :
  existsb pending pool = false ->
  exists results, allSettled pool = Some results.
Proof.
  induction pool as [|t pool IH]; [now exists []|].
  destruct t as [type|type d|[v|e]]; cbn [existsb pending orb allSettled];
    try discriminate; intros H; destruct (IH H) as (rs & ->); eexists;
    reflexivity.
Qed.

Lemma loadAllConfigs_run clock sched cm pool0 cm0 t0 pool1 cm1 t1 :
  loadAllConfigs_begin clock cm = (Ok pool0, cm0, t0) ->
  pool_run pool0 sched cm0 = (Ok pool1, cm1, t1) ->
  loadAllConfigs clock sched cm
  = (Ok (if existsb pending pool1 then None else Some tt), cm1, t0 ++ t1).
Proof.
  intros E0 E1. unfold loadAllConfigs, bindM. rewrite E0, E1.
  destruct (existsb pending pool1) eqn:Hp.
  - rewrite (allSettled_pending _ Hp). cbn. now rewrite app_nil_r.
  - destruct (allSettled_settled _ Hp) as (rs & ->). cbn.
    now rewrite app_nil_r.
Qed.

(** C7. [loadAllConfigs()] calls [loadConfigType] once for each of the six
    config types, in the order of the list and before it waits for any
    answer (on a cold cache all six remote reads are issued up front);
    it joins the six promises with [Promise.allSettled]: under every
    schedule of answers, complete or not, its own promise is pending
    exactly while one of the six is (a call left suspended that has had
    no answer keeps it pending), and the combinator reports one result
    for each promise, a rejected one included, without rejecting.
    Whatever the remote store answers, failures included, and in
    whatever order the answers arrive, once every pending call has had
    its answers the joined promise fulfils, with six results that are the
    values the six calls returned: no call rejects. *)
Theorem loadAllConfigs_settles cm clock :
  (exists pool cm0 t0,
     loadAllConfigs_begin clock cm = (Ok pool, cm0, t0)
     /\ Forall2 called_for
          ["cities"; "product-types"; "vendor-categories"; "metro-areas";
           "ui-strings"; "region-settings"] pool
     /\ (cache cm = ∅ ->
         pool = map AwaitSnapshot configTypes
         /\ remote_gets t0 = configTypes))
  /\ (forall sched,
       (forall i, i < 6 -> 2 <= answers i sched) ->
       exists pool0 cm0 t0 pool1 cm1 t1 results,
         loadAllConfigs_begin clock cm = (Ok pool0, cm0, t0)
         /\ pool_run pool0 sched cm0 = (Ok pool1, cm1, t1)
         /\ allSettled pool1 = Some results
         /\ Forall is_fulfilled results
         /\ length results = 6
         /\ Forall2 settled_as pool1 results
         /\ loadAllConfigs clock sched cm = (Ok (Some tt), cm1, t0 ++ t1))
  /\ (forall sched,
       exists pool0 cm0 t0 pool1 cm1 t1,
         loadAllConfigs_begin clock cm = (Ok pool0, cm0, t0)
         /\ pool_run pool0 sched cm0 = (Ok pool1, cm1, t1)
         /\ length pool1 = 6
         /\ loadAllConfigs clock sched cm
            = (Ok (if existsb pending pool1 then None else Some tt),
               cm1, t0 ++ t1)
         /\ forall i type,
              pool0 !! i = Some (AwaitSnapshot type) -> answers i sched = 0 ->
              loadAllConfigs clock sched cm = (Ok None, cm1, t0 ++ t1))
  /\ (forall pool : list Task,
       (existsb pending pool = true -> allSettled pool = None)
       /\ (existsb pending pool = false ->
           exists results,
             allSettled pool = Some results
             /\ Forall2 settled_as pool results)).
Proof.
  destruct (loadAll_calls_run configTypes clock 0 cm)
    as (pool0 & cm0 & t0 & E0 & Hcalled & Hcold).
  pose proof (called_for_not_rejected _ _ Hcalled) as Hnr.
  assert (Hlen0 : length pool0 = 6).
  { now rewrite <- (Forall2_length _ _ _ Hcalled). }
  split; [|split; [|split]].
  - exists pool0, cm0, t0. split; [exact E0|]. split; [exact Hcalled|].
    intros Hempty. destruct (Hcold Hempty) as (-> & _ & ->). auto.
  - intros sched Hfair.
    destruct (pool_run_run sched pool0 cm0 Hnr)
      as (pool1 & cm1 & t1 & E1 & Hnr1 & Hrank).
    pose proof (pool_run_length _ _ _ _ _ _ E1) as Hl.
    assert (Hlen : forall i t, pool1 !! i = Some t -> rank t = 0).
    { intros i t Hi.
      assert (Hi0 : is_Some (pool0 !! i)).
      { apply lookup_lt_is_Some. apply lookup_lt_Some in Hi. lia. }
      destruct Hi0 as [t0' H0].
      destruct (called_for_rank _ _ _ _ Hcalled H0) as [Hi6 Hr2].
      destruct (Hrank i t0' H0) as (t' & Hi' & Hr').
      assert (t' = t) as -> by congruence.
      specialize (Hfair i Hi6). lia. }
    destruct (allSettled_done pool1 Hnr1 Hlen) as (results & Eres & Hres).
    pose proof (allSettled_results _ _ Eres) as Hrel.
    exists pool0, cm0, t0, pool1, cm1, t1, results.
    split; [exact E0|]. split; [exact E1|]. split; [exact Eres|].
    split; [exact Hres|].
    split; [rewrite <- (Forall2_length _ _ _ Hrel); lia|].
    split; [exact Hrel|].
    unfold loadAllConfigs, loadAllConfigs_begin, bindM.
    rewrite E0, E1, Eres. cbn.
    now rewrite app_nil_r.
  - intros sched.
    destruct (pool_run_run sched pool0 cm0 Hnr)
      as (pool1 & cm1 & t1 & E1 & _ & _).
    pose proof (pool_run_length _ _ _ _ _ _ E1) as Hl.
    pose proof (loadAllConfigs_run clock sched cm _ _ _ _ _ _ E0 E1) as Hrun.
    exists pool0, cm0, t0, pool1, cm1, t1.
    split; [exact E0|]. split; [exact E1|]. split; [lia|].
    split; [exact Hrun|].
    intros i type Hi Ha. rewrite Hrun.
    assert (Hp : existsb pending pool1 = true).
    { apply existsb_exists. exists (AwaitSnapshot type).
      split; [|reflexivity]. apply list_elem_of_In.
      apply (list_elem_of_lookup_2 _ i).
      now rewrite (pool_run_unanswered _ _ _ _ _ _ _ E1 Ha). }
    now rewrite Hp.
  - intros pool. split; [apply allSettled_pending|].
    intros Hp. destruct (allSettled_settled _ Hp) as (rs & E).
    exists rs. split; [exact E|]. now apply allSettled_results.
Qed.

Lemma loadAllConfigs_settles_witness :
  (forall i, i < 6 -> 2 <= answers i sample_schedule)
  /\ exists pool0 cm0 t0 pool1 cm1 t1 results,
       loadAllConfigs_begin (fun i => Z.of_nat i) sample_manager
       = (Ok pool0, cm0, t0)
       /\ pool_run pool0 sample_schedule cm0 = (Ok pool1, cm1, t1)
       /\ allSettled pool1 = Some results
       /\ Forall is_fulfilled results
       /\ length results = 6
       /\ Forall2 settled_as pool1 results
       /\ loadAllConfigs (fun i => Z.of_nat i) sample_schedule sample_manager
          = (Ok (Some tt), cm1, t0 ++ t1).
Proof.
  assert (H : forall i, i < 6 -> 2 <= answers i sample_schedule).
  { intros i Hi.
    destruct i as [|[|[|[|[|[|i]]]]]]; [vm_compute; lia ..| lia]. }
  split; [exact H|].
  exact (proj1 (proj2 (loadAllConfigs_settles sample_manager
                         (fun i => Z.of_nat i)))
           sample_schedule H).
Defined.

Example loadAllConfigs_pending_without_answers :
  (loadAllConfigs (fun i => Z.of_nat i) [] sample_manager).1.1 = Ok None
  /\ (loadAllConfigs (fun i => Z.of_nat i) (firstn 3 sample_schedule)
        sample_manager).1.1 = Ok None.
Proof. vm_compute. split; reflexivity. Qed.

Example loadAllConfigs_sample_gets :
  remote_gets
    (loadAllConfigs (fun i => Z.of_nat i) sample_schedule sample_manager).2
  = configTypes.
Proof. vm_compute. reflexivity. Qed.

(** ** [getConfigItem] *)

Lemma find_by_key_unmatched key items :
  Forall (fun item => exists o, item = VObj o
                                /\ strict_eq_str (obj_get o "key") key = false)
         items ->
  find_by_key key items = Ok VUndefined.
Proof.
  induction 1 as [|item items (o & -> & Hk) _ IH]; [reflexivity|].
  simpl. now rewrite Hk.
Qed.

Lemma getConfigItem_unmatched cm type key o items :
  getConfig cm type = VObj o ->
  obj_get o "items" = VArr items ->
  Forall (fun item => exists o', item = VObj o'
                                 /\ strict_eq_str (obj_get o' "key") key = false)
         items ->
  getConfigItem cm type key = Ok VUndefined.
Proof.
  intros Hc Hi Hitems. unfold getConfigItem. rewrite Hc. simpl.
  rewrite Hi. simpl. now apply find_by_key_unmatched.
Qed.

Lemma getConfigItem_no_items cm type key o :
  getConfig cm type = VObj o ->
  truthy (obj_get o "items") = false ->
  getConfigItem cm type key = Ok VNull.
Proof.
  intros Hc Hi. unfold getConfigItem. rewrite Hc. simpl. now rewrite Hi.
Qed.

(** C5 (the code departs from it). With the default cities loaded, a key
    that matches no item makes [getConfigItem] return [undefined], the
    result of [Array.prototype.find], and not [null]; [null] is returned
    only on the other path, for a config without [items]. *)
Theorem getConfigItem_unmatched_key_undefined :
  let cm := (loadConfigType "cities"
               (sample_env 1762041600500 (Throw (RemoteError "unavailable")))
               sample_manager).1.2 in
  getConfigItem cm "cities" "atlantis" = Ok VUndefined
  /\ getConfigItem cm "cities" "atlantis" <> Ok VNull
  /\ getConfigItem cm "ui-strings" "atlantis" = Ok VNull.
Proof.
  intros cm. split; [|split].
  - vm_compute. reflexivity.
  - vm_compute. discriminate.
  - vm_compute. reflexivity.
Qed.

(** * Further properties of the configuration manager *)

Lemma getConfig_truthy cm type : truthy (getConfig cm type) = true.
Proof. apply truthy_js_or_obj. Qed.

Lemma strict_eq_bool_true v b : strict_eq_bool v b = true <-> v = VBool b.
Proof.
  destruct v; simpl; try (split; [discriminate | intros [=]]).
  destruct b0, b; simpl; split; try reflexivity; try discriminate;
    intros [=].
Qed.

Lemma shouldShowVendorInfo_flag cm context :
  shouldShowVendorInfo cm context
  = catch_return
      (let cfg := getConfig cm "vendor-display" in
       if negb (truthy cfg) || Nat.eqb (length (object_keys cfg)) 0
       then Ok true
       else bindR (getProp cfg (vendor_flag context).1) (fun v =>
              Ok (negb (strict_eq_bool v (vendor_flag context).2))))
      (fun _ => true).
Proof.
  unfold shouldShowVendorInfo, vendor_flag. cbv zeta.
  destruct (negb (truthy (getConfig cm "vendor-display"))
            || Nat.eqb (length (object_keys (getConfig cm "vendor-display"))) 0);
    [reflexivity|].
  destruct (String.eqb_spec context "name") as [->|]; [reflexivity|].
  destruct (String.eqb_spec context "icon") as [->|]; [reflexivity|].
  destruct (String.eqb_spec context "avatar") as [->|]; [reflexivity|].
  destruct (String.eqb_spec context "modal") as [->|]; reflexivity.
Qed.

(** X1. Vendor information is hidden only on an explicit boolean: for
    every context, [shouldShowVendorInfo(context)] is [false] exactly when
    the 'vendor-display' config is a non-empty object whose flag for that
    context ([showVendorNames], [showVendorIcons], [showVendorAvatars];
    [hideVendorInModal] for 'modal') is literally [false] ([true] for
    'modal').  A missing config, an empty one, a missing flag or a flag
    of another type all show the vendor. *)
Theorem shouldShowVendorInfo_hidden_iff cm context :
  shouldShowVendorInfo cm context = false
  <-> exists o,
        getConfig cm "vendor-display" = VObj o /\ o <> []
        /\ obj_get o (vendor_flag context).1
           = VBool (vendor_flag context).2.
Proof.
  rewrite shouldShowVendorInfo_flag. cbv zeta.
  pose proof (getConfig_truthy cm "vendor-display") as Ht.
  destruct (getConfig cm "vendor-display") as [| |b|q|s|l|o|n] eqn:Hc;
    try discriminate.
  1-4, 6: split; [|intros (o & [=] & _)];
    destruct (negb _ || _); simpl; discriminate.
  (* an object *)
  unfold object_keys. simpl. rewrite length_map.
  destruct o as [|kv o]; simpl.
  - split; [discriminate | intros (o' & [= <-] & Hne & _); congruence].
  - split.
    + intros H. apply negb_false_iff, strict_eq_bool_true in H.
      exists (kv :: o). split; [reflexivity|]. split; [discriminate|exact H].
    + intros (o' & [= <-] & _ & H). rewrite H.
      apply negb_false_iff, strict_eq_bool_true. reflexivity.
Qed.

Lemma shouldShowVendorInfo_hidden_iff_witness :
  let cm := (updateConfig "vendor-display"
               (VObj [("showVendorNames", VBool true);
                      ("hideVendorInModal", VBool true)])
               (Ok tt) sample_manager).1.2 in
  (exists o,
     getConfig cm "vendor-display" = VObj o /\ o <> []
     /\ obj_get o (vendor_flag "modal").1 = VBool (vendor_flag "modal").2)
  /\ shouldShowVendorInfo cm "modal" = false.
Proof.
  intros cm.
  assert (H : exists o,
             getConfig cm "vendor-display" = VObj o /\ o <> []
             /\ obj_get o (vendor_flag "modal").1
                = VBool (vendor_flag "modal").2).
  { eexists. split; [vm_compute; reflexivity|].
    split; [discriminate | reflexivity]. }
  split; [exact H|].
  exact (proj2 (shouldShowVendorInfo_hidden_iff cm "modal") H).
Defined.

Lemma loadCriticalConfigs_resume_run resp cm :
  exists critical,
    loadCriticalConfigs_resume resp cm
    = (Ok (VObj critical),
       with_configs (<["critical" := VObj critical]> (configs cm)) cm,
       [Stored "critical" (VObj critical)])
    /\ critical = match resp with
                  | Ok (Some d) => object_assign critical_defaults d
                  | _ => critical_defaults
                  end.
Proof.
  destruct resp as [[d|]|e]; eexists; split; reflexivity.
Qed.

(** X2. [loadCriticalConfigs()] always completes normally with one remote
    read and stores what it returns under 'critical' without touching the
    cache.  When the document 'ui-critical' exists, each of its keys
    overrides the built-in value and every other built-in key keeps its
    value; when the document is missing or the read fails, the result is
    the four built-in values. *)
Theorem loadCriticalConfigs_merges cm resp :
  exists critical cm',
    loadCriticalConfigs resp cm
    = (Ok (VObj critical), cm',
       [RemoteGet "ui-critical"; Stored "critical" (VObj critical)])
    /\ getConfig cm' "critical" = VObj critical
    /\ cache cm' = cache cm
    /\ (forall d, resp = Ok (Some d) -> obj_wf d ->
        forall k, assoc k critical
                  = match assoc k d with
                    | Some v => Some v
                    | None => assoc k critical_defaults
                    end)
    /\ (resp = Ok None \/ (exists e, resp = Throw e) ->
        critical = critical_defaults).
Proof.
  destruct (loadCriticalConfigs_resume_run resp cm) as (critical & E & Hc).
  exists critical, (with_configs (<["critical" := VObj critical]> (configs cm)) cm).
  split.
  { unfold loadCriticalConfigs, loadCriticalConfigs_begin, bindM at 1, emit.
    rewrite E. reflexivity. }
  split; [apply getConfig_stored; [apply lookup_insert_eq | reflexivity]|].
  split; [reflexivity|]. split.
  - intros d -> Hd k. subst critical. unfold object_assign.
    now apply assoc_fold_set.
  - intros [->|[e ->]]; exact Hc.
Qed.

Lemma loadCriticalConfigs_merges_witness :
  let d := [("defaultRegion", VStr "midwest"); ("banner", VStr "Hello")] in
  obj_wf d
  /\ exists critical,
       (loadCriticalConfigs (Ok (Some d)) sample_manager).1.1
       = Ok (VObj critical)
       /\ forall k, assoc k critical
                    = match assoc k d with
                      | Some v => Some v
                      | None => assoc k critical_defaults
                      end.
Proof.
  intros d.
  assert (H : obj_wf d).
  { unfold obj_wf. apply (bool_decide_unpack _). vm_compute. exact I. }
  split; [exact H|].
  destruct (loadCriticalConfigs_merges sample_manager (Ok (Some d)))
    as (critical & cm' & E & _ & _ & Hm & _).
  exists critical. split; [now rewrite E|].
  exact (Hm d eq_refl H).
Defined.

(** The loads [loadAllConfigs] starts touch nothing but the configs of
    the types they serve from the cache. *)
Lemma loadAll_calls_frame types clock i cm :
  let cm' := (loadAll_calls clock i types cm).1.2 in
  cache cm' = cache cm /\ callbacks cm' = callbacks cm
  /\ isInitialized cm' = isInitialized cm
  /\ sessionId cm' = sessionId cm /\ cacheTimeout cm' = cacheTimeout cm
  /\ forall type, type ∉ types -> configs cm' !! type = configs cm !! type.
Proof.
  revert i cm. induction types as [|ty rest IH]; intros i cm; cbn zeta.
  - simpl. repeat split; auto.
  - assert (Hstep : exists cm1 r1 t1,
               loadConfigType_call ty (clock i) cm = (r1, cm1, t1)
               /\ cache cm1 = cache cm /\ callbacks cm1 = callbacks cm
               /\ isInitialized cm1 = isInitialized cm
               /\ sessionId cm1 = sessionId cm
               /\ cacheTimeout cm1 = cacheTimeout cm
               /\ forall type, type <> ty ->
                    configs cm1 !! type = configs cm !! type).
    { unfold loadConfigType_call. rewrite loadConfigType_begin_run.
      destruct (cache cm !! cacheKey ty (sessionId cm)) as [c|];
        [destruct (clock i - timestamp c <? cacheTimeout cm)%Z|];
        eexists _, _, _; (split; [reflexivity|]); repeat split; try reflexivity.
      intros type Hne. simpl. now apply lookup_insert_ne. }
    destruct Hstep as (cm1 & r1 & t1 & E1 & H1 & H2 & H3 & H4 & H5 & H6).
    specialize (IH (S i) cm1). cbn zeta in IH.
    destruct IH as (I1 & I2 & I3 & I4 & I5 & I6).
    set (st := (loadAll_calls clock i (ty :: rest) cm).1.2).
    assert (Hst : st = match r1 with
                       | Ok _ => (loadAll_calls clock (S i) rest cm1).1.2
                       | Throw _ => cm1
                       end).
    { subst st. cbn [loadAll_calls]. unfold bindM at 1. rewrite E1.
      destruct r1 as [p|e]; [|reflexivity].
      unfold bindM.
      destruct (loadAll_calls clock (S i) rest cm1) as [[[ps|e] cm2] t2];
        reflexivity. }
    clearbody st. subst st. destruct r1 as [p|e].
    + repeat split; try congruence.
      intros type [Hne Hin]%not_elem_of_cons.
      rewrite (I6 type Hin). now apply H6.
    + repeat split; try congruence.
      intros type [Hne Hin]%not_elem_of_cons. now apply H6.
Qed.

(** X3. [initialize()] never takes its fallback path: for every answer
    of the remote store it returns [true], having read 'ui-critical'
    first, stored the critical configuration, started one load for each
    of the six config types, set [isInitialized], and then called every
    registered callback once with 'initialized'.  The cache and the list
    of callbacks are as before, and [getConfig('critical')] is what
    [loadCriticalConfigs] produced. *)
Theorem initialize_always_succeeds cm resp clock ens :
  exists pool cm' critical loads,
    initialize resp clock ens cm
    = (Ok (true, pool), cm',
       RemoteGet "ui-critical" :: Stored "critical" (VObj critical)
         :: loads ++ calls "initialized" VNull cm)
    /\ isInitialized cm' = true
    /\ Forall2 called_for configTypes pool
    /\ callbacks cm' = callbacks cm
    /\ cache cm' = cache cm
    /\ getConfig cm' "critical" = VObj critical
    /\ critical = match resp with
                  | Ok (Some d) => object_assign critical_defaults d
                  | _ => critical_defaults
                  end.
Proof.
  destruct (loadCriticalConfigs_resume_run resp cm) as (critical & E & Hc).
  set (cm1 := with_configs (<["critical" := VObj critical]> (configs cm)) cm)
    in E.
  destruct (loadAll_calls_run configTypes clock 0 cm1)
    as (pool & cm2 & t2 & E2 & Hcalled & _).
  pose proof (loadAll_calls_frame configTypes clock 0 cm1) as Hf.
  cbn zeta in Hf. rewrite E2 in Hf. simpl in Hf.
  destruct Hf as (Hcache & Hcb & Hinit & Hsid & Hto & Hcfg).
  exists pool, (with_isInitialized true cm2), critical, t2.
  split.
  { unfold initialize, initialize_begin, loadCriticalConfigs_begin,
      bindM at 1, emit, initialize_resume, tryM, bindM at 1.
    rewrite E. unfold bindM at 1. unfold loadAllConfigs_begin. rewrite E2.
    unfold bindM at 1, set_isInitialized, bindM at 1.
    rewrite notifyCallbacks_run. cbn.
    unfold calls. cbn. rewrite Hcb. rewrite ?app_nil_r. reflexivity. }
  split; [reflexivity|]. split; [exact Hcalled|].
  split; [exact Hcb|]. split; [exact Hcache|]. split; [|exact Hc].
  apply getConfig_stored; [|reflexivity].
  cbn. rewrite Hcfg.
  - apply lookup_insert_eq.
  - unfold configTypes. intros Hin. apply list_elem_of_In in Hin.
    simpl in Hin. intuition discriminate.
Qed.

Lemma filter_active_run items :
  filter_active items
  = if existsb is_nullish items
    then filter_active items
    else Ok (List.filter is_active items).
Proof.
  destruct (existsb is_nullish items) eqn:E; [reflexivity|].
  induction items as [|item items IH]; [reflexivity|].
  simpl in E. apply orb_false_iff in E as [Hi Hr].
  cbn [filter_active List.filter]. rewrite (IH Hr). unfold is_active.
  destruct item; try discriminate; reflexivity.
Qed.

Lemma filter_active_nullish items :
  existsb is_nullish items = true -> exists e, filter_active items = Throw e.
Proof.
  induction items as [|item items IH]; [discriminate|].
  simpl. intros [Hi|Hr]%orb_true_iff.
  - destruct item; try discriminate; simpl; eauto.
  - destruct (IH Hr) as [e He]. rewrite He.
    destruct (getProp item "isActive"); simpl; eauto.
Qed.

(** X4. [getActiveItems(type)] returns the empty array for a type that
    was never loaded; for a config whose [items] is an array it returns,
    in order, exactly the items whose [isActive] is truthy, and it throws
    exactly when the array holds a [null] or [undefined] item. *)
Theorem getActiveItems_filters cm type :
  (configs cm !! type = None -> getActiveItems cm type = Ok (VArr []))
  /\ forall o items,
       getConfig cm type = VObj o -> obj_get o "items" = VArr items ->
       (existsb is_nullish items = false ->
        getActiveItems cm type = Ok (VArr (List.filter is_active items)))
       /\ (existsb is_nullish items = true ->
           exists e, getActiveItems cm type = Throw e).
Proof.
  split.
  - intros H. unfold getActiveItems. now rewrite (getConfig_none _ _ H).
  - intros o items Hc Hi. unfold getActiveItems. rewrite Hc. simpl.
    rewrite Hi. simpl. split.
    + intros E. rewrite filter_active_run, E. reflexivity.
    + intros E. destruct (filter_active_nullish _ E) as [e ->].
      simpl. eauto.
Qed.

Lemma getActiveItems_filters_witness :
  let cm := (updateConfig "cities"
               (VObj [("items", VArr
                  [VObj [("key", VStr "boston"); ("isActive", VBool true)];
                   VObj [("key", VStr "salem"); ("isActive", VBool false)];
                   VObj [("key", VStr "lynn")];
                   VObj [("key", VStr "lowell"); ("isActive", VNum 1)]])])
               (Ok tt) sample_manager).1.2 in
  configs sample_manager !! "cities" = None
  /\ getActiveItems sample_manager "cities" = Ok (VArr [])
  /\ getActiveItems cm "cities"
     = Ok (VArr [VObj [("key", VStr "boston"); ("isActive", VBool true)];
                 VObj [("key", VStr "lowell"); ("isActive", VNum 1)]]).
Proof.
  intros cm.
  assert (H : configs sample_manager !! "cities" = None) by reflexivity.
  split; [exact H|]. split.
  - exact (proj1 (getActiveItems_filters sample_manager "cities") H).
  - vm_compute. reflexivity.
Defined.

Lemma find_by_key_found key items item :
  find_by_key key items = Ok item -> is_nullish item = false ->
  exists before after,
    items = before ++ item :: after
    /\ getProp item "key" = Ok (VStr key)
    /\ Forall (fun x => exists k, getProp x "key" = Ok k
                                  /\ strict_eq_str k key = false) before.
Proof.
  induction items as [|x items IH]; simpl.
  - intros [= <-]. discriminate.
  - destruct (getProp x "key") as [k|e] eqn:Hk; simpl; [|discriminate].
    destruct (strict_eq_str k key) eqn:Heq.
    + intros [= <-] _. exists [], items. split; [reflexivity|].
      split; [|constructor].
      destruct k; try discriminate. simpl in Heq.
      apply String.eqb_eq in Heq. now subst.
    + intros H Hn. destruct (IH H Hn) as (b & a & -> & Hi & Hb).
      exists (x :: b), a. split; [reflexivity|]. split; [exact Hi|].
      constructor; [eauto | exact Hb].
Qed.

(** X5. Whatever [getConfigItem(type, key)] returns that is not [null]
    or [undefined] is an item of the [items] array of that config whose
    [key] is exactly the string asked for, and it is the first such
    item: no item before it has that key. *)
Theorem getConfigItem_first_match cm type key item :
  getConfigItem cm type key = Ok item -> is_nullish item = false ->
  exists o before after,
    getConfig cm type = VObj o
    /\ obj_get o "items" = VArr (before ++ item :: after)
    /\ getProp item "key" = Ok (VStr key)
    /\ Forall (fun x => exists k, getProp x "key" = Ok k
                                  /\ strict_eq_str k key = false) before.
Proof.
  unfold getConfigItem. intros H Hn.
  pose proof (getConfig_truthy cm type) as Ht.
  destruct (getConfig cm type) as [| |b|q|s|l|o|n] eqn:Hc;
    try discriminate; simpl in H;
    try (injection H as <-; discriminate).
  destruct (truthy (obj_get o "items")) eqn:Hi;
    [|injection H as <-; discriminate].
  destruct (obj_get o "items") as [| |b|q|s|l|o'|n] eqn:Ho; try discriminate.
  destruct (find_by_key_found _ _ _ H Hn) as (bf & af & -> & Hk & Hb).
  exists o, bf, af. auto.
Qed.

Lemma getConfigItem_first_match_witness :
  let cm := (loadConfigType "cities"
               (sample_env 1762041600500 (Ok None)) sample_manager).1.2 in
  let item :=
    VObj [("id", VStr "city_k3j9x0aq2o01"); ("key", VStr "providence");
          ("name", VStr "Providence"); ("state", VStr "RI");
          ("coordinates", latlng 41.8240 (-71.4128));
          ("isActive", VBool true); ("priority", VNum 2);
          ("metroArea", VStr "providence-metro")] in
  getConfigItem cm "cities" "providence" = Ok item
  /\ is_nullish item = false
  /\ exists o before after,
       getConfig cm "cities" = VObj o
       /\ obj_get o "items" = VArr (before ++ item :: after)
       /\ getProp item "key" = Ok (VStr "providence")
       /\ Forall (fun x => exists k, getProp x "key" = Ok k
                            /\ strict_eq_str k "providence" = false) before.
Proof.
  intros cm item.
  assert (H1 : getConfigItem cm "cities" "providence" = Ok item).
  { vm_compute. reflexivity. }
  assert (H2 : is_nullish item = false) by reflexivity.
  split; [exact H1|]. split; [exact H2|].
  exact (getConfigItem_first_match cm "cities" "providence" item H1 H2).
Defined.

Lemma bind_remote_gets {A B} (m : M A) (k : A -> M B) cm a cm1 t1 :
  m cm = (Ok a, cm1, t1) ->
  remote_gets (bindM m k cm).2 = remote_gets t1 ++ remote_gets (k a cm1).2.
Proof.
  intros E. unfold bindM. rewrite E.
  destruct (k a cm1) as [[r cm2] t2]. simpl. apply remote_gets_app.
Qed.

(** X6. After [clearCache()] every [loadConfigType(type)] reads the remote
    store, for every type and at every time, whatever was cached before;
    clearing leaves the loaded configs as they are. *)
Theorem clearCache_forces_remote_read cm type env :
  remote_gets ((clearCache >> loadConfigType type env) cm).2 = [type]
  /\ (forall t, getConfig (clearCache cm).1.2 t = getConfig cm t)
  /\ cache (clearCache cm).1.2 = ∅.
Proof.
  split; [|split; reflexivity].
  rewrite (bind_remote_gets clearCache _ cm tt (with_cache ∅ cm) [] eq_refl).
  simpl. apply remote_gets_stale. reflexivity.
Qed.

(** X7. [loadConfigType] writes the cache only when the remote read
    answers.  A cache hit leaves the cache exactly as it was (the entry
    keeps its timestamp: reading does not extend its life), and so does a
    failed remote read (the fallback default is not cached, and a stale
    entry is not evicted); after a read that answered, the cache differs
    only by the entry of that type, which holds the value returned and
    the clock reading of the store. *)
Theorem loadConfigType_cache_writes cm type env :
  (cache_fresh cm type (now_check env) = true ->
   cache (loadConfigType type env cm).1.2 = cache cm)
  /\ (forall e, cache_fresh cm type (now_check env) = false ->
        fetch env = Throw e ->
        cache (loadConfigType type env cm).1.2 = cache cm)
  /\ (forall s, cache_fresh cm type (now_check env) = false ->
        fetch env = Ok s ->
        exists v,
          (loadConfigType type env cm).1.1 = Ok v
          /\ cache (loadConfigType type env cm).1.2
             = <[cacheKey type (sessionId cm) := mkEntry v (now_store env)]>
                 (cache cm)).
Proof.
  split; [|split].
  - unfold cache_fresh. intros H.
    destruct (cache cm !! cacheKey type (sessionId cm)) as [c|] eqn:Hc;
      [|discriminate].
    apply Z.ltb_lt in H. now rewrite (loadConfigType_run_hit _ _ _ _ Hc H).
  - intros e Hs Hf. now rewrite (loadConfigType_run_fail _ _ _ _ Hs Hf).
  - intros [d|] Hs Hf.
    + rewrite (loadConfigType_run_doc _ _ _ _ Hs Hf). eauto.
    + rewrite (loadConfigType_run_missing _ _ _ Hs Hf). eauto.
Qed.

Lemma loadConfigType_cache_writes_witness :
  let cm := (loadConfigType "cities"
               (sample_env 1000 (Ok (Some sample_doc))) sample_manager).1.2 in
  let env := sample_env 200000 (Throw (RemoteError "unused")) in
  cache_fresh cm "cities" (now_check env) = true
  /\ cache (loadConfigType "cities" env cm).1.2 = cache cm.
Proof.
  intros cm env.
  assert (H : cache_fresh cm "cities" (now_check env) = true)
    by (vm_compute; reflexivity).
  split; [exact H|].
  exact (proj1 (loadConfigType_cache_writes cm "cities" env) H).
Defined.

(** X8. A successful [updateConfig(type, data)] invalidates the cache of
    that type: the next [loadConfigType(type)], at any time, reads the
    remote store, and when the document exists its data replaces the
    locally merged config. *)
Theorem updateConfig_then_load_reads_remote cm type d env :
  remote_gets ((updateConfig type d (Ok tt) >> loadConfigType type env) cm).2
  = [type]
  /\ forall doc, fetch env = Ok (Some doc) ->
       ((updateConfig type d (Ok tt) >> loadConfigType type env) cm).1.1
       = Ok (VObj doc)
       /\ getConfig
            ((updateConfig type d (Ok tt) >> loadConfigType type env) cm).1.2
            type
          = VObj doc.
Proof.
  set (cm1 := with_cache (delete (cacheKey type (sessionId cm)) (cache cm))
                (with_configs
                   (<[type := VObj (spread2 (getConfig cm type) d)]>
                      (configs cm)) cm)).
  assert (Hs : cache_fresh cm1 type (now_check env) = false).
  { unfold cache_fresh. simpl. now rewrite lookup_delete_eq. }
  split.
  - rewrite (bind_remote_gets _ _ cm true cm1 _ (updateConfig_run_ok type d cm)).
    rewrite (remote_gets_stale _ _ _ Hs). cbn.
    now rewrite remote_gets_calls.
  - intros doc Hf. unfold bindM. rewrite updateConfig_run_ok. fold cm1.
    rewrite (loadConfigType_run_doc _ _ _ _ Hs Hf). simpl.
    split; [reflexivity|].
    apply getConfig_stored; [apply lookup_insert_eq | reflexivity].
Qed.

Lemma updateConfig_then_load_reads_remote_witness :
  let env := sample_env 1762041600500 (Ok (Some sample_doc)) in
  fetch env = Ok (Some sample_doc)
  /\ ((updateConfig "cities" (VObj [("items", VArr [])]) (Ok tt)
       >> loadConfigType "cities" env) sample_manager).1.1
     = Ok (VObj sample_doc).
Proof.
  intros env.
  assert (H : fetch env = Ok (Some sample_doc)) by reflexivity.
  split; [exact H|].
  exact (proj1 (proj2 (updateConfig_then_load_reads_remote sample_manager
                         "cities" (VObj [("items", VArr [])]) env) _ H)).
Defined.

Lemma obj_set_fresh k v (o : JSObj) : k ∉ o.*1 -> obj_set k v o = o ++ [(k, v)].
Proof.
  induction o as [|[k1 v1] o IH]; simpl; [reflexivity|].
  intros [Hne Ho]%not_elem_of_cons.
  destruct (String.eqb_spec k1 k) as [->|_]; [congruence|].
  now rewrite (IH Ho).
Qed.

Lemma fold_set_fresh (l acc : JSObj) :
  NoDup (acc.*1 ++ l.*1) ->
  fold_left (fun a kv => obj_set kv.1 kv.2 a) l acc = acc ++ l.
Proof.
  revert acc. induction l as [|[k v] l IH]; intros acc Hnd; simpl.
  - now rewrite app_nil_r.
  - rewrite obj_set_fresh.
    + rewrite IH; [now rewrite <- app_assoc|].
      rewrite fmap_app. simpl. rewrite <- app_assoc. exact Hnd.
    + simpl in Hnd. apply NoDup_app in Hnd as (_ & Hd & _).
      intros Hin. apply (Hd k Hin). now left.
Qed.

(** X9. For a type that holds no config yet, a successful
    [updateConfig(type, data)] with an object [data] makes
    [getConfig(type)] exactly [data]: the same properties with the same
    values in the same order; a failed one leaves [getConfig(type)] the
    empty mapping. *)
Theorem updateConfig_new_type_roundtrip cm type o :
  configs cm !! type = None -> obj_wf o ->
  getConfig (updateConfig type (VObj o) (Ok tt) cm).1.2 type = VObj o
  /\ forall e,
       getConfig (updateConfig type (VObj o) (Throw e) cm).1.2 type = VObj [].
Proof.
  intros Hc Hwf. split.
  - rewrite updateConfig_run_ok. simpl.
    rewrite getConfig_stored with (v := VObj (spread2 (getConfig cm type) (VObj o)));
      [|apply lookup_insert_eq | reflexivity].
    rewrite (getConfig_none _ _ Hc). unfold spread2. simpl.
    now rewrite fold_set_fresh.
  - intros e. rewrite updateConfig_run_fail. simpl. now apply getConfig_none.
Qed.

Lemma updateConfig_new_type_roundtrip_witness :
  let o := [("adminEmails", strs ["ops@packslist.com"]); ("strict", VBool true)] in
  configs sample_manager !! "auth-settings" = None
  /\ obj_wf o
  /\ getConfig (updateConfig "auth-settings" (VObj o) (Ok tt)
                  sample_manager).1.2 "auth-settings"
     = VObj o.
Proof.
  intros o.
  assert (H1 : configs sample_manager !! "auth-settings" = None)
    by reflexivity.
  assert (H2 : obj_wf o).
  { unfold obj_wf. apply (bool_decide_unpack _). vm_compute. exact I. }
  split; [exact H1|]. split; [exact H2|].
  exact (proj1 (updateConfig_new_type_roundtrip sample_manager
                  "auth-settings" o H1 H2)).
Defined.

Lemma run_ops_cacheTimeout ops rnd now :
  cacheTimeout (run_ops ops (newConfigManager rnd now)).1 = 300000%Z.
Proof.
  destruct (run_ops_ok ops _ (newConfigManager_inv rnd now))
    as (_ & _ & H & _).
  exact H.
Qed.

(** X10. No operation changes the cache timeout or the session: after
    any history of a manager the timeout is 300000 ms, and
    [loadConfigType(type)] called when the clock reads [t] is served
    from the cache (it returns the cached data at once and issues no
    remote read) exactly when an entry is filed under the key of [type]
    for the session generated at construction and
    [t - timestamp < 300000]; from an age of exactly five minutes on, the
    call reads the remote store. *)
Theorem cache_timeout_is_five_minutes rnd now ops type env :
  let cm := (run_ops ops (newConfigManager rnd now)).1 in
  let k := cacheKey type (generateSessionId rnd now) in
  let t := now_check env in
  cacheTimeout cm = 300000%Z
  /\ sessionId cm = generateSessionId rnd now
  /\ (forall v,
        (loadConfigType_begin type t cm).1.1 = Ok (Some v)
        <-> exists e, cache cm !! k = Some e
                      /\ (t - timestamp e < 300000)%Z /\ v = data e)
  /\ (remote_gets (loadConfigType type env cm).2 = []
      <-> exists e, cache cm !! k = Some e /\ (t - timestamp e < 300000)%Z)
  /\ (forall e, cache cm !! k = Some e ->
        ((t - timestamp e < 300000)%Z ->
         loadConfigType type env cm
         = (Ok (data e), with_configs (<[type := data e]> (configs cm)) cm,
            [Stored type (data e)]))
        /\ ((300000 <= t - timestamp e)%Z ->
            loadConfigType_begin type t cm = (Ok None, cm, [RemoteGet type])
            /\ remote_gets (loadConfigType type env cm).2 = [type])).
Proof.
  intros cm k t. pose proof (run_ops_cacheTimeout ops rnd now) as Ht.
  pose proof (run_ops_sessionId ops rnd now) as Hs.
  fold cm in Ht, Hs.
  assert (Hfresh : cache_fresh cm type t
                   = match cache cm !! k with
                     | Some e => (t - timestamp e <? 300000)%Z
                     | None => false
                     end).
  { unfold cache_fresh, k. now rewrite Hs, Ht. }
  split; [exact Ht|]. split; [exact Hs|]. split; [|split].
  - intros v. rewrite loadConfigType_begin_run, Hs, Ht. fold k.
    destruct (cache cm !! k) as [e|].
    + destruct (Z.ltb_spec (t - timestamp e) 300000) as [Hlt|Hge]; cbn [fst].
      * split; [intros [= <-]; eauto|]. now intros (e' & [= <-] & _ & ->).
      * split; [discriminate|]. intros (e' & [= <-] & Hlt & _). lia.
    + cbn [fst]. split; [discriminate | intros (e' & [=] & _)].
  - split.
    + intros Hg. destruct (cache_fresh cm type t) eqn:Hf.
      * destruct (cache cm !! k) as [e|]; [|discriminate].
        symmetry in Hfresh. apply Z.ltb_lt in Hfresh. eauto.
      * rewrite (remote_gets_stale type env cm Hf) in Hg. discriminate.
    + intros (e & He & Hlt).
      rewrite (loadConfigType_run_hit type env cm e);
        [reflexivity | now rewrite Hs | now rewrite Ht].
  - intros e He. split.
    + intros Hlt. apply loadConfigType_run_hit; [now rewrite Hs | now rewrite Ht].
    + intros Hge.
      assert (Hf : cache_fresh cm type t = false).
      { rewrite Hfresh, He. apply Z.ltb_ge. exact Hge. }
      split; [now apply loadConfigType_begin_stale|].
      now apply remote_gets_stale.
Qed.

(** X11. A callback registered with [onConfigUpdate] is appended to the
    list, and nothing else of the manager changes: the next
    [notifyCallbacks(event, data)] calls the callbacks registered before,
    in their order, and then the new one, each exactly once with that
    event and data; it completes normally and leaves the manager
    unchanged even when callbacks throw. *)
Theorem onConfigUpdate_then_notify cm callback event data :
  let cm1 := (onConfigUpdate callback cm).1.2 in
  onConfigUpdate callback cm
  = (Ok tt, with_callbacks (callbacks cm ++ [callback]) cm, [])
  /\ callbacks cm1 = callbacks cm ++ [callback]
  /\ callbacks cm1 !! length (callbacks cm) = Some callback
  /\ (forall i, i < length (callbacks cm) ->
        callbacks cm1 !! i = callbacks cm !! i)
  /\ configs cm1 = configs cm /\ cache cm1 = cache cm
  /\ sessionId cm1 = sessionId cm
  /\ notifyCallbacks event data cm1
     = (Ok tt, cm1,
        calls event data cm ++ [Called (length (callbacks cm)) event data]).
Proof.
  intros cm1.
  split; [reflexivity|]. split; [reflexivity|].
  split; [apply list_lookup_middle; reflexivity|].
  split; [intros i Hi; apply lookup_app_l; exact Hi|].
  split; [reflexivity|]. split; [reflexivity|]. split; [reflexivity|].
  rewrite notifyCallbacks_run. f_equal.
  unfold calls, cm1. simpl. rewrite length_app. simpl.
  rewrite seq_app, map_app. reflexivity.
Qed.

Lemma onConfigUpdate_then_notify_witness :
  0 < length (callbacks (onConfigUpdate (fun _ _ => Ok tt) sample_manager).1.2)
  /\ callbacks (onConfigUpdate (fun _ _ => Throw (TypeError "callback failed"))
                 (onConfigUpdate (fun _ _ => Ok tt) sample_manager).1.2).1.2
       !! 0
     = callbacks (onConfigUpdate (fun _ _ => Ok tt) sample_manager).1.2 !! 0.
Proof.
  assert (H : 0 < length (callbacks (onConfigUpdate (fun _ _ => Ok tt)
                                       sample_manager).1.2))
    by (simpl; lia).
  split; [exact H|].
  exact (proj1 (proj2 (proj2 (proj2
           (onConfigUpdate_then_notify
              (onConfigUpdate (fun _ _ => Ok tt) sample_manager).1.2
              (fun _ _ => Throw (TypeError "callback failed"))
              "configLoaded" VNull)))) 0 H).
Defined.

(** X12. [loadFallbackConfigs()] stores no configuration: the key list it
    iterates, [Object.keys(getDefaultConfig(''))], is empty.  It sets
    [isInitialized], calls every registered callback once with
    'fallbackLoaded', and leaves configs and cache as they were. *)
Theorem loadFallbackConfigs_stores_nothing cm ens :
  loadFallbackConfigs ens cm
  = (Ok tt, with_isInitialized true cm, calls "fallbackLoaded" VNull cm)
  /\ (forall type,
        getConfig (loadFallbackConfigs ens cm).1.2 type = getConfig cm type).
Proof.
  assert (E : loadFallbackConfigs ens cm
              = (Ok tt, with_isInitialized true cm,
                 calls "fallbackLoaded" VNull cm)).
  { unfold loadFallbackConfigs.
    change (object_keys (getDefaultConfig "" (ens 0))) with (@nil string).
    unfold bindM, forEachM, ret, set_isInitialized.
    rewrite notifyCallbacks_run. reflexivity. }
  split; [exact E|]. intros type. now rewrite E.
Qed.

Lemma append_cancel_l (a b1 b2 : string) : a +:+ b1 = a +:+ b2 -> b1 = b2.
Proof.
  induction a as [|x a IH]; autorewrite with str; [auto|].
  intros [= H]. auto.
Qed.

Lemma value36_inj (n1 n2 : Z) :
  (0 <= n1)%Z -> (0 <= n2)%Z -> toString36 n1 = toString36 n2 -> n1 = n2.
Proof.
  intros H1 H2 E. rewrite <- (value36_toString36 n1 H1).
  rewrite <- (value36_toString36 n2 H2). now rewrite E.
Qed.

(** X13. With the same random draw, managers constructed at different
    clock readings get different session identifiers (for clock readings
    that are not negative); every generated identifier starts with
    'sess_' and has no '_' after it. *)
Theorem generateSessionId_distinct_in_time rnd now1 now2 :
  (0 <= now1)%Z -> (0 <= now2)%Z -> random_text rnd = true ->
  (generateSessionId rnd now1 = generateSessionId rnd now2 -> now1 = now2)
  /\ exists body, generateSessionId rnd now1 = "sess_" +:+ body
                  /\ has_char "_" body = false.
Proof.
  intros H1 H2 Hr. split.
  - unfold generateSessionId. intros E.
    apply append_cancel_l, append_cancel_l in E. now apply value36_inj.
  - exists (session_body rnd now1). split; [reflexivity|].
    now apply session_body_no_underscore.
Qed.

Lemma generateSessionId_distinct_in_time_witness :
  (0 <= 1762041600000)%Z /\ (0 <= 1762041600001)%Z
  /\ random_text "0.4fzyo82mvyr" = true
  /\ (generateSessionId "0.4fzyo82mvyr" 1762041600000
      = generateSessionId "0.4fzyo82mvyr" 1762041600001 ->
      1762041600000 = 1762041600001)%Z.
Proof.
  assert (H1 : (0 <= 1762041600000)%Z) by lia.
  assert (H2 : (0 <= 1762041600001)%Z) by lia.
  assert (H3 : random_text "0.4fzyo82mvyr" = true) by reflexivity.
  split; [exact H1|]. split; [exact H2|]. split; [exact H3|].
  exact (proj1 (generateSessionId_distinct_in_time _ _ _ H1 H2 H3)).
Defined.

Lemma length_substring_le (s : string) n m :
  String.length (String.substring n m s) <= m.
Proof.
  revert n m. induction s as [|c s IH]; intros n m.
  - destruct n, m; simpl; lia.
  - destruct n as [|n]; destruct m as [|m]; simpl; try lia.
    + specialize (IH 0 m). lia.
    + apply (IH n 0).
    + apply (IH n (S m)).
Qed.

Lemma publicIdPrefix_kind type :
  exists kind,
    publicIdPrefix type = kind +:+ "_"
    /\ has_char "_" kind = false
    /\ (kind = "item"
        <-> ~ In type ["pack"; "city"; "user"; "vendor"; "region"]).
Proof.
  unfold publicIdPrefix.
  destruct (String.eqb_spec type "pack") as [->|N1].
  { exists "pack". repeat split; try discriminate. simpl. intuition. }
  destruct (String.eqb_spec type "city") as [->|N2].
  { exists "city". repeat split; try discriminate. simpl. intuition. }
  destruct (String.eqb_spec type "user") as [->|N3].
  { exists "user". repeat split; try discriminate. simpl. intuition. }
  destruct (String.eqb_spec type "vendor") as [->|N4].
  { exists "vend". repeat split; try discriminate. simpl. intuition. }
  destruct (String.eqb_spec type "region") as [->|N5].
  { exists "reg". repeat split; try discriminate. simpl. intuition. }
  exists "item". repeat split. simpl. intuition congruence.
Qed.

(** X14. For a type name that is not a member of [Object.prototype],
    [generatePublicId(type)] is the prefix of its kind ('pack_', 'city_',
    'user_', 'vend_', 'reg_', and 'item_' for every other type) followed
    by at most twelve characters without '_'; so identifiers of
    different kinds never coincide, whatever the random draws and clock
    readings. *)
Theorem generatePublicId_kinds_apart type1 rnd1 now1 type2 rnd2 now2 :
  objectPrototype type1 = None -> objectPrototype type2 = None ->
  random_text rnd1 = true -> random_text rnd2 = true ->
  (exists body,
     generatePublicId type1 rnd1 now1 = publicIdPrefix type1 +:+ body
     /\ has_char "_" body = false /\ String.length body <= 12)
  /\ (generatePublicId type1 rnd1 now1 = generatePublicId type2 rnd2 now2 ->
      publicIdPrefix type1 = publicIdPrefix type2).
Proof.
  intros _ _ H1 H2.
  assert (Hbody : forall rnd now, random_text rnd = true ->
            has_char "_" (substr rnd 2 8 +:+ substr_last (toString36 now) 4)
            = false).
  { intros rnd now Hr. unfold substr, substr_last. rewrite has_char_append.
    rewrite has_char_substring by now apply random_text_no_underscore.
    rewrite has_char_substring by apply toString36_no_underscore.
    reflexivity. }
  split.
  - exists (substr rnd1 2 8 +:+ substr_last (toString36 now1) 4).
    split; [reflexivity|]. split; [now apply Hbody|].
    rewrite length_append_s. unfold substr, substr_last.
    pose proof (length_substring_le rnd1 2 8).
    pose proof (length_substring_le (toString36 now1)
                  (String.length (toString36 now1) - 4) 4).
    lia.
  - unfold generatePublicId.
    destruct (publicIdPrefix_kind type1) as (k1 & -> & Hk1 & _).
    destruct (publicIdPrefix_kind type2) as (k2 & -> & Hk2 & _).
    rewrite !append_assoc_s. autorewrite with str.
    intros E. apply split_last_sep in E as [-> _]; auto.
Qed.

Lemma generatePublicId_kinds_apart_witness :
  objectPrototype "city" = None /\ objectPrototype "vendor" = None
  /\ random_text "0.k3j9x0aqz1" = true
  /\ (generatePublicId "city" "0.k3j9x0aqz1" 1762041600000
      = generatePublicId "vendor" "0.k3j9x0aqz1" 1762041600000 ->
      publicIdPrefix "city" = publicIdPrefix "vendor").
Proof.
  assert (H1 : objectPrototype "city" = None) by reflexivity.
  assert (H2 : objectPrototype "vendor" = None) by reflexivity.
  assert (H3 : random_text "0.k3j9x0aqz1" = true) by reflexivity.
  split; [exact H1|]. split; [exact H2|]. split; [exact H3|].
  exact (proj2 (generatePublicId_kinds_apart "city" "0.k3j9x0aqz1"
                  1762041600000 "vendor" "0.k3j9x0aqz1" 1762041600000
                  H1 H2 H3 H3)).
Defined.

(** * Further properties of the location manager *)

#[local] Arguments getCityByKey : simpl never.

Lemma getCityByKey_cityList_nonempty lm c :
  cities lm = cityList -> getCityByKey lm "" = Some c -> False.
Proof. unfold getCityByKey. intros ->. vm_compute. discriminate. Qed.

Lemma getCityByKey_cities lm lm' k :
  cities lm = cities lm' -> getCityByKey lm k = getCityByKey lm' k.
Proof. unfold getCityByKey. now intros ->. Qed.

Lemma getCityByKey_elem lm k c :
  getCityByKey lm k = Some c -> c ∈ cities lm /\ key c = k.
Proof.
  unfold getCityByKey. intros H. apply find_some in H as [Hin Hk].
  split; [now apply list_elem_of_In | now apply String.eqb_eq].
Qed.

Lemma init_run storage :
  newLocationManager storage
  = mkLM (match storage !! selectedCityKey with
          | Some k =>
              match getCityByKey (mkLM None cityList [] storage) k with
              | Some c => Some c
              | None => Some boston
              end
          | None => Some boston
          end)
         cityList [] storage.
Proof.
  unfold newLocationManager, forget, init, bindM at 1, this.
  cbn [localStorage].
  destruct (storage !! selectedCityKey) as [k|]; [|reflexivity].
  destruct (String.eqb_spec k "") as [->|Hne]; [reflexivity|].
  simpl negb. cbv iota.
  destruct (getCityByKey (mkLM None cityList [] storage) k) as [c|];
    reflexivity.
Qed.



(** X16. A selection survives a reload: when [setCurrentCity(cityKey)]
    returns [true] on a manager with the built-in city list, a manager
    constructed afterwards from the same browser storage has the same
    current city, whose key is [cityKey]. *)
Theorem selection_survives_reload lm cityKey write :
  cities lm = cityList ->
  (setCurrentCity cityKey write lm).1.1 = Ok true ->
  let lm' := (setCurrentCity cityKey write lm).1.2 in
  currentCity (newLocationManager (localStorage lm')) = currentCity lm'
  /\ exists c, currentCity lm' = Some c /\ key c = cityKey.
Proof.
  intros Hc. rewrite setCurrentCity_run.
  destruct (getCityByKey lm cityKey) as [c|] eqn:Hk; [|discriminate].
  destruct write as [[]|e]; [|discriminate].
  intros _. simpl. split.
  - rewrite init_run. simpl. rewrite lookup_insert_eq.
    rewrite (getCityByKey_cities _ lm cityKey) by (now rewrite Hc).
    now rewrite Hk.
  - exists c. split; [reflexivity|]. now apply getCityByKey_elem in Hk.
Qed.

Lemma selection_survives_reload_witness :
  let lm := newLocationManager ∅ in
  let lm' := (setCurrentCity "stamford" (Ok tt) lm).1.2 in
  cities lm = cityList
  /\ (setCurrentCity "stamford" (Ok tt) lm).1.1 = Ok true
  /\ currentCity (newLocationManager (localStorage lm')) = currentCity lm'.
Proof.
  intros lm lm'.
  assert (H1 : cities lm = cityList) by reflexivity.
  assert (H2 : (setCurrentCity "stamford" (Ok tt) lm).1.1 = Ok true)
    by reflexivity.
  split; [exact H1|]. split; [exact H2|].
  exact (proj1 (selection_survives_reload lm "stamford" (Ok tt) H1 H2)).
Defined.

Lemma newLocationManager_inv storage : loc_inv (newLocationManager storage).
Proof.
  split; [rewrite init_run; reflexivity|].
  rewrite init_run. simpl.
  destruct (storage !! selectedCityKey) as [k|];
    [|exists boston; split; [reflexivity | left]].
  destruct (getCityByKey _ k) as [c|] eqn:Hk;
    [|exists boston; split; [reflexivity | left]].
  exists c. split; [reflexivity|]. now apply getCityByKey_elem in Hk.
Qed.

Lemma newLocationManager_persisted storage :
  loc_persisted (newLocationManager storage).
Proof.
  unfold loc_persisted. rewrite init_run. unfold getCityByKey.
  cbn [cities localStorage currentCity].
  intros k c -> Hc. now rewrite Hc.
Qed.

Lemma run_loc_op_inv op lm : loc_inv lm -> loc_inv (run_loc_op op lm).
Proof.
  intros [Hc Hcur]. destruct op as [k w|cb]; unfold run_loc_op, forget.
  - rewrite setCurrentCity_run.
    destruct (getCityByKey lm k) as [c|] eqn:Hk; simpl; [|now split].
    apply getCityByKey_elem in Hk as [Hin _]. rewrite Hc in Hin.
    destruct w as [[]|e]; simpl; (split; simpl; [exact Hc|]);
      exists c; (split; [reflexivity | exact Hin]).
  - simpl. split; simpl; [exact Hc | exact Hcur].
Qed.

Lemma run_loc_op_persisted op lm :
  write_accepted op -> loc_persisted lm -> loc_persisted (run_loc_op op lm).
Proof.
  intros Hw Hp. destruct op as [k w|cb]; unfold run_loc_op, forget.
  - rewrite setCurrentCity_run.
    destruct (getCityByKey lm k) as [c|] eqn:Hk; simpl; [|exact Hp].
    destruct w as [[]|e]; [|contradiction]. simpl.
    intros k' c'. cbn [localStorage currentCity].
    rewrite lookup_insert_eq. intros [= <-].
    unfold getCityByKey in *. cbn [cities]. congruence.
  - simpl. intros k c Hs Hk. apply (Hp k c Hs). exact Hk.
Qed.

Lemma run_loc_ops_inv ops lm : loc_inv lm -> loc_inv (run_loc_ops ops lm).
Proof.
  revert lm. induction ops as [|op ops IH]; intros lm H; [exact H|].
  apply IH. now apply run_loc_op_inv.
Qed.

Lemma run_loc_ops_persisted ops lm :
  Forall write_accepted ops -> loc_persisted lm ->
  loc_persisted (run_loc_ops ops lm).
Proof.
  revert lm. induction ops as [|op ops IH]; intros lm Hw H; [exact H|].
  apply Forall_cons in Hw as [Hop Hw].
  apply IH; [exact Hw|]. now apply run_loc_op_persisted.
Qed.

Lemma cityList_display c :
  c ∈ cityList -> name c +:+ ", " +:+ state c <> "Select City".
Proof.
  intros H. apply list_elem_of_In in H. simpl in H.
  repeat (destruct H as [<-|H]; [vm_compute; discriminate|]).
  contradiction.
Qed.

(** X17. After construction from any browser storage and any sequence
    of [setCurrentCity] and [onCityChange] calls, whether the browser
    accepted or refused each write, a city of the built-in list is
    selected: [getCurrentCityDisplay()] is its 'Name, ST' and never
    'Select City', and [getCurrentCoordinates()] is its coordinates and
    never [null].  When every write of the sequence was accepted, the
    storage agrees with the selection: if it holds the key of a listed
    city, that city is the current one. *)
Theorem location_always_selected storage ops :
  let lm := run_loc_ops ops (newLocationManager storage) in
  exists c,
    currentCity lm = Some c /\ c ∈ cityList
    /\ getCurrentCityDisplay lm = name c +:+ ", " +:+ state c
    /\ getCurrentCityDisplay lm <> "Select City"
    /\ getCurrentCoordinates lm = Some (lat c, lng c)
    /\ (Forall write_accepted ops ->
        forall k c', localStorage lm !! selectedCityKey = Some k ->
          getCityByKey lm k = Some c' -> c' = c).
Proof.
  intros lm.
  destruct (run_loc_ops_inv ops _ (newLocationManager_inv storage))
    as [Hc (c & Hcur & Hin)].
  fold lm in Hc, Hcur. exists c.
  split; [exact Hcur|]. split; [exact Hin|].
  unfold getCurrentCityDisplay, getCurrentCoordinates. rewrite Hcur.
  split; [reflexivity|]. split; [now apply cityList_display|].
  split; [reflexivity|].
  intros Hw k c' Hs Hk.
  pose proof (run_loc_ops_persisted ops _ Hw
                (newLocationManager_persisted storage) k c' Hs Hk) as Hp.
  fold lm in Hp. congruence.
Qed.

(** X18. A listener registered with [onCityChange] is appended to the
    list and nothing else changes.  The next [setCurrentCity] with a
    listed key whose write the browser accepts calls the listeners
    registered before, in their order, and then the new one, each once
    with the selected city, whether or not listeners throw; when the
    browser refuses the write no listener is called. *)
Theorem onCityChange_then_set lm callback cityKey c :
  getCityByKey lm cityKey = Some c ->
  let lm1 := (onCityChange callback lm).1.2 in
  listeners lm1 = listeners lm ++ [callback]
  /\ listeners lm1 !! length (listeners lm) = Some callback
  /\ currentCity lm1 = currentCity lm /\ cities lm1 = cities lm
  /\ localStorage lm1 = localStorage lm
  /\ setCurrentCity cityKey (Ok tt) lm1
     = (Ok true,
        mkLM (Some c) (cities lm) (listeners lm ++ [callback])
             (<[selectedCityKey := cityKey]> (localStorage lm)),
        notifications c lm ++ [Notified (length (listeners lm)) c])
  /\ forall e, (setCurrentCity cityKey (Throw e) lm1).2 = [].
Proof.
  intros Hk lm1.
  split; [reflexivity|].
  split; [apply list_lookup_middle; reflexivity|].
  split; [reflexivity|]. split; [reflexivity|]. split; [reflexivity|].
  split.
  - rewrite setCurrentCity_run.
    rewrite (getCityByKey_cities lm1 lm cityKey eq_refl), Hk.
    f_equal. unfold notifications, lm1. simpl. rewrite length_app. simpl.
    rewrite seq_app, map_app. reflexivity.
  - intros e. rewrite setCurrentCity_run.
    rewrite (getCityByKey_cities lm1 lm cityKey eq_refl), Hk. reflexivity.
Qed.

Lemma onCityChange_then_set_witness :
  getCityByKey sample_location "worcester"
  = Some (mkCity "Worcester" "MA" "worcester" 42.2626 (-71.8023))
  /\ listeners (onCityChange sample_listener_bad sample_location).1.2
     = listeners sample_location ++ [sample_listener_bad]
  /\ (setCurrentCity "worcester" (Ok tt)
        (onCityChange sample_listener_bad sample_location).1.2).2
     = notifications (mkCity "Worcester" "MA" "worcester" 42.2626 (-71.8023))
         sample_location
       ++ [Notified (length (listeners sample_location))
             (mkCity "Worcester" "MA" "worcester" 42.2626 (-71.8023))].
Proof.
  assert (H : getCityByKey sample_location "worcester"
              = Some (mkCity "Worcester" "MA" "worcester" 42.2626 (-71.8023)))
    by reflexivity.
  split; [exact H|].
  pose proof (onCityChange_then_set sample_location sample_listener_bad
                "worcester" _ H) as (Hl & _ & _ & _ & _ & Hrun & _).
  split; [exact Hl|].
  exact (f_equal snd Hrun).
Defined.

Lemma group_get_set st st' l (g : Groups) :
  group_get st' (group_set st l g)
  = if String.eqb st st' then Some l else group_get st' g.
Proof.
  induction g as [|[s1 l1] g IH]; simpl.
  - reflexivity.
  - destruct (String.eqb_spec s1 st) as [->|Hne]; simpl.
    + destruct (String.eqb st st'); reflexivity.
    + rewrite IH. destruct (String.eqb_spec s1 st') as [->|]; [|reflexivity].
      destruct (String.eqb_spec st st') as [->|]; [congruence | reflexivity].
Qed.

Lemma group_get_None st (g : Groups) : group_get st g = None <-> st ∉ g.*1.
Proof.
  induction g as [|[s1 l1] g IH]; simpl.
  - split; [intros _; apply not_elem_of_nil | reflexivity].
  - rewrite not_elem_of_cons.
    destruct (String.eqb_spec s1 st) as [->|Hne].
    + split; [discriminate | intros [H _]; congruence].
    + rewrite IH. split; [intros H; split; [congruence | exact H] | tauto].
Qed.

Lemma group_set_keys st l (g : Groups) :
  (group_set st l g).*1
  = match group_get st g with
    | Some _ => g.*1
    | None => g.*1 ++ [st]
    end.
Proof.
  induction g as [|[s1 l1] g IH]; [reflexivity|].
  cbn [group_set group_get].
  destruct (String.eqb_spec s1 st) as [->|Hne]; [reflexivity|].
  rewrite fmap_cons, IH. now destruct (group_get st g).
Qed.

Lemma cities_of_state_snoc st cs c :
  cities_of_state st (cs ++ [c])
  = cities_of_state st cs ++ (if String.eqb (state c) st then [c] else []).
Proof.
  unfold cities_of_state. rewrite List.filter_app. simpl.
  now destruct (String.eqb (state c) st).
Qed.

Lemma group_cities_inv rest : forall done (g : Groups),
  NoDup g.*1 ->
  (forall st, group_get st g = match cities_of_state st done with
                                | [] => None
                                | l => Some l
                                end) ->
  (forall c, c ∈ rest -> objectPrototype (state c) = None) ->
  exists g',
    group_cities rest g = Ok g' /\ NoDup g'.*1
    /\ forall st, group_get st g'
                  = match cities_of_state st (done ++ rest) with
                    | [] => None
                    | l => Some l
                    end.
Proof.
  induction rest as [|c rest IH]; intros done g Hnd Hg Hproto.
  - exists g. rewrite app_nil_r. auto.
  - assert (Hc : objectPrototype (state c) = None) by (apply Hproto; left).
    cbn [group_cities]. unfold group_push. rewrite Hc.
    set (l0 := match group_get (state c) g with
               | Some l => l ++ [c]
               | None => [c]
               end).
    assert (E : match group_get (state c) g with
                | Some l => Ok (group_set (state c) (l ++ [c]) g)
                | None => Ok (group_set (state c) [c] g)
                end = Ok (group_set (state c) l0 g)).
    { unfold l0. now destruct (group_get (state c) g). }
    rewrite E. cbn [bindR].
    replace (done ++ c :: rest) with ((done ++ [c]) ++ rest)
      by (now rewrite <- app_assoc).
    apply IH.
    + rewrite group_set_keys.
      destruct (group_get (state c) g) eqn:Hget; [exact Hnd|].
      apply NoDup_app. split; [exact Hnd|]. split.
      * intros x Hx Hx'. apply list_elem_of_singleton in Hx'. subst x.
        apply group_get_None in Hget. contradiction.
      * apply NoDup_singleton.
    + intros st. rewrite group_get_set, cities_of_state_snoc.
      destruct (String.eqb_spec (state c) st) as [<-|Hne].
      * unfold l0. rewrite (Hg (state c)).
        destruct (cities_of_state (state c) done); reflexivity.
      * rewrite app_nil_r. apply Hg.
    + intros c' Hc'. apply Hproto. now right.
Qed.

Lemma group_cities_throws rest : forall (g : Groups),
  (forall st, objectPrototype st <> None -> group_get st g = None) ->
  (exists c, c ∈ rest /\ objectPrototype (state c) <> None) ->
  exists e, group_cities rest g = Throw e.
Proof.
  induction rest as [|c rest IH]; intros g Hg (c0 & Hin & Hc0).
  - now apply elem_of_nil in Hin.
  - cbn [group_cities]. unfold group_push.
    destruct (objectPrototype (state c)) as [v|] eqn:Hp.
    + rewrite (Hg (state c)) by congruence. simpl. eauto.
    + assert (Hrest : exists c1, c1 ∈ rest /\ objectPrototype (state c1) <> None).
      { apply elem_of_cons in Hin as [->|Hin]; [congruence | eauto]. }
      destruct (group_get (state c) g); cbn [bindR]; apply IH; auto;
        intros st Hst; rewrite group_get_set;
        (destruct (String.eqb_spec (state c) st) as [<-|_];
         [congruence | now apply Hg]).
Qed.

(** X19. [getCitiesGroupedByState()], when no state is named like a
    member of [Object.prototype], returns one group per state that
    occurs, and the group of a state holds exactly the cities of that
    state in the order of the list; a state without a city has no group.
    When some state is named like such a member, it throws. *)
Theorem getCitiesGroupedByState_partitions lm :
  ((forall c, c ∈ cities lm -> objectPrototype (state c) = None) ->
   exists g,
     getCitiesGroupedByState lm = Ok g /\ NoDup g.*1
     /\ forall st, group_get st g
                   = match cities_of_state st (cities lm) with
                     | [] => None
                     | l => Some l
                     end)
  /\ ((exists c, c ∈ cities lm /\ objectPrototype (state c) <> None) ->
      exists e, getCitiesGroupedByState lm = Throw e).
Proof.
  split.
  - intros H. unfold getCitiesGroupedByState.
    apply (group_cities_inv (cities lm) [] []); auto.
    apply NoDup_nil_2.
  - intros H. unfold getCitiesGroupedByState.
    apply group_cities_throws; auto.
Qed.

Lemma getCitiesGroupedByState_partitions_witness :
  let lm := newLocationManager ∅ in
  (forall c, c ∈ cities lm -> objectPrototype (state c) = None)
  /\ exists g,
       getCitiesGroupedByState lm = Ok g /\ NoDup g.*1
       /\ forall st, group_get st g
                     = match cities_of_state st (cities lm) with
                       | [] => None
                       | l => Some l
                       end.
Proof.
  intros lm.
  assert (H : forall c, c ∈ cities lm -> objectPrototype (state c) = None).
  { intros c Hc. apply list_elem_of_In in Hc. simpl in Hc.
    repeat (destruct Hc as [<-|Hc]; [reflexivity|]). contradiction. }
  split; [exact H|].
  exact (proj1 (getCitiesGroupedByState_partitions lm) H).
Defined.

Example getCitiesGroupedByState_built_in :
  (fun g => map (fun sl => (sl.1, map key sl.2)) g)
    <$> match getCitiesGroupedByState (newLocationManager ∅) with
        | Ok g => Some g
        | Throw _ => None
        end
  = Some [("MA", ["boston"; "springfield"; "worcester"; "south-coast";
                  "north-shore"]);
          ("RI", ["providence"; "newport"; "woonsocket"]);
          ("CT", ["hartford"; "new-haven"; "bridgeport"; "stamford"])].
Proof. vm_compute. reflexivity. Qed.

(** * Properties of the readiness polls *)

Lemma checkFirebase_bounded probe fuel : forall attempts am,
  attempts < 50 -> 50 <= attempts + fuel ->
  let r := Auth.checkFirebase fuel attempts probe am in
  attempts < r.2 <= 50
  /\ (forall k, attempts < k < r.2 -> is_ready (probe k) = false)
  /\ (is_ready (probe r.2) = true \/ r.2 = 50)
  /\ Auth.isInitialized r.1
     = is_ready (probe r.2) || Auth.isInitialized am
  /\ Auth.user r.1 = Auth.user am
  /\ Auth.userProfile r.1 = Auth.userProfile am
  /\ Auth.isAdmin r.1 = Auth.isAdmin am.
Proof.
  induction fuel as [|fuel IH]; intros attempts am Hlt Hfuel; [lia|].
  cbn [Auth.checkFirebase]. cbv zeta. unfold Auth.maxAttempts.
  assert (Hrec : forall am',
            Auth.isInitialized am' = Auth.isInitialized am ->
            Auth.user am' = Auth.user am ->
            Auth.userProfile am' = Auth.userProfile am ->
            Auth.isAdmin am' = Auth.isAdmin am ->
            is_ready (probe (S attempts)) = false ->
            let r := if Nat.ltb (S attempts) 50
                     then Auth.checkFirebase fuel (S attempts) probe am'
                     else (am', S attempts) in
            attempts < r.2 <= 50
            /\ (forall k, attempts < k < r.2 -> is_ready (probe k) = false)
            /\ (is_ready (probe r.2) = true \/ r.2 = 50)
            /\ Auth.isInitialized r.1
               = is_ready (probe r.2) || Auth.isInitialized am
            /\ Auth.user r.1 = Auth.user am
            /\ Auth.userProfile r.1 = Auth.userProfile am
            /\ Auth.isAdmin r.1 = Auth.isAdmin am).
  { intros am' Hi Hu Hp Ha Hnr. cbv zeta.
    destruct (Nat.ltb_spec (S attempts) 50) as [Hs|Hs].
    - specialize (IH (S attempts) am' Hs ltac:(lia)). cbv zeta in IH.
      destruct IH as (I1 & I2 & I3 & I4 & I5 & I6 & I7).
      repeat split; try lia; try congruence.
      intros k Hk. destruct (Nat.eq_dec k (S attempts)) as [->|Hne];
        [exact Hnr | apply I2; lia].
    - cbn [fst snd]. assert (S attempts = 50) as E by lia.
      split; [lia|]. split; [intros k Hk; lia|]. split; [right; exact E|].
      split; [rewrite Hnr; exact Hi|]. auto. }
  destruct (probe (S attempts)) eqn:Hp;
    try (apply Hrec; reflexivity).
  (* Ready *)
  cbn [fst snd]. rewrite Hp.
  split; [lia|]. split; [intros k Hk; lia|]. split; [left; reflexivity|].
  split; [reflexivity|]. auto.
Qed.

Lemma checkFirebase_fuel probe fuel extra : forall attempts am,
  attempts < 50 -> 50 <= attempts + fuel ->
  Auth.checkFirebase (fuel + extra) attempts probe am
  = Auth.checkFirebase fuel attempts probe am.
Proof.
  induction fuel as [|fuel IH]; intros attempts am Hlt Hfuel; [lia|].
  cbn [Auth.checkFirebase Nat.add]. cbv zeta. unfold Auth.maxAttempts.
  destruct (Nat.ltb_spec (S attempts) 50) as [Hs|Hs];
    destruct (probe (S attempts)); try reflexivity; apply IH; lia.
Qed.

(** X20. [initializeWhenReady()] polls at most 50 times (every 100 ms).
    It stops at the first run that finds Firebase loaded and whose three
    set-up calls all succeed, or at the 50th run; [isInitialized] becomes
    true exactly when it stopped on such a run; the user, the profile and
    the admin flag are not touched.  More runs are never needed. *)
Theorem initializeWhenReady_bounded probe am :
  let r := Auth.initializeWhenReady probe am in
  1 <= r.2 <= 50
  /\ (forall k, 1 <= k < r.2 -> is_ready (probe k) = false)
  /\ (is_ready (probe r.2) = true \/ r.2 = 50)
  /\ Auth.isInitialized r.1 = is_ready (probe r.2) || Auth.isInitialized am
  /\ Auth.user r.1 = Auth.user am
  /\ Auth.userProfile r.1 = Auth.userProfile am
  /\ Auth.isAdmin r.1 = Auth.isAdmin am
  /\ forall extra,
       Auth.checkFirebase (Auth.maxAttempts + extra) 0 probe am = r.
Proof.
  cbv zeta. unfold Auth.initializeWhenReady.
  assert (Hfuel : forall extra,
            Auth.checkFirebase (Auth.maxAttempts + extra) 0 probe am
            = Auth.checkFirebase Auth.maxAttempts 0 probe am).
  { intros extra. apply checkFirebase_fuel; unfold Auth.maxAttempts; lia. }
  pose proof (checkFirebase_bounded probe Auth.maxAttempts 0 am
                ltac:(lia) ltac:(unfold Auth.maxAttempts; lia)) as H.
  cbv zeta in H.
  generalize dependent (Auth.checkFirebase Auth.maxAttempts 0 probe am).
  intros r Hfuel (H1 & H2 & H3 & H4 & H5 & H6 & H7).
  split; [lia|]. split; [intros k Hk; apply H2; lia|].
  split; [exact H3|]. split; [exact H4|]. split; [exact H5|].
  split; [exact H6|]. split; [exact H7 | exact Hfuel].
Qed.

Lemma waitForLocationManager_run ready fuel : forall attempts,
  attempts <= 50 -> 51 <= attempts + fuel ->
  exists n,
    waitForLocationManager fuel attempts ready = Some n
    /\ attempts <= n <= 50
    /\ (ready n = true \/ n = 50)
    /\ forall k, attempts <= k < n -> ready k = false.
Proof.
  induction fuel as [|fuel IH]; intros attempts Hle Hfuel; [lia|].
  cbn [waitForLocationManager].
  destruct (ready attempts) eqn:Hr; cbn [orb].
  - exists attempts. split; [reflexivity|]. split; [lia|].
    split; [left; exact Hr|]. intros k Hk. lia.
  - destruct (Nat.leb_spec 50 attempts) as [H50|H50].
    + exists attempts. split; [reflexivity|]. split; [lia|].
      split; [right; lia|]. intros k Hk. lia.
    + destruct (IH (S attempts) ltac:(lia) ltac:(lia))
        as (n & E & Hn & Hrn & Hk).
      exists n. split; [exact E|]. split; [lia|]. split; [exact Hrn|].
      intros k Hk'. destruct (Nat.eq_dec k attempts) as [->|Hne];
        [exact Hr | apply Hk; lia].
Qed.

(** X21. The header waits for the location manager at most 50 polls of
    100 ms: [window.headerManager.initialize()] is called exactly at the
    first poll that finds [window.locationManager] set, or else at the
    poll made with [attempts = 50], without it.  More polls are never
    needed. *)
Theorem waitForLocationManager_bounded ready :
  exists n,
    waitForLocationManager 51 0 ready = Some n
    /\ n <= 50
    /\ (ready n = true \/ n = 50)
    /\ (forall k, k < n -> ready k = false)
    /\ forall extra, waitForLocationManager (51 + extra) 0 ready = Some n.
Proof.
  destruct (waitForLocationManager_run ready 51 0 ltac:(lia) ltac:(lia))
    as (n & E & Hn & Hr & Hk).
  exists n. split; [exact E|]. split; [lia|]. split; [exact Hr|].
  split; [intros k Hlt; apply Hk; lia|].
  intros extra.
  destruct (waitForLocationManager_run ready (51 + extra) 0
              ltac:(lia) ltac:(lia)) as (n' & E' & Hn' & Hr' & Hk').
  rewrite E'. f_equal.
  destruct (Nat.lt_trichotomy n n') as [Hlt | [-> | Hlt]]; [|reflexivity|].
  - destruct Hr as [Hr | ->]; [|lia].
    rewrite (Hk' n) in Hr by lia. discriminate.
  - destruct Hr' as [Hr' | ->]; [|lia].
    rewrite (Hk n') in Hr' by lia. discriminate.
Qed.

(** * Properties of the authentication manager *)

Lemma includes_ok v x :
  match v with VArr _ | VStr _ => True | _ => False end ->
  exists b, Auth.includes v x = Ok b.
Proof. destruct v; simpl; intros H; try contradiction; eauto. Qed.

Lemma requireAdmin_run am :
  Auth.requireAdmin am
  = match Auth.user am, Auth.userProfile am, Auth.isAdmin am with
    | None, _, _ => (Ok false, am, [Auth.ShowModal "sign-in-modal"])
    | Some _, None, _ => (Ok false, am, [])
    | Some _, Some _, true => (Ok true, am, [])
    | Some _, Some _, false =>
        (Ok false, am, [Auth.ShowMessage "Admin access required." "error"])
    end.
Proof.
  unfold Auth.requireAdmin, bindM at 1, this.
  destruct (Auth.user am), (Auth.userProfile am), (Auth.isAdmin am);
    reflexivity.
Qed.

(** X22. [requireAdmin()] returns [true] exactly when a user is signed
    in, a profile is loaded and the admin flag is set; and whoever passes
    it passes [requireAuth(action)] for every action, with no message or
    modal shown, provided the profile's [permissions] are an array or a
    string (or absent).  It shows the sign-in modal exactly when no user
    is signed in. *)
Theorem requireAdmin_grants_every_action am :
  ((Auth.requireAdmin am).1.1 = Ok true
   <-> is_Some (Auth.user am) /\ is_Some (Auth.userProfile am)
       /\ Auth.isAdmin am = true)
  /\ (In (Auth.ShowModal "sign-in-modal") (Auth.requireAdmin am).2
      <-> Auth.user am = None)
  /\ (Auth.requireAdmin am).1.2 = am
  /\ forall profile action,
       (Auth.requireAdmin am).1.1 = Ok true ->
       Auth.userProfile am = Some profile -> permissions_ok profile ->
       Auth.requireAuth action am = (Ok true, am, []).
Proof.
  rewrite requireAdmin_run. split; [|split; [|split]].
  - destruct (Auth.user am), (Auth.userProfile am), (Auth.isAdmin am);
      simpl; split; try discriminate; try (intros (H1 & H2 & H3));
      try (destruct H1 as [? [=]]); try (destruct H2 as [? [=]]);
      try discriminate; eauto.
  - destruct (Auth.user am), (Auth.userProfile am), (Auth.isAdmin am);
      simpl; split; try discriminate; try tauto;
      try (intros [[=]|[]]); auto.
  - destruct (Auth.user am), (Auth.userProfile am), (Auth.isAdmin am);
      reflexivity.
  - intros profile action Hadm Hp Hperm. rewrite Hp in Hadm.
    unfold Auth.requireAuth, bindM at 1, this.
    destruct (Auth.user am) as [u|] eqn:Hu; [|simpl in Hadm; discriminate].
    destruct (Auth.isAdmin am) eqn:Ha; [|simpl in Hadm; discriminate].
    destruct action as [a|]; [|reflexivity].
    destruct (negb (String.eqb a "")); [|reflexivity].
    unfold Auth.canPerformAction. rewrite Hp, Ha.
    destruct (includes_ok _ (Some a) Hperm) as [b ->].
    cbn. rewrite orb_true_r. reflexivity.
Qed.

Lemma requireAdmin_grants_every_action_witness :
  (Auth.requireAdmin sample_auth).1.1 = Ok true
  /\ Auth.userProfile sample_auth
     = Some (Auth.initial_profile sample_user)
  /\ permissions_ok (Auth.initial_profile sample_user)
  /\ Auth.requireAuth (Some "delete_data") sample_auth
     = (Ok true, sample_auth, []).
Proof.
  assert (H1 : (Auth.requireAdmin sample_auth).1.1 = Ok true) by reflexivity.
  assert (H2 : Auth.userProfile sample_auth
               = Some (Auth.initial_profile sample_user)) by reflexivity.
  assert (H3 : permissions_ok (Auth.initial_profile sample_user)).
  { vm_compute. exact I. }
  split; [exact H1|]. split; [exact H2|]. split; [exact H3|].
  exact (proj2 (proj2 (proj2 (requireAdmin_grants_every_action sample_auth)))
           _ (Some "delete_data") H1 H2 H3).
Defined.

(** X23. Without a loaded profile nobody can perform an action, not even
    with the admin flag set: [canPerformAction] is [false], and
    [requireAuth(action)] with a non-empty action refuses a signed-in
    user with the permission message, while [requireAuth()] without an
    action lets every signed-in user pass.  With no user signed in,
    [requireAuth] shows the sign-in modal and returns [false].  With a
    profile whose [permissions] is an array, an action is allowed exactly
    when it is listed or the admin flag is set. *)
Theorem requireAuth_needs_profile am action :
  (Auth.userProfile am = None ->
   Auth.canPerformAction am action = Ok false
   /\ (is_Some (Auth.user am) ->
       Auth.requireAuth None am = (Ok true, am, [])
       /\ (action <> "" ->
           Auth.requireAuth (Some action) am
           = (Ok false, am,
              [Auth.ShowMessage
                 "You do not have permission to perform this action."
                 "error"]))))
  /\ (Auth.user am = None ->
      forall a, Auth.requireAuth a am
                = (Ok false, am, [Auth.ShowModal "sign-in-modal"]))
  /\ (forall profile l,
        Auth.userProfile am = Some profile ->
        obj_get profile "permissions" = VArr l ->
        Auth.canPerformAction am action
        = Ok (lists l (Some action) || Auth.isAdmin am)).
Proof.
  split; [|split].
  - intros Hp. unfold Auth.canPerformAction. rewrite Hp.
    split; [reflexivity|]. intros [u Hu].
    unfold Auth.requireAuth, bindM at 1, this. rewrite Hu.
    split; [reflexivity|]. intros Hne.
    unfold bindM at 1, this. rewrite Hu.
    destruct (String.eqb_spec action "") as [->|_]; [congruence|].
    unfold Auth.canPerformAction. rewrite Hp. reflexivity.
  - intros Hu a. unfold Auth.requireAuth, bindM at 1, this. rewrite Hu.
    reflexivity.
  - intros profile l Hp Hl. unfold Auth.canPerformAction. rewrite Hp, Hl.
    reflexivity.
Qed.

Lemma requireAuth_needs_profile_witness :
  let am := Auth.mkAM (Some sample_user) None true [] [] true true true in
  Auth.userProfile am = None
  /\ Auth.canPerformAction am "post" = Ok false
  /\ Auth.requireAuth (Some "post") am
     = (Ok false, am,
        [Auth.ShowMessage
           "You do not have permission to perform this action." "error"]).
Proof.
  intros am.
  assert (H : Auth.userProfile am = None) by reflexivity.
  split; [exact H|].
  destruct (proj1 (requireAuth_needs_profile am "post") H) as [H1 H2].
  split; [exact H1|].
  apply H2; [eexists; reflexivity | discriminate].
Defined.

Lemma checkAdminStatus_run am cfg u p adminEmails b :
  Auth.user am = Some u -> Auth.userProfile am = Some p ->
  js_or (match cfg with
         | Some cm => obj_or_undefined (getConfig cm "auth-settings")
         | None => VUndefined
         end) Auth.defaultAdminEmails = adminEmails ->
  Auth.includes adminEmails (Auth.email u) = Ok b ->
  Auth.checkAdminStatus cfg am
  = (Ok (b || has_admin_role p),
     (Auth.set_isAdmin (b || has_admin_role p) am).1.2, []).
Proof.
  intros Hu Hp Hcfg Hinc. unfold Auth.checkAdminStatus, bindM at 1, this.
  rewrite Hu, Hp. unfold bindM at 1, await.
  assert (E : (if is_nullish match cfg with
                              | Some cm => getConfig cm "auth-settings"
                              | None => VUndefined
                              end
               then Ok VUndefined
               else getProp match cfg with
                            | Some cm => getConfig cm "auth-settings"
                            | None => VUndefined
                            end "adminEmails")
              = Ok match cfg with
                   | Some cm => obj_or_undefined (getConfig cm "auth-settings")
                   | None => VUndefined
                   end).
  { destruct cfg as [cm|]; [|reflexivity].
    pose proof (getConfig_truthy cm "auth-settings") as Ht.
    unfold obj_or_undefined.
    destruct (getConfig cm "auth-settings"); try discriminate; reflexivity. }
  rewrite E, Hcfg. unfold bindM at 1. rewrite Hinc.
  unfold has_admin_role. cbn. rewrite orb_assoc. reflexivity.
Qed.

(** X24. [checkAdminStatus()] clears the admin flag and returns [false]
    when no user is signed in or no profile is loaded.  Otherwise the
    flag it sets and returns is: the profile's role is 'admin' or
    'super_admin', or the user's e-mail is listed.  The list is the
    array [adminEmails] of the 'auth-settings' config when the
    configuration manager holds one (the two built-in addresses are then
    not consulted, even if that array is empty), and the two built-in
    addresses when there is no configuration manager or that config was
    never loaded. *)
Theorem checkAdminStatus_rules am cfg :
  (Auth.user am = None \/ Auth.userProfile am = None ->
   Auth.checkAdminStatus cfg am
   = (Ok false, (Auth.set_isAdmin false am).1.2, []))
  /\ (forall u p,
        Auth.user am = Some u -> Auth.userProfile am = Some p ->
        cfg = None
        \/ (exists cm, cfg = Some cm
                       /\ configs cm !! "auth-settings" = None) ->
        let b := lists [VStr "admin@packslist.com"; VStr "sxpxru@gmail.com"]
                   (Auth.email u)
                 || has_admin_role p in
        Auth.checkAdminStatus cfg am
        = (Ok b, (Auth.set_isAdmin b am).1.2, []))
  /\ (forall u p cm o l,
        Auth.user am = Some u -> Auth.userProfile am = Some p ->
        cfg = Some cm -> getConfig cm "auth-settings" = VObj o ->
        obj_get o "adminEmails" = VArr l ->
        let b := lists l (Auth.email u) || has_admin_role p in
        Auth.checkAdminStatus cfg am
        = (Ok b, (Auth.set_isAdmin b am).1.2, [])).
Proof.
  split; [|split].
  - intros H. unfold Auth.checkAdminStatus, bindM at 1, this.
    destruct (Auth.user am), (Auth.userProfile am); try reflexivity.
    destruct H; discriminate.
  - intros u p Hu Hp Hcfg b.
    apply (checkAdminStatus_run am cfg u p Auth.defaultAdminEmails);
      auto.
    destruct Hcfg as [->|(cm & -> & Hc)]; [reflexivity|].
    now rewrite (getConfig_none _ _ Hc).
  - intros u p cm o l Hu Hp -> Hc Hl b.
    apply (checkAdminStatus_run am (Some cm) u p (VArr l)); auto.
    now rewrite Hc; simpl; rewrite Hl.
Qed.

Lemma checkAdminStatus_rules_witness :
  let cm := (updateConfig "auth-settings"
               (VObj [("adminEmails", strs ["ops@packslist.com"])])
               (Ok tt) sample_manager).1.2 in
  let am := Auth.mkAM (Some sample_user)
              (Some [("role", VStr "user")]) false [] [] true true true in
  Auth.user am = Some sample_user
  /\ Auth.userProfile am = Some [("role", VStr "user")]
  /\ getConfig cm "auth-settings"
     = VObj [("adminEmails", strs ["ops@packslist.com"])]
  /\ (Auth.checkAdminStatus (Some cm) am).1.1 = Ok false
  /\ (Auth.checkAdminStatus None am).1.1 = Ok true.
Proof.
  intros cm am.
  assert (H1 : Auth.user am = Some sample_user) by reflexivity.
  assert (H2 : Auth.userProfile am = Some [("role", VStr "user")])
    by reflexivity.
  assert (H3 : getConfig cm "auth-settings"
               = VObj [("adminEmails", strs ["ops@packslist.com"])])
    by (vm_compute; reflexivity).
  split; [exact H1|]. split; [exact H2|]. split; [exact H3|]. split.
  - rewrite (proj2 (proj2 (checkAdminStatus_rules am (Some cm)))
               sample_user _ cm _ [VStr "ops@packslist.com"]
               H1 H2 eq_refl H3 eq_refl).
    reflexivity.
  - rewrite (proj1 (proj2 (checkAdminStatus_rules am None))
               sample_user _ H1 H2 (or_introl eq_refl)).
    reflexivity.
Defined.

Lemma lists_built_in u :
  lists [VStr "admin@packslist.com"; VStr "sxpxru@gmail.com"] (Auth.email u)
  = Auth.isAdminEmail u.
Proof.
  unfold Auth.isAdminEmail, Auth.opt_eqb, lists, existsb, strict_eq_str.
  destruct (Auth.email u) as [e|]; [|reflexivity].
  rewrite (String.eqb_sym "admin@packslist.com"),
    (String.eqb_sym "sxpxru@gmail.com"), orb_false_r.
  apply orb_comm.
Qed.

Lemma isSuperAdmin_isAdminEmail u :
  Auth.isSuperAdmin u = true -> Auth.isAdminEmail u = true.
Proof. unfold Auth.isSuperAdmin, Auth.isAdminEmail. now intros ->. Qed.

(** X25. [createUserProfile()], for a signed-in user, asks for one write
    of the initial profile and returns it, or [null] when the write
    fails; it changes nothing in the manager.  The role it assigns
    agrees with the built-in admin check: with that profile loaded and no
    'auth-settings' config, [checkAdminStatus()] is [true] exactly when
    the role is not 'user'.  Every new profile may browse and post; only
    the profile of the super-admin address may manage admins, and only
    the two admin addresses may moderate. *)
Theorem createUserProfile_role_consistent am u resp :
  Auth.user am = Some u -> Auth.db am = true ->
  Auth.createUserProfile resp am
  = (Ok (if is_ok resp then Some (Auth.initial_profile u) else None), am,
     [Auth.UsersSet (Auth.uid u) (Auth.initial_profile u)])
  /\ let am' := (Auth.set_userProfile (Some (Auth.initial_profile u)) am).1.2 in
     (Auth.checkAdminStatus None am').1.1
     = Ok (negb (String.eqb (Auth.role_for u) "user"))
     /\ Auth.canPerformAction am' "browse" = Ok true
     /\ Auth.canPerformAction am' "post" = Ok true
     /\ (Auth.isAdmin am = false ->
         Auth.canPerformAction am' "manage_admins" = Ok (Auth.isSuperAdmin u)
         /\ Auth.canPerformAction am' "moderate" = Ok (Auth.isAdminEmail u)).
Proof.
  intros Hu Hdb. split.
  - unfold Auth.createUserProfile, bindM at 1, this. rewrite Hu.
    unfold tryM, bindM at 1, Auth.users_request, bindM at 1, this.
    rewrite Hdb. destruct resp as [[]|e]; reflexivity.
  - cbv zeta.
    assert (Hperm : obj_get (Auth.initial_profile u) "permissions"
                    = strs (Auth.permissions_for u)) by reflexivity.
    assert (Hrole : obj_get (Auth.initial_profile u) "role"
                    = VStr (Auth.role_for u)) by reflexivity.
    split; [|split; [|split]].
    + rewrite (checkAdminStatus_run
                 (Auth.set_userProfile (Some (Auth.initial_profile u)) am).1.2
                 None u (Auth.initial_profile u) Auth.defaultAdminEmails
                 (lists [VStr "admin@packslist.com"; VStr "sxpxru@gmail.com"]
                    (Auth.email u)) Hu eq_refl eq_refl eq_refl).
      cbn [fst]. f_equal. rewrite lists_built_in.
      unfold has_admin_role. rewrite Hrole. unfold Auth.role_for, strict_eq_str.
      destruct (Auth.isSuperAdmin u), (Auth.isAdminEmail u); reflexivity.
    + unfold Auth.canPerformAction. cbn [Auth.set_userProfile fst snd Auth.userProfile].
      rewrite Hperm. unfold Auth.permissions_for.
      destruct (Auth.isSuperAdmin u), (Auth.isAdminEmail u); reflexivity.
    + unfold Auth.canPerformAction. cbn [Auth.set_userProfile fst snd Auth.userProfile].
      rewrite Hperm. unfold Auth.permissions_for.
      destruct (Auth.isSuperAdmin u), (Auth.isAdminEmail u); reflexivity.
    + intros Ha. unfold Auth.canPerformAction.
      cbn [Auth.set_userProfile fst snd Auth.userProfile Auth.isAdmin].
      rewrite Hperm, Ha. unfold Auth.permissions_for.
      pose proof (isSuperAdmin_isAdminEmail u) as Hs.
      destruct (Auth.isSuperAdmin u), (Auth.isAdminEmail u);
        try (split; reflexivity).
      discriminate (Hs eq_refl).
Qed.

Lemma createUserProfile_role_consistent_witness :
  let am := Auth.mkAM (Some sample_user) None false [] [] true true true in
  Auth.user am = Some sample_user /\ Auth.db am = true
  /\ Auth.createUserProfile (Ok tt) am
     = (Ok (Some (Auth.initial_profile sample_user)), am,
        [Auth.UsersSet "u1" (Auth.initial_profile sample_user)]).
Proof.
  intros am.
  assert (H1 : Auth.user am = Some sample_user) by reflexivity.
  assert (H2 : Auth.db am = true) by reflexivity.
  split; [exact H1|]. split; [exact H2|].
  exact (proj1 (createUserProfile_role_consistent am sample_user (Ok tt)
                  H1 H2)).
Defined.

(** ** Loading the user profile *)

Lemma obj_set_keys k v (o : JSObj) :
  (obj_set k v o).*1 = if bool_decide (k ∈ o.*1) then o.*1 else o.*1 ++ [k].
Proof.
  induction o as [|[k1 v1] o IH]; [reflexivity|].
  cbn [obj_set]. destruct (String.eqb_spec k1 k) as [->|Hne].
  - rewrite bool_decide_eq_true_2; [reflexivity | left].
  - rewrite !fmap_cons, IH. cbn [fst].
    destruct (decide (k ∈ o.*1)) as [Hin|Hin].
    + rewrite !bool_decide_eq_true_2; [reflexivity | now right | exact Hin].
    + rewrite !bool_decide_eq_false_2; [reflexivity | | exact Hin].
      intros [?|?]%elem_of_cons; congruence.
Qed.

Lemma obj_set_wf k v (o : JSObj) : obj_wf o -> obj_wf (obj_set k v o).
Proof.
  unfold obj_wf. change (map fst) with (fmap (M:=list) (@fst string JSValue)).
  intros Hwf. rewrite obj_set_keys.
  destruct (decide (k ∈ o.*1)) as [Hin|Hin].
  - now rewrite bool_decide_eq_true_2.
  - rewrite bool_decide_eq_false_2 by exact Hin.
    apply NoDup_app. split; [exact Hwf|]. split.
    + intros x Hx ->%list_elem_of_singleton. contradiction.
    + apply NoDup_singleton.
Qed.

Lemma missing_fields_wf u d : obj_wf (Auth.missing_fields u d).
Proof.
  unfold Auth.missing_fields.
  repeat match goal with
         | |- obj_wf (if ?c then _ else _) => destruct c
         | |- obj_wf (obj_set _ _ _) => apply obj_set_wf
         end;
    (unfold obj_wf; apply (bool_decide_unpack _); vm_compute; exact I).
Qed.

Lemma missing_fields_keys u d k :
  k <> "lastLogin" -> truthy (obj_get d k) = true ->
  assoc k (Auth.missing_fields u d) = None.
Proof.
  intros Hk Ht. unfold Auth.missing_fields.
  assert (Hset : forall k' v o, truthy (obj_get d k') = false ->
                   assoc k o = None -> assoc k (obj_set k' v o) = None).
  { intros k' v o Hf Ho. rewrite assoc_obj_set.
    destruct (String.eqb_spec k' k) as [->|_]; [congruence | exact Ho]. }
  assert (H0 : assoc k [("lastLogin", Auth.serverTimestamp)] = None).
  { cbn [assoc]. destruct (String.eqb_spec "lastLogin" k) as [<-|_];
      [congruence | reflexivity]. }
  destruct (truthy (obj_get d "createdAt")) eqn:E1;
    destruct (truthy (obj_get d "email")) eqn:E2;
    destruct (truthy (obj_get d "displayName")) eqn:E3;
    destruct (truthy (obj_get d "role")) eqn:E4;
    cbn [negb andb];
    repeat match goal with
           | |- assoc k (if ?c then _ else _) = None => destruct c
           | |- assoc k (obj_set _ _ _) = None => apply Hset; [assumption|]
           end; exact H0.
Qed.

Lemma missing_fields_role u d :
  truthy (obj_get d "role") = false ->
  obj_get (Auth.missing_fields u d) "role" = VStr (Auth.role_for u).
Proof.
  intros Hr. unfold Auth.missing_fields. rewrite Hr. cbn [negb].
  unfold obj_get. rewrite assoc_obj_set. reflexivity.
Qed.

Lemma missing_fields_lastLogin u d :
  obj_get (Auth.missing_fields u d) "lastLogin" = Auth.serverTimestamp.
Proof.
  unfold Auth.missing_fields, obj_get.
  repeat match goal with
         | |- context [if ?c then _ else _] =>
             lazymatch c with
             | String.eqb _ _ => fail
             | _ => destruct c
             end
         end;
    rewrite ?assoc_obj_set; reflexivity.
Qed.

#[local] Arguments Auth.missing_fields : simpl never.
#[local] Arguments spread2 : simpl never.

(** The run of [loadUserProfile()] on a document that exists. *)
Lemma loadUserProfile_doc_run am u d w :
  Auth.user am = Some u -> Auth.db am = true ->
  Auth.loadUserProfile (Ok (Some d)) w am
  = let needs := negb (truthy (obj_get d "createdAt"))
                 || negb (truthy (obj_get d "lastLogin")) in
    let upd := if needs then Auth.missing_fields u d
               else [("lastLogin", Auth.serverTimestamp)] in
    let merged := if needs then spread2 (VObj d) (VObj upd) else d in
    (Ok (if is_ok w then Some merged else None),
     (Auth.set_userProfile (Some (if is_ok w then merged else d)) am).1.2,
     [Auth.UsersGet (Auth.uid u); Auth.UsersUpdate (Auth.uid u) upd]).
Proof.
  intros Hu Hdb. destruct am as [us pr ad ls ob ini au dbb].
  cbn in Hu, Hdb. subst us dbb. cbv zeta.
  unfold Auth.loadUserProfile, bindM at 1, this. cbn [Auth.user].
  cbv beta iota delta [tryM bindM await this ret emit Auth.users_request
                         Auth.db].
  destruct (truthy (obj_get d "createdAt")), (truthy (obj_get d "lastLogin")),
    w as [[]|e]; reflexivity.
Qed.

(** X26. [loadUserProfile()] on a profile document that exists: the
    manager asks for one update that always carries [lastLogin]; nothing
    the document already holds (any property with a truthy value, other
    than [lastLogin]) is sent again or changed in the profile kept in
    memory.  A missing role is filled in by the e-mail rule when
    [createdAt] is missing too; a document that has both [createdAt] and
    [lastLogin] gets only the [lastLogin] update and is kept in memory
    as it was read, and so is any document when the update fails (the
    call then returns [null]). *)
Theorem loadUserProfile_keeps_stored_fields am u d w :
  Auth.user am = Some u -> Auth.db am = true -> obj_wf d ->
  exists p upd,
    Auth.loadUserProfile (Ok (Some d)) w am
    = (Ok (if is_ok w then Some p else None),
       (Auth.set_userProfile (Some p) am).1.2,
       [Auth.UsersGet (Auth.uid u); Auth.UsersUpdate (Auth.uid u) upd])
    /\ obj_get upd "lastLogin" = Auth.serverTimestamp
    /\ (forall k, k <> "lastLogin" -> truthy (obj_get d k) = true ->
          assoc k upd = None /\ obj_get p k = obj_get d k)
    /\ (truthy (obj_get d "createdAt") = false ->
        truthy (obj_get d "role") = false ->
        obj_get upd "role" = VStr (Auth.role_for u)
        /\ (is_ok w = true -> obj_get p "role" = VStr (Auth.role_for u)))
    /\ (truthy (obj_get d "createdAt") = true ->
        truthy (obj_get d "lastLogin") = true ->
        upd = [("lastLogin", Auth.serverTimestamp)] /\ p = d)
    /\ (is_ok w = false -> p = d).
Proof.
  intros Hu Hdb Hwf.
  pose proof (loadUserProfile_doc_run am u d w Hu Hdb) as Hrun.
  cbv zeta in Hrun.
  destruct (truthy (obj_get d "createdAt")) eqn:Ec;
    [destruct (truthy (obj_get d "lastLogin")) eqn:El|]; cbn [negb orb] in Hrun.
  - (* both timestamps present *)
    exists d, [("lastLogin", Auth.serverTimestamp)].
    split; [rewrite Hrun; destruct (is_ok w); reflexivity|].
    split; [reflexivity|].
    split.
    { intros k Hk _. split; [|reflexivity]. cbn [assoc].
      destruct (String.eqb_spec "lastLogin" k) as [<-|_];
        [congruence | reflexivity]. }
    split; [discriminate|]. split; [now split | reflexivity].
  - (* lastLogin missing *)
    exists (if is_ok w then spread2 (VObj d) (VObj (Auth.missing_fields u d))
            else d), (Auth.missing_fields u d).
    split; [rewrite Hrun; destruct (is_ok w); reflexivity|].
    split; [apply missing_fields_lastLogin|].
    split.
    { intros k Hk Ht. pose proof (missing_fields_keys u d k Hk Ht) as Hn.
      split; [exact Hn|]. destruct (is_ok w); [|reflexivity].
      unfold obj_get at 1.
      rewrite (assoc_spread2 k (VObj d) (VObj (Auth.missing_fields u d))
                 Hwf (missing_fields_wf u d)).
      cbn [ownEntries]. rewrite Hn. reflexivity. }
    split; [discriminate|]. split; [discriminate|]. now intros ->.
  - (* createdAt missing *)
    exists (if is_ok w then spread2 (VObj d) (VObj (Auth.missing_fields u d))
            else d), (Auth.missing_fields u d).
    split; [rewrite Hrun; destruct (is_ok w); reflexivity|].
    split; [apply missing_fields_lastLogin|].
    split.
    { intros k Hk Ht. pose proof (missing_fields_keys u d k Hk Ht) as Hn.
      split; [exact Hn|]. destruct (is_ok w); [|reflexivity].
      unfold obj_get at 1.
      rewrite (assoc_spread2 k (VObj d) (VObj (Auth.missing_fields u d))
                 Hwf (missing_fields_wf u d)).
      cbn [ownEntries]. rewrite Hn. reflexivity. }
    split.
    { intros _ Hr. pose proof (missing_fields_role u d Hr) as Hrole.
      split; [exact Hrole|]. intros ->. unfold obj_get at 1.
      rewrite (assoc_spread2 "role" (VObj d) (VObj (Auth.missing_fields u d))
                 Hwf (missing_fields_wf u d)).
      cbn [ownEntries]. unfold obj_get in Hrole.
      unfold Auth.missing_fields in *. rewrite Hr in *. cbn [negb] in *.
      rewrite assoc_obj_set in *. reflexivity. }
    split; [discriminate|]. now intros ->.
Qed.

Lemma loadUserProfile_keeps_stored_fields_witness :
  let am := Auth.mkAM (Some sample_user) None false [] [] true true true in
  Auth.user am = Some sample_user /\ Auth.db am = true
  /\ obj_wf legacy_profile
  /\ exists p upd,
       Auth.loadUserProfile (Ok (Some legacy_profile)) (Ok tt) am
       = (Ok (Some p), (Auth.set_userProfile (Some p) am).1.2,
          [Auth.UsersGet "u1"; Auth.UsersUpdate "u1" upd])
       /\ obj_get p "role" = VStr "user".
Proof.
  intros am.
  assert (H1 : Auth.user am = Some sample_user) by reflexivity.
  assert (H2 : Auth.db am = true) by reflexivity.
  assert (H3 : obj_wf legacy_profile).
  { unfold obj_wf. apply (bool_decide_unpack _). vm_compute. exact I. }
  split; [exact H1|]. split; [exact H2|]. split; [exact H3|].
  destruct (loadUserProfile_keeps_stored_fields am sample_user legacy_profile
              (Ok tt) H1 H2 H3) as (p & upd & Hrun & _ & Hkeep & _).
  exists p, upd. split; [exact Hrun|].
  refine (proj2 (Hkeep "role" _ eq_refl)). discriminate.
Defined.

(** X27. [loadUserProfile()] never throws: every failure is turned into
    the result [null].  Without a signed-in user it does nothing.  When
    the read of the profile fails, the profile in memory stays as it
    was; when the document does not exist, the profile in memory becomes
    what [createUserProfile()] returned: the initial profile, or [null]
    when that write failed. *)
Theorem loadUserProfile_never_throws am :
  (forall g w, exists r, (Auth.loadUserProfile g w am).1.1 = Ok r)
  /\ (Auth.user am = None ->
      forall g w, Auth.loadUserProfile g w am = (Ok None, am, []))
  /\ (forall u, Auth.user am = Some u -> Auth.db am = true ->
        (forall e w, Auth.loadUserProfile (Throw e) w am
                     = (Ok None, am, [Auth.UsersGet (Auth.uid u)]))
        /\ (forall w,
              let created := if is_ok w then Some (Auth.initial_profile u)
                             else None in
              Auth.loadUserProfile (Ok None) w am
              = (Ok created, (Auth.set_userProfile created am).1.2,
                 [Auth.UsersGet (Auth.uid u);
                  Auth.UsersSet (Auth.uid u) (Auth.initial_profile u)]))).
Proof.
  split; [|split].
  - intros g w. destruct (Auth.user am) as [u|] eqn:Hu.
    + destruct (Auth.db am) eqn:Hdb.
      * destruct g as [[d|]|e].
        -- pose proof (loadUserProfile_doc_run am u d w Hu Hdb) as Hrun.
           cbv zeta in Hrun. eexists.
           exact (f_equal (fun x => x.1.1) Hrun).
        -- destruct am as [us pr ad ls ob ini au dbb]. cbn in Hu, Hdb.
           subst us dbb. destruct w as [[]|e]; eexists; reflexivity.
        -- destruct am as [us pr ad ls ob ini au dbb]. cbn in Hu, Hdb.
           subst us dbb. eexists; reflexivity.
      * destruct am as [us pr ad ls ob ini au dbb]. cbn in Hu, Hdb.
        subst us dbb. eexists; reflexivity.
    + destruct am as [us pr ad ls ob ini au dbb]. cbn in Hu. subst us.
      eexists; reflexivity.
  - intros Hu g w. unfold Auth.loadUserProfile, bindM at 1, this.
    rewrite Hu. reflexivity.
  - intros u Hu Hdb. destruct am as [us pr ad ls ob ini au dbb].
    cbn in Hu, Hdb. subst us dbb. split.
    + intros e w. reflexivity.
    + intros w. destruct w as [[]|e]; reflexivity.
Qed.

Lemma loadUserProfile_never_throws_witness :
  let am := Auth.mkAM (Some sample_user) None false [] [] true true true in
  Auth.user am = Some sample_user /\ Auth.db am = true
  /\ Auth.loadUserProfile (Ok None) (Throw (RemoteError "unavailable")) am
     = (Ok None, am,
        [Auth.UsersGet "u1";
         Auth.UsersSet "u1" (Auth.initial_profile sample_user)]).
Proof.
  intros am.
  assert (H1 : Auth.user am = Some sample_user) by reflexivity.
  assert (H2 : Auth.db am = true) by reflexivity.
  split; [exact H1|]. split; [exact H2|].
  exact (proj2 (proj2 (proj2 (loadUserProfile_never_throws am))
                  sample_user H1 H2) (Throw (RemoteError "unavailable"))).
Defined.

(** ** Authentication state changes *)

Lemma bind_state {S E A B} (m : Prog S E A) (k : A -> Prog S E B) s a s1 t1 :
  m s = (Ok a, s1, t1) -> (bindM m k s).1.2 = (k a s1).1.2.
Proof.
  intros Hm. unfold bindM. rewrite Hm.
  destruct (k a s1) as [[r s2] t2]. reflexivity.
Qed.

Lemma notifyAuthListeners_run event data am :
  Auth.notifyAuthListeners event data am
  = (Ok tt, am, auth_notifications event data am).
Proof.
  unfold Auth.notifyAuthListeners, bindM at 1, this.
  rewrite (forEach_try_run (fun i => Auth.AuthNotified i event data)
             (fun cb : Callback => cb event data)).
  reflexivity.
Qed.

Lemma updateUIForAuthState_state indicator am :
  (Auth.updateUIForAuthState indicator am).1.2 = am.
Proof.
  destruct am as [us pr ad ls ob ini au dbb].
  destruct indicator; [|reflexivity].
  destruct us as [u|]; [|reflexivity].
  unfold Auth.updateUIForAuthState, Auth.updateHeaderUserInfo.
  cbv beta iota delta [bindM this emit ret await Auth.user Auth.userProfile
                         Auth.isAdmin].
  destruct (truthy match pr with
                   | Some p => obj_get p "displayName"
                   | None => VUndefined
                   end); [reflexivity|].
  destruct (Auth.email u); reflexivity.
Qed.

Lemma then_updateUI_state {B} (m : Auth.A B) indicator am :
  (bindM m (fun _ => Auth.updateUIForAuthState indicator) am).1.2 = (m am).1.2.
Proof.
  unfold bindM. destruct (m am) as [[[b|e] s1] t1]; [|reflexivity].
  pose proof (updateUIForAuthState_state indicator s1) as Hs.
  destruct (Auth.updateUIForAuthState indicator s1) as [[r s2] t2].
  exact Hs.
Qed.

(** [loadUserProfile()] returns normally and changes nothing but the
    profile; the profile is left alone when no read was issued or the
    read failed. *)
Lemma loadUserProfile_frame am g w :
  exists r p t,
    Auth.loadUserProfile g w am = (Ok r, (Auth.set_userProfile p am).1.2, t)
    /\ (Auth.db am = false \/ (exists e, g = Throw e) ->
        p = Auth.userProfile am).
Proof.
  destruct am as [us pr ad ls ob ini au dbb].
  destruct us as [u|].
  - destruct dbb.
    + destruct g as [[d|]|e].
      * pose proof (loadUserProfile_doc_run
                      (Auth.mkAM (Some u) pr ad ls ob ini au true) u d w
                      eq_refl eq_refl) as Hrun.
        cbv zeta in Hrun. do 3 eexists. split; [exact Hrun|].
        intros [H|(e & H)]; discriminate.
      * destruct w as [[]|e].
        -- exists (Some (Auth.initial_profile u)), (Some (Auth.initial_profile u)).
           eexists. split; [reflexivity|].
           intros [H|(e & H)]; discriminate.
        -- exists None, None. eexists. split; [reflexivity|].
           intros [H|(e' & H)]; discriminate.
      * exists None, pr. eexists. split; reflexivity.
    + exists None, pr. eexists. split; reflexivity.
  - exists None, pr, []. split; reflexivity.
Qed.

Lemma checkAdminStatus_built_in am cfg u :
  no_auth_settings cfg -> Auth.user am = Some u ->
  let b := match Auth.userProfile am with
           | Some p => Auth.isAdminEmail u || has_admin_role p
           | None => false
           end in
  Auth.checkAdminStatus cfg am = (Ok b, (Auth.set_isAdmin b am).1.2, []).
Proof.
  intros Hcfg Hu. cbv zeta. destruct (Auth.userProfile am) as [p|] eqn:Hp.
  - rewrite <- lists_built_in.
    apply (checkAdminStatus_run am cfg u p Auth.defaultAdminEmails);
      [exact Hu | exact Hp | | reflexivity].
    destruct cfg as [cm|]; [|reflexivity].
    cbn [no_auth_settings] in Hcfg. now rewrite (getConfig_none _ _ Hcfg).
  - unfold Auth.checkAdminStatus, bindM at 1, this. rewrite Hu, Hp.
    reflexivity.
Qed.

Lemma handleAuthStateChange_sign_in_state am u g w cfg indicator :
  no_auth_settings cfg ->
  exists p,
    (Auth.handleAuthStateChange (Some u) g w cfg indicator am).1.2
    = Auth.mkAM (Some u) p
        match p with
        | Some pr => Auth.isAdminEmail u || has_admin_role pr
        | None => false
        end
        (Auth.authListeners am) (Auth.onboardingData am)
        (Auth.isInitialized am) (Auth.auth am) (Auth.db am)
    /\ (Auth.db am = false \/ (exists e, g = Throw e) ->
        p = Auth.userProfile am).
Proof.
  intros Hcfg. unfold Auth.handleAuthStateChange.
  set (am1 := (Auth.set_user (Some u) am).1.2).
  rewrite (bind_state _ _ am tt am1 [] eq_refl).
  rewrite then_updateUI_state.
  destruct (loadUserProfile_frame am1 g w) as (r & p & t & Hrun & Hkeep).
  exists p. split; [|exact Hkeep].
  rewrite (bind_state _ _ am1 _ _ _ Hrun).
  set (am2 := (Auth.set_userProfile p am1).1.2).
  pose proof (checkAdminStatus_built_in am2 cfg u Hcfg eq_refl) as Hadm.
  cbv zeta in Hadm. rewrite (bind_state _ _ am2 _ _ _ Hadm).
  unfold bindM at 1, this. rewrite notifyAuthListeners_run. reflexivity.
Qed.

(** X29. Handling a sign-out ([handleAuthStateChange(null)]) never fails
    and asks nothing of the remote store: it clears the user, the profile
    and the admin flag, calls every listener with 'unauthenticated' and
    [null], then redraws the page for a guest.  Afterwards no action is
    permitted and neither [requireAuth] nor [requireAdmin] lets anything
    through. *)
Theorem handleAuthStateChange_sign_out am g w cfg indicator :
  let r := Auth.handleAuthStateChange None g w cfg indicator am in
  r.1.1 = Ok tt
  /\ r.1.2 = Auth.mkAM None None false (Auth.authListeners am)
               (Auth.onboardingData am) (Auth.isInitialized am)
               (Auth.auth am) (Auth.db am)
  /\ r.2 = auth_notifications "unauthenticated" VNull am
           ++ Auth.ButtonsShown false false
              :: (if indicator then [Auth.IndicatorSet None] else [])
  /\ (forall action, Auth.canPerformAction r.1.2 action = Ok false)
  /\ (forall action, (Auth.requireAuth action r.1.2).1.1 = Ok false)
  /\ (Auth.requireAdmin r.1.2).1.1 = Ok false.
Proof.
  cbv zeta.
  assert (Hrun : Auth.handleAuthStateChange None g w cfg indicator am
                 = (Ok tt,
                    Auth.mkAM None None false (Auth.authListeners am)
                      (Auth.onboardingData am) (Auth.isInitialized am)
                      (Auth.auth am) (Auth.db am),
                    auth_notifications "unauthenticated" VNull am
                    ++ Auth.ButtonsShown false false
                       :: (if indicator then [Auth.IndicatorSet None]
                           else []))).
  { unfold Auth.handleAuthStateChange, bindM at 1, Auth.set_user.
    unfold bindM at 1, bindM at 1, Auth.set_userProfile.
    unfold bindM at 1, Auth.set_isAdmin.
    cbn [Auth.user Auth.userProfile Auth.isAdmin Auth.authListeners
         Auth.onboardingData Auth.isInitialized Auth.auth Auth.db].
    rewrite notifyAuthListeners_run.
    unfold auth_notifications. cbn [Auth.authListeners app].
    destruct indicator; cbn; rewrite ?app_nil_r; reflexivity. }
  rewrite Hrun. cbn [fst snd].
  split; [reflexivity|]. split; [reflexivity|]. split; [reflexivity|].
  split; [reflexivity|]. split; [reflexivity|]. reflexivity.
Qed.

(** X30. After a sign-in is handled ([handleAuthStateChange(user)], no
    'auth-settings' configuration loaded), whatever the remote store
    answered and even if redrawing the page failed: the user is set, the
    listeners are untouched, and the admin flag agrees with the profile
    now in memory (listed address, or role 'admin' or 'super_admin'; not
    an admin without a profile).  When the profile could not be read,
    the profile that was in memory before the call is still there, and
    it is that profile's role which decides the admin flag. *)
Theorem handleAuthStateChange_admin_consistent am u g w cfg indicator :
  no_auth_settings cfg ->
  let am' := (Auth.handleAuthStateChange (Some u) g w cfg indicator am).1.2 in
  Auth.user am' = Some u
  /\ Auth.authListeners am' = Auth.authListeners am
  /\ admin_consistent am'
  /\ (Auth.db am = false \/ (exists e, g = Throw e) ->
      Auth.userProfile am' = Auth.userProfile am
      /\ forall p, Auth.userProfile am = Some p -> has_admin_role p = true ->
           Auth.isAdmin am' = true).
Proof.
  intros Hcfg.
  destruct (handleAuthStateChange_sign_in_state am u g w cfg indicator Hcfg)
    as (p & Hst & Hkeep).
  cbv zeta. rewrite Hst. cbn [Auth.user Auth.authListeners Auth.userProfile
                                Auth.isAdmin].
  split; [reflexivity|]. split; [reflexivity|]. split.
  - unfold admin_consistent. reflexivity.
  - intros Hfail. rewrite (Hkeep Hfail). split; [reflexivity|].
    intros p0 -> ->. apply orb_true_r.
Qed.

Lemma handleAuthStateChange_admin_consistent_witness :
  no_auth_settings None
  /\ Auth.isAdmin
       (Auth.handleAuthStateChange (Some visitor)
          (Throw (RemoteError "unavailable")) (Ok tt) None true
          sample_auth).1.2 = true.
Proof.
  assert (H : no_auth_settings None) by exact I.
  split; [exact H|].
  refine (proj2 (proj2 (proj2 (proj2
            (handleAuthStateChange_admin_consistent sample_auth visitor
               (Throw (RemoteError "unavailable")) (Ok tt) None true H)))
            (or_intror (ex_intro _ _ eq_refl)))
            (Auth.initial_profile sample_user) eq_refl eq_refl).
Defined.

(** ** Error messages *)

Lemma assoc_Some_In k v (l : JSObj) :
  assoc k l = Some v -> In (k, v) l.
Proof.
  induction l as [|[k1 v1] l IH]; [discriminate|]. cbn [assoc].
  destruct (String.eqb_spec k1 k) as [->|_].
  - intros [= ->]. now left.
  - intros H. right. exact (IH H).
Qed.

Lemma errorMessages_texts k v :
  assoc k Auth.errorMessages = Some v -> exists s, v = VStr s /\ s <> "".
Proof.
  intros H%assoc_Some_In.
  assert (Hall : Forall (fun kv : string * JSValue =>
                           exists s, kv.2 = VStr s /\ s <> "")
                        Auth.errorMessages).
  { unfold Auth.errorMessages.
    repeat (apply Forall_cons_2; [eexists; split; [reflexivity|discriminate]|]).
    apply Forall_nil_2. }
  rewrite Forall_forall in Hall. apply list_elem_of_In in H.
  exact (Hall (k, v) H).
Qed.

(** X28. [getErrorMessage(error)], for an error whose code is not the
    name of a member of [Object.prototype], returns a non-empty text:
    the table's text for a code of the table, and otherwise
    'Authentication error: ' followed by the error's own message (also
    for an error without a code). *)
Theorem getErrorMessage_text code message :
  objectPrototype (default "undefined" code) = None ->
  exists s, Auth.getErrorMessage code message = VStr s /\ s <> ""
    /\ (assoc (default "undefined" code) Auth.errorMessages = None ->
        s = "Authentication error: " +:+ message)
    /\ (forall v, assoc (default "undefined" code) Auth.errorMessages = Some v ->
        VStr s = v).
Proof.
  intros Hproto. unfold Auth.getErrorMessage, obj_get. rewrite Hproto.
  destruct (assoc (default "undefined" code) Auth.errorMessages) as [v|] eqn:Hv.
  - destruct (errorMessages_texts _ _ Hv) as (s & -> & Hs).
    exists s. cbn [default truthy]. destruct s as [|c s]; [congruence|].
    cbn. split; [reflexivity|]. split; [discriminate|].
    split; [discriminate|]. now intros v [= <-].
  - cbn. eexists. split; [reflexivity|]. split; [discriminate|].
    split; [reflexivity|]. discriminate.
Qed.

Lemma getErrorMessage_text_witness :
  objectPrototype (default "undefined" (Some "auth/popup-blocked")) = None
  /\ Auth.getErrorMessage (Some "auth/popup-blocked") "blocked"
     = VStr "Authentication error: blocked".
Proof.
  assert (H : objectPrototype (default "undefined" (Some "auth/popup-blocked"))
              = None) by reflexivity.
  split; [exact H|].
  destruct (getErrorMessage_text (Some "auth/popup-blocked") "blocked" H)
    as (s & Hs & _ & Hnew & _).
  rewrite Hs. f_equal. apply Hnew. reflexivity.
Defined.

(** ** Instances *)

Lemma cache_timeout_is_five_minutes_witness :
  let cm := (run_ops [OpLoadOnSnapshot "ui-critical" (Ok (Some sample_doc))
                        sample_entropy 1000]
                     (newConfigManager "0.4fzyo82mvyr" 1762041600000)).1 in
  cache cm !! cacheKey "ui-critical"
                (generateSessionId "0.4fzyo82mvyr" 1762041600000)
  = Some (mkEntry (VObj sample_doc) 1000)
  /\ (loadConfigType "ui-critical" (sample_env 300999 (Ok None)) cm).1.1
     = Ok (VObj sample_doc)
  /\ (loadConfigType "ui-critical" (sample_env 300999 (Ok None)) cm).2
     = [Stored "ui-critical" (VObj sample_doc)]
  /\ remote_gets
       (loadConfigType "ui-critical" (sample_env 301000 (Ok None)) cm).2
     = ["ui-critical"].
Proof.
  intros cm.
  assert (H : cache cm !! cacheKey "ui-critical"
                (generateSessionId "0.4fzyo82mvyr" 1762041600000)
              = Some (mkEntry (VObj sample_doc) 1000)) by (vm_compute; reflexivity).
  assert (Hlt : (now_check (sample_env 300999 (Ok None))
                 - timestamp (mkEntry (VObj sample_doc) 1000) < 300000)%Z)
    by (simpl; lia).
  assert (Hge : (300000 <= now_check (sample_env 301000 (Ok None))
                 - timestamp (mkEntry (VObj sample_doc) 1000))%Z)
    by (simpl; lia).
  pose proof (proj1 (proj2 (proj2 (proj2 (proj2
                (cache_timeout_is_five_minutes "0.4fzyo82mvyr" 1762041600000
                   [OpLoadOnSnapshot "ui-critical" (Ok (Some sample_doc))
                      sample_entropy 1000]
                   "ui-critical" (sample_env 300999 (Ok None)))))) _ H) Hlt)
    as Hhit.
  split; [exact H|].
  split; [exact (f_equal (fun r => r.1.1) Hhit)|].
  split; [exact (f_equal snd Hhit)|].
  exact (proj2 (proj2 (proj2 (proj2 (proj2 (proj2
           (cache_timeout_is_five_minutes "0.4fzyo82mvyr" 1762041600000
              [OpLoadOnSnapshot "ui-critical" (Ok (Some sample_doc))
                 sample_entropy 1000]
              "ui-critical" (sample_env 301000 (Ok None)))))) _ H) Hge)).
Defined.

Lemma location_always_selected_witness :
  let ops := [LocSetCity "newport" (Ok tt); LocSetCity "atlantis" (Ok tt)] in
  let lm := run_loc_ops ops
              (newLocationManager {[ selectedCityKey := "atlantis" ]}) in
  Forall write_accepted ops
  /\ exists c, currentCity lm = Some c /\ c ∈ cityList
               /\ getCurrentCityDisplay lm <> "Select City"
               /\ forall k c', localStorage lm !! selectedCityKey = Some k ->
                    getCityByKey lm k = Some c' -> c' = c.
Proof.
  intros ops lm.
  assert (Hw : Forall write_accepted ops).
  { repeat constructor. }
  split; [exact Hw|].
  destruct (location_always_selected {[ selectedCityKey := "atlantis" ]} ops)
    as (c & Hc & Hin & _ & Hd & _ & Hp).
  exists c. split; [exact Hc|]. split; [exact Hin|]. split; [exact Hd|].
  exact (Hp Hw).
Defined.

Lemma initializeWhenReady_bounded_witness :
  let probe := fun k => if Nat.ltb k 3 then Auth.NotReady else Auth.Ready in
  let r := Auth.initializeWhenReady probe Auth.newAuthManager in
  1 <= r.2 <= 50
  /\ (forall k, 1 <= k < r.2 -> is_ready (probe k) = false)
  /\ (is_ready (probe r.2) = true \/ r.2 = 50).
Proof.
  intros probe r.
  pose proof (initializeWhenReady_bounded probe Auth.newAuthManager) as H.
  cbv zeta in H. fold r in H.
  split; [exact (proj1 H)|]. split; [exact (proj1 (proj2 H))|].
  exact (proj1 (proj2 (proj2 H))).
Defined.

Lemma waitForLocationManager_bounded_witness :
  let ready := fun k => Nat.leb 7 k in
  exists n, waitForLocationManager 51 0 ready = Some n
            /\ n <= 50 /\ (forall k, k < n -> ready k = false).
Proof.
  intros ready.
  destruct (waitForLocationManager_bounded ready) as (n & Hn & Hle & _ & Hk & _).
  exists n. split; [exact Hn|]. split; [exact Hle | exact Hk].
Defined.
